(** * A shallow embedding of [src/lib/file-reader.ts]

    The reader walks a byte buffer (preamble, File Meta Information,
    Command Set, main dataset) and the pixel pipeline turns the raw
    pixel bytes into grey-level colour strings.  The functions of the
    source keep their names; a loop or an inline expression that needs
    a name of its own says what it stands for.  The two functions that
    only print ([getPydicomLikeFileTagNotation]) or are never called
    ([Uint8Helpers.arrayToHex]) are left out.

    Conventions.
    - A [Uint8Array] is a [list byte]; [slice] truncates silently
      ([Uint8Helpers.takeN], [Uint8Helpers.dropN]).
    - Unsigned header fields (group, element, length) and cursors are
      [N].
    - A JavaScript [number] is [NaN] or an exact rational.  Infinities
      and binary64 rounding are not represented, so the model and the
      code agree where binary64 is exact or where rounding cannot
      move a floor: on integers below 2^53, on dyadic rationals, and
      on quotients that stay away from the integers.  A statement
      about computed numbers is made for such inputs (a bound on the
      width of a chunk, integer pixels in the default window), or it
      equates two runs of the same computation.
    - [console.error] appends to a log that is threaded through the
      computation; [console.log] debugging output is left out.
    - A thrown exception is an outcome of its own, and so is the
      exhaustion of the fuel that bounds the two [while] loops; the
      loops are shown to end within their fuel
      ([getSafeKey_spec], [readDataset_returns]).

    Layout: the JavaScript layer, the data model, the reader and the
    pixel pipeline; a dictionary, a converter and sample inputs for
    the worked examples; then the properties, general ones first. *)

From Stdlib Require Import List NArith ZArith QArith Qround Qabs Lia Lqa Bool.
From Stdlib Require Import String Ascii.
From Stdlib.Strings Require Import Byte.
From Stdlib Require Import DecimalString HexadecimalString DecimalNat.
Import ListNotations.

Local Open Scope string_scope.
Local Open Scope nat_scope.
Local Open Scope list_scope.

(** ** JavaScript values *)

Module JS.

Definition Uint8Array := list byte.

Inductive number :=
| NaN
| Num (q : Q).

Definition ofZ (z : Z) : number := Num (inject_Z z).
Definition ofN (n : N) : number := ofZ (Z.of_N n).

Definition lift2 (f : Q -> Q -> Q) (a b : number) : number :=
  match a, b with
  | Num x, Num y => Num (Qred (f x y))
  | _, _ => NaN
  end.

Definition add := lift2 Qplus.
Definition sub := lift2 Qminus.
Definition mul := lift2 Qmult.

(** [a / b]; a zero divisor would give an infinity, which the model
    reads as [NaN]. *)
Definition div (a b : number) : number :=
  match a, b with
  | Num x, Num y => if Qeq_bool y 0 then NaN else Num (Qred (x / y))
  | _, _ => NaN
  end.

(** [Math.abs]. *)
Definition abs (a : number) : number :=
  match a with
  | Num x => Num (Qabs x)
  | NaN => NaN
  end.

(** [a < b]. *)
Definition lt (a b : number) : bool :=
  match a, b with
  | Num x, Num y => negb (Qle_bool y x)
  | _, _ => false
  end.

(** [a > b]. *)
Definition gt (a b : number) : bool := lt b a.

(** [a === b] on numbers. *)
Definition strictEq (a b : number) : bool :=
  match a, b with
  | Num x, Num y => Qeq_bool x y
  | _, _ => false
  end.

(** Truthiness of a number: neither zero nor [NaN]. *)
Definition truthy (a : number) : bool :=
  match a with
  | Num x => negb (Qeq_bool x 0)
  | NaN => false
  end.

(** [Math.floor]. *)
Definition floor (a : number) : number :=
  match a with
  | Num x => ofZ (Qfloor x)
  | NaN => NaN
  end.

(** [Math.ceil], which lodash's [ceil] calls when no precision is given. *)
Definition ceil (a : number) : number :=
  match a with
  | Num x => ofZ (Qceiling x)
  | NaN => NaN
  end.

(** lodash [toInteger] followed by clamping at zero, as [chunk] does
    with its size argument ([NaN] becomes 0). *)
Definition toLength (a : number) : nat :=
  match a with
  | Num x => Z.to_nat (Qnum x / Zpos (Qden x))
  | NaN => 0
  end.

(** *** Digits *)

(** Digits of a positive number in radix 2 and radix 16, most
    significant first. *)
Fixpoint binaryDigits (p : positive) : string :=
  match p with
  | xH => "1"
  | xO p' => binaryDigits p' ++ "0"
  | xI p' => binaryDigits p' ++ "1"
  end.

Definition hexDigitsN (n : N) : string :=
  HexadecimalString.NilEmpty.string_of_uint (N.to_hex_uint n).

Definition digitsN (radix : N) (n : N) : string :=
  match n with
  | N0 => "0"
  | Npos p => if (radix =? 2)%N then binaryDigits p else hexDigitsN n
  end.

(** [x.toString(radix)] for radix 2 and 16.  Every call site passes an
    integer or [NaN]; the fractional digits of other numbers are not
    produced. *)
Definition toString (radix : N) (a : number) : string :=
  match a with
  | NaN => "NaN"
  | Num x =>
      let z := Qfloor x in
      if (z <? 0)%Z then "-" ++ digitsN radix (Z.to_N (- z))
      else digitsN radix (Z.to_N z)
  end.

(** Decimal rendering of a loop index inside a template literal. *)
Definition decimal (n : nat) : string :=
  DecimalString.NilEmpty.string_of_uint (Nat.to_uint n).

(** Value of a character as a digit, when it is one in some radix up
    to 36. *)
Definition digitValue (c : ascii) : option N :=
  let n := N_of_ascii c in
  if ((48 <=? n) && (n <=? 57))%N then Some (n - 48)%N
  else if ((97 <=? n) && (n <=? 122))%N then Some (n - 87)%N
  else if ((65 <=? n) && (n <=? 90))%N then Some (n - 55)%N
  else None.

Fixpoint parseDigits (radix : N) (s : string) (acc : option N) : option N :=
  match s with
  | EmptyString => acc
  | String c rest =>
      match digitValue c with
      | Some d =>
          if (d <? radix)%N
          then parseDigits radix rest
                 (Some (match acc with Some a => a * radix + d | None => d end)%N)
          else acc
      | None => acc
      end
  end.

(** [parseInt(s, radix)]: the longest prefix of digits of the radix,
    [NaN] when there is none.  Signs, white space and the [0x] prefix
    never occur in the strings the reader passes. *)
Definition parseInt (s : string) (radix : N) : number :=
  match parseDigits radix s None with
  | Some n => ofN n
  | None => NaN
  end.

(** *** Strings *)

Definition lowerChar (c : ascii) : ascii :=
  let n := N_of_ascii c in
  if ((65 <=? n) && (n <=? 90))%N then ascii_of_N (n + 32) else c.

Definition upperChar (c : ascii) : ascii :=
  let n := N_of_ascii c in
  if ((97 <=? n) && (n <=? 122))%N then ascii_of_N (n - 32) else c.

Fixpoint mapString (f : ascii -> ascii) (s : string) : string :=
  match s with
  | EmptyString => EmptyString
  | String c rest => String (f c) (mapString f rest)
  end.

(** lodash [toLower] and [toUpper], on the ASCII letters. *)
Definition toLower := mapString lowerChar.
Definition toUpper := mapString upperChar.

Fixpoint filterString (f : ascii -> bool) (s : string) : string :=
  match s with
  | EmptyString => EmptyString
  | String c rest =>
      if f c then String c (filterString f rest) else filterString f rest
  end.

Fixpoint repeatChar (c : ascii) (n : nat) : string :=
  match n with
  | O => EmptyString
  | S n' => String c (repeatChar c n')
  end.

(** lodash [padStart(s, n, '0')]. *)
Definition padStart (s : string) (n : nat) (c : ascii) : string :=
  repeatChar c (n - String.length s) ++ s.

(** [s.slice(-n)] and lodash [takeRight] joined back: the last [n]
    characters. *)
Definition takeRight (s : string) (n : nat) : string :=
  string_of_list_ascii
    (skipn (String.length s - n) (list_ascii_of_string s)).

Fixpoint concatStrings (l : list string) : string :=
  match l with
  | [] => EmptyString
  | s :: rest => s ++ concatStrings rest
  end.

Fixpoint chunkFuel (fuel size : nat) (l : list ascii) : list string :=
  match fuel with
  | O => []
  | S fuel' =>
      match l with
      | [] => []
      | _ => string_of_list_ascii (firstn size l)
             :: chunkFuel fuel' size (skipn size l)
      end
  end.

(** lodash [chunk(s, size)] with every chunk joined back into a
    string; a size below 1 gives no chunk at all. *)
Definition chunk (s : string) (size : nat) : list string :=
  match size with
  | O => []
  | _ => chunkFuel (String.length s) size (list_ascii_of_string s)
  end.

(** lodash [inRange(n, start, end)]: [start <= n < end]. *)
Definition inRange (n start stop : N) : bool :=
  ((start <=? n) && (n <? stop))%N.

(** [String.fromCharCode] over a byte array, joined. *)
Definition arrayToText (a : Uint8Array) : string :=
  string_of_list_ascii (map ascii_of_byte a).

(** lodash [max] and [min] of an array of numbers: [NaN] entries are
    skipped, and an array without a comparable entry gives
    [undefined], which behaves as [NaN] in the arithmetic and in the
    enclosing [min]/[max] that follow. *)
Definition extremum (better : number -> number -> bool) (l : list number)
  : number :=
  fold_left
    (fun computed current =>
       match computed with
       | NaN => current
       | Num _ => if better current computed then current else computed
       end)
    l NaN.

Definition max := extremum gt.
Definition min := extremum lt.

End JS.

(** ** Effects: the error log and thrown exceptions *)

Inductive exn :=
| TypeError   (* a property read or a destructuring of [undefined] *)
| Error.      (* the bare [throw Error()] of [getTagInfo] *)

(** One [console.error] record. *)
Inductive message :=
| MISSING_DICOM_FILE_META_INFORMATION_HEADER
| Text (s : string).

Definition log := list message.

Inductive outcome (A : Type) :=
| Return (a : A)
| Throw (e : exn)
| OutOfFuel.

Arguments Return {A} a.
Arguments Throw {A} e.
Arguments OutOfFuel {A}.

(** A computation reads the log written so far and gives back its
    outcome with the extended log. *)
Definition M (A : Type) := log -> outcome A * log.

Definition ret {A} (a : A) : M A := fun l => (Return a, l).

Definition throw {A} (e : exn) : M A := fun l => (Throw e, l).

Definition outOfFuel {A} : M A := fun l => (OutOfFuel, l).

Definition bind {A B} (m : M A) (k : A -> M B) : M B :=
  fun l =>
    match m l with
    | (Return a, l') => k a l'
    | (Throw e, l') => (Throw e, l')
    | (OutOfFuel, l') => (OutOfFuel, l')
    end.

Definition consoleError (m : message) : M unit :=
  fun l => (Return tt, l ++ [m]).

Notation "x <- m ;; k" := (bind m (fun x => k))
  (at level 61, m at next level, right associativity).
Notation "' pat <- m ;; k" := (bind m (fun x => match x with pat => k end))
  (at level 61, pat pattern, m at next level, right associativity).
Notation "m ;;; k" := (bind m (fun _ => k))
  (at level 61, right associativity).

(** ** The bufferpack library *)

Module Bufferpack.

Inductive token :=
| H            (* unsigned 16-bit integer *)
| L            (* unsigned 32-bit integer *)
| s (n : nat). (* n-byte string *)

(** A format string: the endianness character, then the tokens. *)
Record pattern := { littleEndian : bool; tokens : list token }.

Inductive field :=
| Int (n : N)
| Str (text : string).

Definition size (t : token) : nat :=
  match t with
  | H => 2
  | L => 4
  | s n => n
  end.

(** Big-endian value of a run of bytes. *)
Definition bigEndian (a : JS.Uint8Array) : N :=
  fold_left (fun acc b => (acc * 256 + Byte.to_N b)%N) a 0%N.

Definition decodeInt (le : bool) (a : JS.Uint8Array) : N :=
  bigEndian (if le then rev a else a).

Definition decode (le : bool) (t : token) (a : JS.Uint8Array) : field :=
  match t with
  | s _ => Str (JS.arrayToText a)
  | _ => Int (decodeInt le a)
  end.

Fixpoint unpackTokens (le : bool) (ts : list token) (a : JS.Uint8Array)
  : option (list field) :=
  match ts with
  | [] => Some []
  | t :: rest =>
      if List.length a <? size t then None
      else
        match unpackTokens le rest (skipn (size t) a) with
        | Some fs => Some (decode le t (firstn (size t) a) :: fs)
        | None => None
        end
  end.

(** [Bufferpack.unpack(fmt, a)]: the decoded fields, or [undefined]
    ([None]) when the buffer is shorter than the format. *)
Definition unpack (p : pattern) (a : JS.Uint8Array) : option (list field) :=
  unpackTokens (littleEndian p) (tokens p) a.

End Bufferpack.

(** ** Data model *)

(** The element payload after conversion ([value: any] in the source). *)
Inductive jsvalue :=
| VNumber (x : JS.number)
| VString (text : string)
| VArray (xs : list JS.number)
| VBytes (raw : JS.Uint8Array).

(** A dictionary row: [(VR, VM, Name, Retired, Keyword)], indexed in
    the source through [DicomDictionaryEntriesEnum]. *)
Record DictionaryEntry := {
  entryVR : string;
  entryVM : string;
  entryName : string;
  entryRetired : string;
  entryKeyword : string
}.

Record ITagInfo := {
  infoRawValue : JS.Uint8Array;
  infoLength : N;
  infoVR : string
}.

(** [ITagValues]: what [readDataset] hands to [createTag].  The header
    VR is [null] ([None]) in implicit mode. *)
Record ITagValues := {
  valuesVR : option string;
  valuesLength : N;
  valuesRawValue : JS.Uint8Array;
  valuesValue : jsvalue
}.

Record Representations := {
  group : N;
  element : N;
  hexGroup : string;
  hexElement : string;
  tuple : list string;
  string_ : string;
  repName : string
}.

Record ITag (T : Type) := {
  VR : string;
  length_ : N;
  rawValue : JS.Uint8Array;
  value : T;
  representations : Representations;
  representation : string;
  name : string;
  VM : string;
  keyword : string;
  retired : string
}.

Arguments VR {T} _.
Arguments length_ {T} _.
Arguments rawValue {T} _.
Arguments value {T} _.
Arguments representations {T} _.
Arguments representation {T} _.
Arguments name {T} _.
Arguments VM {T} _.
Arguments keyword {T} _.
Arguments retired {T} _.

(** A JavaScript object used as an ordered map with string keys: own
    keys keep their insertion order (no key of a dataset is an array
    index). *)
Definition Record_ (A : Type) := list (string * A).

Definition Dataset := Record_ (ITag jsvalue).

(** The object that [readFile] returns: the elements under their
    keys, and the two flags.  In the object the flags are entries
    like the others, behind the elements; [membersOf] lists them as
    lodash [find] walks them. *)
Record FullDataset := {
  entries : Dataset;
  isLittleEndian : bool;
  isImplicitVR : bool
}.

Definition StopWhenFunction := N -> option string -> N -> bool.

(** *** Objects *)

Section Objects.

Context {A : Type}.

(** [object[key]], also lodash [get(object, key)] for a key without
    path syntax. *)
Fixpoint get (object : Record_ A) (key : string) : option A :=
  match object with
  | [] => None
  | (k, v) :: rest => if String.eqb k key then Some v else get rest key
  end.

(** lodash [has(object, key)] as an own-key test.  That is what lodash
    answers for a key without path syntax (no dot, no bracket) and
    for a key that the object holds.  Another key is looked up along
    the path it spells, which is not modelled; in a dataset such a
    lookup fails as the own-key test does, since an element has no
    property whose name ends in a dash and a number. *)
Definition has (object : Record_ A) (key : string) : bool :=
  match get object key with
  | Some _ => true
  | None => false
  end.

(** [object[key] = v]: an existing key keeps its place, a new key goes
    last. *)
Fixpoint set (object : Record_ A) (key : string) (v : A) : Record_ A :=
  match object with
  | [] => [(key, v)]
  | (k, w) :: rest =>
      if String.eqb k key then (k, v) :: rest else (k, w) :: set rest key v
  end.

(** [{...a, ...b}]. *)
Definition spread (a b : Record_ A) : Record_ A :=
  fold_left (fun acc kv => set acc (fst kv) (snd kv)) b a.

Definition keys (object : Record_ A) : list string := map fst object.

Definition values (object : Record_ A) : list A := map snd object.

End Objects.

(** ** Constants and helpers imported from [../constants] and [./helpers] *)

(** Modelled from the spec: [Constants.DICOM_MAGIC_PREFIX]
    ([src/constants] is not among the sources); section 4.7 gives its
    value. *)
Definition DICOM_MAGIC_PREFIX : string := "DICM".

(** Modelled from the spec: [ExtraLengthVRs], the set [OB OW OF SQ UT UN]
    of section 3. *)
Definition ExtraLengthVRs : list string := ["OB"; "OW"; "OF"; "SQ"; "UT"; "UN"].

(** Modelled from the spec: [KnownUIDs], the table of section 4.6. *)
Module KnownUIDs.
Definition ImplicitVRLittleEndian : string := "1.2.840.10008.1.2".
Definition ExplicitVRLittleEndian : string := "1.2.840.10008.1.2.1".
Definition ExplicitVRBigEndian : string := "1.2.840.10008.1.2.2".
Definition DeflatedExplicitVRLittleEndian : string := "1.2.840.10008.1.2.1.99".
End KnownUIDs.

(** Modelled from the spec: [getEndianPattern] of [./helpers]; section
    4.1 lists the header patterns [{endian}HHL] and [{endian}HH2sH]. *)
Definition getEndianPattern (isLittleEndian isImplicitVR : bool)
  : Bufferpack.pattern :=
  {| Bufferpack.littleEndian := isLittleEndian;
     Bufferpack.tokens :=
       if isImplicitVR
       then [Bufferpack.H; Bufferpack.H; Bufferpack.L]
       else [Bufferpack.H; Bufferpack.H; Bufferpack.s 2; Bufferpack.H] |}.

(** The template [`${getEndianCharacter(isLittleEndian)}L`]. *)
Definition extraLengthPattern (isLittleEndian : bool) : Bufferpack.pattern :=
  {| Bufferpack.littleEndian := isLittleEndian;
     Bufferpack.tokens := [Bufferpack.L] |}.

(** [parseInt('0xFFFFFFFF', 16)]. *)
Definition UNDEFINED_LENGTH : N := 0xFFFFFFFF.

(** ** [Uint8Helpers] *)

Module Uint8Helpers.

Fixpoint takeN (range : N) (a : JS.Uint8Array) : JS.Uint8Array :=
  match a with
  | [] => []
  | b :: rest => if (range =? 0)%N then [] else b :: takeN (N.pred range) rest
  end.

Fixpoint dropN (start : N) (a : JS.Uint8Array) : JS.Uint8Array :=
  match a with
  | [] => []
  | b :: rest => if (start =? 0)%N then a else dropN (N.pred start) rest
  end.

Definition splitArray (array : JS.Uint8Array) (firstArrayElements : N)
  : JS.Uint8Array * JS.Uint8Array :=
  (takeN firstArrayElements array, dropN firstArrayElements array).

(** [array.slice(start, start + range)]. *)
Definition getArrayRange (array : JS.Uint8Array) (start range : N)
  : JS.Uint8Array :=
  takeN range (dropN start array).

Definition arrayToText := JS.arrayToText.

Definition size (a : JS.Uint8Array) : N := N.of_nat (List.length a).

End Uint8Helpers.

Import Uint8Helpers.

(** Truthiness of a header VR: [null] and the empty string are falsy. *)
Definition truthyVR (VR : option string) : bool :=
  match VR with
  | Some v => negb (String.eqb v "")
  | None => false
  end.

Definition castTag {A B : Type} (f : A -> B) (t : ITag A) : ITag B :=
  {| VR := VR t; length_ := length_ t; rawValue := rawValue t;
     value := f (value t); representations := representations t;
     representation := representation t; name := name t; VM := VM t;
     keyword := keyword t; retired := retired t |}.

(** The pixel pipeline types the elements it reads as [ITag<number>]:
    a numeric payload is read as it is.  Any other shape is read as
    [NaN], where JavaScript would coerce it (the string '8' divides
    as 8, an array is truthy): what is stated about pixel values
    assumes numeric payloads. *)
Definition asNumber (v : jsvalue) : JS.number :=
  match v with
  | VNumber x => x
  | _ => JS.NaN
  end.

(** How a caller names a tag: a string, or an array of numbers and
    strings. *)
Inductive idPart :=
| IdNumber (n : N)
| IdString (text : string).

Inductive TagIdentifier :=
| ByString (text : string)
| ByArray (parts : list idPart).

(** ** The reader *)

(** The tag dictionary and the converter live in modules that are not
    among the sources ([../constants], [./converter]); the reader is
    embedded over any such table and any converter that returns
    without throwing or logging. *)
Class Environment := {
  DicomDictionary : string -> option DictionaryEntry;
  GroupLengthEntry : DictionaryEntry;
  convertValue : string -> ITagInfo -> bool -> jsvalue;
  (** whether [converters[VR]] is defined *)
  converters : string -> bool
}.

Section Reader.

Context {environment : Environment}.

Definition readPreamble (bytes : JS.Uint8Array) : M (JS.Uint8Array * N) :=
  let fileMetaInformationHeader := fst (splitArray bytes 132) in
  let '(preamble, magic) := splitArray fileMetaInformationHeader 128 in
  let magicAsText := arrayToText magic in
  if negb (String.eqb magicAsText DICOM_MAGIC_PREFIX) then
    consoleError MISSING_DICOM_FILE_META_INFORMATION_HEADER ;;;
    ret ([], 0%N)
  else ret (preamble, 132%N).

Definition getHexRepresentation (group element : N) : string * string :=
  (JS.takeRight ("0000" ++ JS.toString 16 (JS.ofN group)) 4,
   JS.takeRight ("0000" ++ JS.toString 16 (JS.ofN element)) 4).

Definition getTagName (dicomDictionaryEntry : option DictionaryEntry)
  (isPrivateTag : bool) : string :=
  if isPrivateTag then "PrivateTag"
  else
    match dicomDictionaryEntry with
    | None => "Unknown"
    | Some entry => entryName entry
    end.

(** lodash [get(entry, index, 'Unknown')]. *)
Definition getOr (dicomDictionaryEntry : option DictionaryEntry)
  (field : DictionaryEntry -> string) : string :=
  match dicomDictionaryEntry with
  | None => "Unknown"
  | Some entry => field entry
  end.

Definition createTag (group element : N) (values : ITagValues)
  : M (ITag jsvalue) :=
  let isPrivateTag := negb (group mod 2 =? 0)%N in
  let '(hexGroup, hexElement) := getHexRepresentation group element in
  let stringRepresentation := (hexGroup ++ hexElement)%string in
  let dicomDictionaryEntry :=
    if String.eqb hexElement "0000" then Some GroupLengthEntry
    else DicomDictionary stringRepresentation in
  let representations :=
    {| group := group; element := element;
       hexGroup := hexGroup; hexElement := hexElement;
       tuple := [hexGroup; hexElement];
       string_ := stringRepresentation;
       repName := getTagName dicomDictionaryEntry isPrivateTag |} in
  if isPrivateTag then
    ret {| VR := "Unknown-PrivateTag";
           length_ := valuesLength values;
           rawValue := valuesRawValue values;
           value := valuesValue values;
           representations := representations;
           representation := stringRepresentation;
           name := "Unknown-PrivateTag";
           VM := "Unknown-PrivateTag";
           keyword := "Unknown-PrivateTag";
           retired := "Unknown-PrivateTag" |}
  else
    (* values.VR || dicomDictionaryEntry[DicomDictionaryEntriesEnum.VR] *)
    vr <- (if truthyVR (valuesVR values)
           then ret (match valuesVR values with Some v => v | None => "" end)
           else match dicomDictionaryEntry with
                | Some entry => ret (entryVR entry)
                | None => throw TypeError
                end) ;;
    ret {| VR := vr;
           length_ := valuesLength values;
           rawValue := valuesRawValue values;
           value := valuesValue values;
           representations := representations;
           representation := stringRepresentation;
           name := getTagName dicomDictionaryEntry false;
           VM := getOr dicomDictionaryEntry entryVM;
           keyword := getOr dicomDictionaryEntry entryKeyword;
           retired := getOr dicomDictionaryEntry entryRetired |}.

Definition getTagInfo (rawValue : JS.Uint8Array) (length : N)
  (group element : N) (VR : option string) : M ITagInfo :=
  if ((group =? 0)%N && (element =? 0)%N && negb (truthyVR VR))%bool then
    throw Error
  else if truthyVR VR then
    ret {| infoRawValue := rawValue; infoLength := length;
           infoVR := match VR with Some v => v | None => "" end |}
  else
    let '(hexGroup, hexElement) := getHexRepresentation group element in
    let dicomDictionaryEntry := DicomDictionary (hexGroup ++ hexElement)%string in
    let guessVR :=
      if String.eqb hexElement "0000" then entryVR GroupLengthEntry
      else match dicomDictionaryEntry with
           | Some entry => entryVR entry
           | None => ""
           end in
    ret {| infoRawValue := rawValue; infoLength := length; infoVR := guessVR |}.

(** [inRange(char.charCodeAt(0), 'A'.charCodeAt(0), 'Z'.charCodeAt(0))]. *)
Definition isUppercaseLetter (char : ascii) : bool :=
  JS.inRange (N_of_ascii char) (N_of_ascii "A") (N_of_ascii "Z").

(** The header of one element:
    [[group, elem, VR, length, cursorChange]].  Destructuring
    [undefined] throws; the patterns of [getEndianPattern] always give
    the field shapes matched here, any other shape is read as a
    [TypeError] too. *)
Definition unpack (data tagData : JS.Uint8Array)
  (elementPattern : Bufferpack.pattern) (isImplicitVR isLittleEndian : bool)
  (cursor : N) : M (N * N * option string * N * N) :=
  let defaultTagLength := 8%N in
  if isImplicitVR then
    match Bufferpack.unpack elementPattern tagData with
    | Some (Bufferpack.Int group :: Bufferpack.Int elem
              :: Bufferpack.Int length :: _) =>
        ret (group, elem, None, length, defaultTagLength)
    | _ => throw TypeError
    end
  else
    match Bufferpack.unpack elementPattern tagData with
    | Some (Bufferpack.Int group :: Bufferpack.Int elem
              :: Bufferpack.Str (String c0 (String c1 _) as VR)
              :: Bufferpack.Int length :: _) =>
        if negb (isUppercaseLetter c0 && isUppercaseLetter c1) then
          let implicitVRElementPattern := getEndianPattern isLittleEndian true in
          match Bufferpack.unpack implicitVRElementPattern tagData with
          | Some (Bufferpack.Int group :: Bufferpack.Int elem
                    :: Bufferpack.Int length :: _) =>
              ret (group, elem, None, length, defaultTagLength)
          | _ => throw TypeError
          end
        else if existsb (String.eqb VR) ExtraLengthVRs then
          let extraLength := 4%N in
          let extraLengthInfo :=
            getArrayRange data (cursor + defaultTagLength) extraLength in
          match Bufferpack.unpack (extraLengthPattern isLittleEndian)
                  extraLengthInfo with
          | Some (Bufferpack.Int trueLength :: _) =>
              ret (group, elem, Some VR, trueLength,
                   (defaultTagLength + extraLength)%N)
          | _ => throw TypeError
          end
        else ret (group, elem, Some VR, length, defaultTagLength)
    | _ => throw TypeError
    end.

(** The [while] loop of [getSafeKey], from a given index. *)
Fixpoint getSafeKeyFrom {A : Type} (fuel : nat) (object : Record_ A)
  (key : string) (index : nat) : option string :=
  match fuel with
  | O => None
  | S fuel' =>
      if has object (if index =? 0 then key
                     else (key ++ "-" ++ JS.decimal index)%string)
      then getSafeKeyFrom fuel' object key (S index)
      else Some (key ++ "-" ++ JS.decimal index)%string
  end.

(** [has] tests an own key: see [has] for the keys that lodash reads
    as paths. *)
Definition getSafeKey {A : Type} (object : Record_ A) (key : string)
  : M string :=
  match getSafeKeyFrom (S (List.length object)) object key 1 with
  | Some k => ret k
  | None => outOfFuel
  end.

Definition _isImplicitVr (bytes : JS.Uint8Array) (cursor : N)
  (isImplicitVRAssumed isLittleEndian isSequence : bool)
  (stopWhen : option StopWhenFunction) : M bool :=
  if (isSequence && isImplicitVRAssumed)%bool then ret true
  else
    let data := getArrayRange bytes cursor 6 in
    let '(tagBytes, rawVR) := splitArray data 4 in
    match rawVR with
    | vr0 :: vr1 :: _ =>
        let foundImplicit :=
          negb (JS.inRange (Byte.to_N vr0) 0x40 0x5b
                && JS.inRange (Byte.to_N vr1) 0x40 0x5b) in
        if negb (Bool.eqb foundImplicit isImplicitVRAssumed) then
          match Bufferpack.unpack
                  {| Bufferpack.littleEndian := isLittleEndian;
                     Bufferpack.tokens := [Bufferpack.H; Bufferpack.H] |}
                  tagBytes with
          | Some (Bufferpack.Int tag0 :: _) =>
              let vr := arrayToText rawVR in
              if (match stopWhen with
                  | Some f => f tag0 (Some vr) 0%N
                  | None => false
                  end)
              then ret foundImplicit
              else if (foundImplicit && isSequence)%bool then ret true
              else ret foundImplicit
          | _ => throw TypeError
          end
        else ret foundImplicit
    | _ => ret isImplicitVRAssumed
    end.

(** [VR !== 'NONE'] on a header VR. *)
Definition notNONE (VR : option string) : bool :=
  match VR with
  | Some v => negb (String.eqb v "NONE")
  | None => true
  end.

(** The [while (true)] loop of [readDataset]; the state is the dataset
    built so far and [cursorPositionChange]. *)
Fixpoint readElements (fuel : nat) (data : JS.Uint8Array)
  (elementPattern : Bufferpack.pattern) (isImplicitVR isLittleEndian : bool)
  (stopWhen : option StopWhenFunction)
  (dataset : Dataset) (cursorPositionChange : N) : M (Dataset * N) :=
  match fuel with
  | O => outOfFuel
  | S fuel' =>
      let continue := readElements fuel' data elementPattern isImplicitVR
                        isLittleEndian stopWhen in
      let tagLength := 8%N in
      let tagData := getArrayRange data cursorPositionChange tagLength in
      if negb (size tagData =? 8)%N then ret (dataset, cursorPositionChange)
      else
        '(group, elem, VR, length, cursorChange) <-
          unpack data tagData elementPattern isImplicitVR isLittleEndian
            cursorPositionChange ;;
        if (match stopWhen with
            | Some f => f group VR length
            | None => false
            end)
        then ret (dataset, cursorPositionChange)
        else
          let cursorPositionChange := (cursorPositionChange + cursorChange)%N in
          if negb (length =? UNDEFINED_LENGTH)%N then
            if (0 <? length)%N then
              let value := getArrayRange data cursorPositionChange length in
              let cursorPositionChange := (cursorPositionChange + length)%N in
              if notNONE VR then
                tagInfo <- getTagInfo value length group elem VR ;;
                tag <- createTag group elem
                         {| valuesVR := VR;
                            valuesLength := length;
                            valuesRawValue := value;
                            valuesValue :=
                              convertValue
                                (if truthyVR VR
                                 then match VR with Some v => v | None => "" end
                                 else infoVR tagInfo)
                                tagInfo isLittleEndian |} ;;
                key <- getSafeKey dataset (keyword tag) ;;
                continue (set dataset key tag) cursorPositionChange
              else continue dataset cursorPositionChange
            else continue dataset cursorPositionChange
          else
            let newVR :=
              match VR with
              | Some v => if String.eqb v "UN" then Some "SQ" else VR
              | None => VR
              end in
            (match newVR with
             | None => consoleError (Text "Unhandled null VR, filereader.py:247")
             | Some _ => ret tt
             end) ;;;
            (if (match newVR with
                 | Some v => String.eqb v "SQ"
                 | None => false
                 end)
             then consoleError (Text "Unhandled SQ, filereader.py:259")
             else consoleError
                    (Text "Unhandled undefined length value, filereader.py:274")) ;;;
            continue dataset cursorPositionChange
  end.

Definition readDataset (bytes : JS.Uint8Array) (cursor : N)
  (isImplicitVRAssumed isLittleEndian : bool)
  (stopWhen : option StopWhenFunction) : M (Dataset * N) :=
  let data := snd (splitArray bytes cursor) in
  isImplicitVR <- _isImplicitVr bytes cursor isImplicitVRAssumed
                    isLittleEndian true stopWhen ;;
  let elementPattern := getEndianPattern isLittleEndian isImplicitVR in
  '(dataset, cursorPositionChange) <-
    readElements (S (List.length data)) data elementPattern isImplicitVR
      isLittleEndian stopWhen [] 0%N ;;
  ret (dataset, (cursor + cursorPositionChange)%N).

Definition _notGroup0000 : StopWhenFunction :=
  fun group _ _ => negb (group =? 0)%N.

Definition _notGroup0002 : StopWhenFunction :=
  fun group _ _ => negb (group =? 2)%N.

Definition readFileMetaInfo (bytes : JS.Uint8Array) (cursor : N) :=
  readDataset bytes cursor false true (Some _notGroup0002).

Definition readCommandSetElements (bytes : JS.Uint8Array) (cursor : N) :=
  readDataset bytes cursor false true (Some _notGroup0000).

Definition readOrGuessIsImplicitVrAndIsLittleEndian (bytes : JS.Uint8Array)
  (cursor : N) (transferSyntax : option (ITag jsvalue)) : M (bool * bool) :=
  (* getReturnObject() with no argument is (true, true) *)
  let peek := getArrayRange bytes cursor 1 in
  if (size peek =? 0)%N then ret (true, true)
  else
    match transferSyntax with
    | None =>
        let data := getArrayRange bytes cursor 6 in
        match Bufferpack.unpack
                {| Bufferpack.littleEndian := true;
                   Bufferpack.tokens :=
                     [Bufferpack.H; Bufferpack.H; Bufferpack.s 2] |}
                data with
        | Some (Bufferpack.Int group :: _ :: Bufferpack.Str VR :: _) =>
            if converters VR then
              if (1024 <=? group)%N then ret (false, false)
              else ret (false, true)
            else ret (true, true)
        | _ => throw TypeError
        end
    | Some transferSyntax =>
        match value transferSyntax with
        | VString uid =>
            if String.eqb uid KnownUIDs.ImplicitVRLittleEndian then
              ret (true, true)
            else if String.eqb uid KnownUIDs.ExplicitVRLittleEndian then
              ret (false, true)
            else if String.eqb uid KnownUIDs.ExplicitVRBigEndian then
              ret (false, false)
            else if String.eqb uid KnownUIDs.DeflatedExplicitVRLittleEndian then
              consoleError (Text "deflating zipped files not implemented yet") ;;;
              ret (true, true)
            else ret (false, true)
        | _ => ret (false, true)
        end
    end.

(** The body of [readFile] after the call of [readPreamble]. *)
Definition readFileAfterPreamble (bytes : JS.Uint8Array)
  (cursorAfterPreamble : N) : M FullDataset :=
  '(fileMetaInfo, cursorAfterFileMeta) <-
    readFileMetaInfo bytes cursorAfterPreamble ;;
  '(commandSetElements, datasetStart) <-
    readCommandSetElements bytes cursorAfterFileMeta ;;
  let transferSyntax := get fileMetaInfo "00020010" in (* TransferSyntaxUID *)
  '(isImplicitVR, isLittleEndian) <-
    readOrGuessIsImplicitVrAndIsLittleEndian bytes datasetStart transferSyntax ;;
  '(dataset, _) <-
    readDataset bytes datasetStart isImplicitVR isLittleEndian None ;;
  ret {| entries := spread (spread dataset fileMetaInfo) commandSetElements;
         isLittleEndian := isLittleEndian;
         isImplicitVR := isImplicitVR |}.

(** [readFile], from the bytes of the file; a rejected promise is a
    thrown exception. *)
Definition readFile (bytes : JS.Uint8Array) : M FullDataset :=
  '(_, cursorAfterPreamble) <- readPreamble bytes ;;
  readFileAfterPreamble bytes cursorAfterPreamble.

(** ** Tag lookup *)

(** The characters that [/(\(|,|\s)/g] removes. *)
Definition isStripped (c : ascii) : bool :=
  let n := N_of_ascii c in
  ((n =? 40) || (n =? 44) || (n =? 32) || ((9 <=? n) && (n <=? 13))
   || (n =? 160))%N.

Definition idPartEqb (a b : idPart) : bool :=
  match a, b with
  | IdNumber x, IdNumber y => (x =? y)%N
  | IdString x, IdString y => String.eqb x y
  | _, _ => false
  end.

Fixpoint listEqb {A : Type} (eqb : A -> A -> bool) (a b : list A) : bool :=
  match a, b with
  | [], [] => true
  | x :: a', y :: b' => (eqb x y && listEqb eqb a' b')%bool
  | _, _ => false
  end.

(** lodash [toLower] of an array entry: a number is rendered first. *)
Definition toLowerPart (p : idPart) : string :=
  match p with
  | IdNumber n => JS.decimal (N.to_nat n)
  | IdString text => JS.toLower text
  end.

Definition getMatchedTag (id : TagIdentifier) (tag : ITag jsvalue)
  : bool :=
  match id with
  | ByArray parts =>
      match parts with
      | IdNumber _ :: _ =>
          listEqb idPartEqb
            [IdNumber (group (representations tag));
             IdNumber (element (representations tag))]
            parts
      | IdString _ :: _ =>
          listEqb String.eqb
            (map JS.toLower (tuple (representations tag)))
            (map toLowerPart parts)
      | [] => false
      end
  | ByString text =>
      if (String.eqb (JS.toLower (name tag)) (JS.toLower text)
          || String.eqb (JS.toLower (keyword tag)) (JS.toLower text))%bool
      then true
      else
        let transformedRepresentation :=
          JS.filterString (fun c => negb (isStripped c)) (JS.toLower text) in
        String.eqb (JS.toLower (representation tag)) transformedRepresentation
  end.

Definition getTagValue (dataset : Dataset) (id : TagIdentifier)
  : M (option (ITag jsvalue)) :=
  match id with
  | ByArray parts =>
      if negb (List.length parts =? 2) then
        consoleError
          (Text "Wrong tag identifier supplied. If passed as a tuple it must have 2 elements") ;;;
        ret None
      else ret (find (getMatchedTag id) (values dataset))
  | ByString _ => ret (find (getMatchedTag id) (values dataset))
  end.

(** [`${tag.keyword[0].toLowerCase()}${tag.keyword.slice(1)}`]; the
    first character of an empty keyword is [undefined]. *)
Definition lowerFirst (keyword : string) : M string :=
  match keyword with
  | EmptyString => throw TypeError
  | String c rest => ret (String (JS.lowerChar c) rest)
  end.

Fixpoint getTagsGroupReduce (tags : list (ITag jsvalue)) (acc : Dataset)
  : M Dataset :=
  match tags with
  | [] => ret acc
  | tag :: rest =>
      tagName <- lowerFirst (keyword tag) ;;
      getTagsGroupReduce rest (set acc tagName tag)
  end.

Definition getTagsGroup (dataset : Dataset) (group : string) : M Dataset :=
  getTagsGroupReduce
    (filter (fun tag => String.eqb (hexGroup (representations tag)) group)
       (values dataset))
    [].

(** ** The pixel pipeline *)

Definition littleEndianToBigEndian (hex : string) : string :=
  if 2 <? String.length hex
  then JS.concatStrings (rev (JS.chunk hex 2))
  else hex.

Definition startsWith1 (bits : string) : bool :=
  match bits with
  | String c _ => Ascii.eqb c "1"
  | EmptyString => false
  end.

Definition pixelDataToSignedInt (data : list string) : list JS.number :=
  map
    (fun num =>
       let bits := JS.toString 2 (JS.parseInt num 16) in
       if (startsWith1 bits && (String.length bits =? 16))%bool then
         let numberAfterXor :=
           JS.parseInt
             (JS.mapString (fun b => if Ascii.eqb b "0" then "1" else "0")%char
                bits)
             2 in
         let value := JS.sub (JS.ofZ 0) (JS.add numberAfterXor (JS.ofZ 1)) in
         if JS.strictEq value (JS.ofZ 0) then JS.ofZ (-32768) else value
       else JS.parseInt bits 2)
    data.

Definition numberToHex (i : byte) : string :=
  JS.takeRight ("0" ++ JS.toString 16 (JS.ofN (Byte.to_N i))) 2.

Definition adjustToWindow (pixelData : list JS.number)
  (windowCenter windowWidth : option (ITag JS.number)) : list JS.number :=
  let safeWindowCenter :=
    match windowCenter with
    | Some t => if JS.truthy (value t) then value t else JS.ofZ 610
    | None => JS.ofZ 610
    end in
  let safeWindowWidth :=
    match windowWidth with
    | Some t => if JS.truthy (value t) then value t else JS.ofZ 1221
    | None => JS.ofZ 1221
    end in
  let minPixelValue :=
    JS.sub safeWindowCenter (JS.div safeWindowWidth (JS.ofZ 2)) in
  let maxPixelValue :=
    JS.add safeWindowCenter (JS.div safeWindowWidth (JS.ofZ 2)) in
  let scalingFactor :=
    JS.div (JS.ofZ 255) (JS.add (JS.abs minPixelValue) (JS.abs maxPixelValue)) in
  map
    (fun value =>
       let valueInRange :=
         JS.min [JS.max [value; minPixelValue]; maxPixelValue] in
       let positiveValue :=
         if JS.lt minPixelValue (JS.ofZ 0)
         then JS.add valueInRange (JS.abs minPixelValue)
         else valueInRange in
       JS.floor (JS.mul positiveValue scalingFactor))
    pixelData.

(** Reading [.value] of a destructured group entry; the entry is
    [undefined] when the dataset has no such element. *)
Definition valueOf (tag : option (ITag jsvalue)) : M jsvalue :=
  match tag with
  | Some t => ret (value t)
  | None => throw TypeError
  end.

Definition getPixelData (dataset : Dataset) : M (option (list string)) :=
  group0028 <- getTagsGroup dataset "0028" ;;
  let bitsAllocated := get group0028 "bitsAllocated" in
  let bitsStored := get group0028 "bitsStored" in
  let highBit := get group0028 "highBit" in
  let photometricInterpretation := get group0028 "photometricInterpretation" in
  let pixelRepresentation := get group0028 "pixelRepresentation" in
  let rescaleIntercept := get group0028 "rescaleIntercept" in
  let rescaleSlope := get group0028 "rescaleSlope" in
  let windowCenter := get group0028 "windowCenter" in
  let windowWidth := get group0028 "windowWidth" in
  pixelData <- getTagValue dataset (ByString "Pixel Data") ;;
  match pixelData with
  | None => ret None
  | Some pixelData =>
      bitsAllocatedValue <- valueOf bitsAllocated ;;
      let hexAllocated :=
        JS.mul (JS.ceil (JS.div (asNumber bitsAllocatedValue) (JS.ofZ 8)))
          (JS.ofZ 2) in
      let pixelDataHexString :=
        JS.chunk
          (fold_left (fun acc i => (acc ++ numberToHex i)%string)
             (rawValue pixelData) "")
          (JS.toLength hexAllocated) in
      highBitValue <- valueOf highBit ;;
      bitsStoredValue <- valueOf bitsStored ;;
      let pixelDataBigEndian :=
        if JS.strictEq (JS.add (asNumber highBitValue) (JS.ofZ 1))
             (asNumber bitsStoredValue)
        then map littleEndianToBigEndian pixelDataHexString
        else pixelDataHexString in
      let rescaleSlopeValue :=
        match rescaleSlope with
        | Some t => asNumber (value t)
        | None => JS.ofZ 1
        end in
      let rescaleInterceptValue :=
        match rescaleIntercept with
        | Some t => asNumber (value t)
        | None => JS.ofZ 0
        end in
      pixelRepresentationValue <- valueOf pixelRepresentation ;;
      let pixelDataSignedScaled :=
        map (fun num => JS.add (JS.mul rescaleSlopeValue num) rescaleInterceptValue)
          (if JS.strictEq (asNumber pixelRepresentationValue) (JS.ofZ 0)
           then map (fun hex => JS.parseInt hex 16) pixelDataBigEndian
           else pixelDataToSignedInt pixelDataBigEndian) in
      let pixelDataWindowAdjusted :=
        adjustToWindow pixelDataSignedScaled
          (option_map (castTag asNumber) windowCenter)
          (option_map (castTag asNumber) windowWidth) in
      let pixelDataInterpreted :=
        if (match photometricInterpretation with
            | Some t =>
                match value t with
                | VString text => String.eqb text "MONOCHROME1"
                | _ => false
                end
            | None => false
            end)
        then map (fun i => JS.sub (JS.ofZ 255) i) pixelDataWindowAdjusted
        else pixelDataWindowAdjusted in
      let hexStringArrayPixelData :=
        map
          (fun x =>
             let value := JS.padStart (JS.toUpper (JS.toString 16 x)) 2 "0" in
             ("#" ++ value ++ value ++ value)%string)
          pixelDataInterpreted in
      ret (Some hexStringArrayPixelData)
  end.

End Reader.

(** ** A dictionary and a converter for the worked examples *)

Module SpecModel.

Definition row (VR VM name retired keyword : string) : DictionaryEntry :=
  {| entryVR := VR; entryVM := VM; entryName := name;
     entryRetired := retired; entryKeyword := keyword |}.

(** Modelled from the spec: the rows of [DicomDictionary]
    ([src/constants] is not among the sources) for the tags that
    sections 4.8 and 8 name, keyed by the lowercase 8-digit tag string
    of section 4.2. *)
Definition rows : Record_ DictionaryEntry :=
  [ ("00020010", row "UI" "1" "Transfer Syntax UID" "" "TransferSyntaxUID");
    ("00100010", row "PN" "1" "Patient's Name" "" "PatientName");
    ("00100020", row "LO" "1" "Patient ID" "" "PatientID");
    ("00280004", row "CS" "1" "Photometric Interpretation" ""
                   "PhotometricInterpretation");
    ("00280010", row "US" "1" "Rows" "" "Rows");
    ("00280100", row "US" "1" "Bits Allocated" "" "BitsAllocated");
    ("00280101", row "US" "1" "Bits Stored" "" "BitsStored");
    ("00280102", row "US" "1" "High Bit" "" "HighBit");
    ("00280103", row "US" "1" "Pixel Representation" "" "PixelRepresentation");
    ("00281050", row "DS" "1-n" "Window Center" "" "WindowCenter");
    ("00281051", row "DS" "1-n" "Window Width" "" "WindowWidth");
    ("00281052", row "DS" "1" "Rescale Intercept" "" "RescaleIntercept");
    ("00281053", row "DS" "1" "Rescale Slope" "" "RescaleSlope");
    ("7fe00010", row "OW" "1" "Pixel Data" "" "PixelData") ].

Definition dictionary (tag : string) : option DictionaryEntry :=
  get rows tag.

(** Modelled from the spec: [GroupLengthEntry], whose VR is [UL] and
    whose keyword is [GroupLength] (section 4.2). *)
Definition groupLength : DictionaryEntry :=
  row "UL" "1" "Group Length" "" "GroupLength".

Fixpoint dropWhile {A : Type} (f : A -> bool) (l : list A) : list A :=
  match l with
  | [] => []
  | x :: rest => if f x then dropWhile f rest else l
  end.

(** Trailing NULs and spaces trimmed. *)
Definition trimEnd (a : JS.Uint8Array) : string :=
  JS.arrayToText
    (rev (dropWhile (fun b => ((Byte.to_N b =? 0) || (Byte.to_N b =? 32))%N)
            (rev a))).

Fixpoint words (fuel width : nat) (le : bool) (a : JS.Uint8Array)
  : list JS.number :=
  match fuel with
  | O => []
  | S fuel' =>
      match a with
      | [] => []
      | _ => JS.ofN (Bufferpack.decodeInt le (firstn width a))
             :: words fuel' width le (skipn width a)
      end
  end.

Definition scalarOrArray (xs : list JS.number) : jsvalue :=
  match xs with
  | [x] => VNumber x
  | _ => VArray xs
  end.

Definition textVRs : list string :=
  ["UI"; "CS"; "SH"; "LO"; "ST"; "LT"; "UT"; "PN"; "AE"; "AS"; "DA"; "TM"; "DT"].

(** Modelled from the spec: [convertValue] of [./converter] (not among
    the sources), for the rows of the table of section 4.3 that the
    examples meet: text VRs give the trimmed string, [IS] a decimal
    integer, [US] and [UL] unsigned integers of the element's
    endianness (a single one as a scalar), and every other VR the raw
    bytes. *)
Definition convert (VR : string) (info : ITagInfo) (isLittleEndian : bool)
  : jsvalue :=
  let raw := infoRawValue info in
  if existsb (String.eqb VR) textVRs then VString (trimEnd raw)
  else if String.eqb VR "IS" then VNumber (JS.parseInt (trimEnd raw) 10)
  else if String.eqb VR "US" then
    scalarOrArray (words (List.length raw) 2 isLittleEndian raw)
  else if String.eqb VR "UL" then
    scalarOrArray (words (List.length raw) 4 isLittleEndian raw)
  else VBytes raw.

(** Modelled from the spec: the VRs that [converters] knows, the rows
    of the table of section 4.3. *)
Definition hasConverter (VR : string) : bool :=
  existsb (String.eqb VR)
    (textVRs ++ ["IS"; "DS"; "US"; "SS"; "UL"; "SL"; "FL"; "FD"; "AT";
                 "OB"; "OW"; "OF"; "UN"; "SQ"]).

Definition environment : Environment :=
  {| DicomDictionary := dictionary;
     GroupLengthEntry := groupLength;
     convertValue := convert;
     converters := hasConverter |}.

End SpecModel.

(** ** Inputs of the worked examples *)

Module Samples.

Definition byteOf (n : N) : byte :=
  match Byte.of_N n with
  | Some b => b
  | None => "000"%byte
  end.

Definition raw (l : list N) : JS.Uint8Array := map byteOf l.

Definition ascii (text : string) : JS.Uint8Array :=
  map byte_of_ascii (list_ascii_of_string text).

Definition preambleAndMagic : JS.Uint8Array :=
  repeat "000"%byte 128 ++ ascii "DICM".

(** (0002,0010) UI, explicit VR little endian, the UID padded with
    NUL to an even length. *)
Definition transferSyntaxElement (uid : string) : JS.Uint8Array :=
  let padded := 2 * Nat.div2 (S (String.length uid)) in
  raw [0x02; 0x00; 0x10; 0x00]%N ++ ascii "UI" ++ raw [N.of_nat padded; 0x00]%N
  ++ ascii uid ++ repeat "000"%byte (padded - String.length uid).

(** A file in Explicit VR Big Endian whose dataset starts with
    (2000,0010) IS "1 ". *)
Definition bigEndianFile : JS.Uint8Array :=
  preambleAndMagic ++ transferSyntaxElement "1.2.840.10008.1.2.2"
  ++ raw [0x20; 0x00; 0x00; 0x10]%N ++ ascii "IS" ++ raw [0x00; 0x02]%N
  ++ ascii "1 ".

(** An element as [createTag] builds it for a public tag of the
    dictionary, with a given payload. *)
Definition tag (hexGroup hexElement VR name keyword : string)
  (raw : JS.Uint8Array) (value : jsvalue) : ITag jsvalue :=
  {| VR := VR;
     length_ := N.of_nat (List.length raw);
     rawValue := raw;
     value := value;
     representations :=
       {| group := match JS.parseDigits 16 hexGroup None with
                   | Some n => n | None => 0%N end;
          element := match JS.parseDigits 16 hexElement None with
                     | Some n => n | None => 0%N end;
          hexGroup := hexGroup; hexElement := hexElement;
          tuple := [hexGroup; hexElement];
          string_ := hexGroup ++ hexElement;
          repName := name |};
     representation := hexGroup ++ hexElement;
     name := name; VM := "1"; keyword := keyword; retired := "" |}.

Definition numeric (hexElement VR name keyword : string) (x : Z)
  : string * ITag jsvalue :=
  ((keyword ++ "-1")%string,
   tag "0028" hexElement VR name keyword [] (VNumber (JS.ofZ x))).

Definition pixelDataTag (raw : JS.Uint8Array) : string * ITag jsvalue :=
  ("PixelData-1", tag "7fe0" "0010" "OW" "Pixel Data" "PixelData" raw (VBytes raw)).

Definition photometric (text : string) : string * ITag jsvalue :=
  ("PhotometricInterpretation-1",
   tag "0028" "0004" "CS" "Photometric Interpretation"
     "PhotometricInterpretation" (ascii text) (VString text)).

(** One byte per pixel, unsigned, MONOCHROME2, rescale slope 1 and
    intercept 0, with the given window. *)
Definition eightBitDataset (center width : Z) (pixels : JS.Uint8Array)
  : Dataset :=
  [ photometric "MONOCHROME2";
    numeric "0100" "US" "Bits Allocated" "BitsAllocated" 8;
    numeric "0101" "US" "Bits Stored" "BitsStored" 8;
    numeric "0102" "US" "High Bit" "HighBit" 7;
    numeric "0103" "US" "Pixel Representation" "PixelRepresentation" 0;
    numeric "1050" "DS" "Window Center" "WindowCenter" center;
    numeric "1051" "DS" "Window Width" "WindowWidth" width;
    numeric "1052" "DS" "Rescale Intercept" "RescaleIntercept" 0;
    numeric "1053" "DS" "Rescale Slope" "RescaleSlope" 1;
    pixelDataTag pixels ].

(** A dataset with pixel data but no BitsAllocated element. *)
Definition datasetWithoutBitsAllocated : Dataset :=
  [ numeric "0101" "US" "Bits Stored" "BitsStored" 8;
    numeric "0102" "US" "High Bit" "HighBit" 7;
    numeric "0103" "US" "Pixel Representation" "PixelRepresentation" 0;
    pixelDataTag (raw [0; 128; 255]%N) ].

(** (0000,0000), implicit VR little endian, length 4: a command group
    length. *)
Definition groupLengthElement : JS.Uint8Array :=
  raw [0x00; 0x00; 0x00; 0x00; 0x04; 0x00; 0x00; 0x00;
       0x08; 0x00; 0x00; 0x00]%N.

(** A file whose command set follows the File Meta Information in
    implicit VR. *)
Definition commandSetFile : JS.Uint8Array :=
  preambleAndMagic ++ transferSyntaxElement "1.2.840.10008.1.2"
  ++ groupLengthElement.

(** (0010,0010) PN, explicit VR little endian, with a 4-byte name. *)
Definition patientName (text : string) : JS.Uint8Array :=
  raw [0x10; 0x00; 0x10; 0x00]%N ++ ascii "PN" ++ raw [0x04; 0x00]%N
  ++ ascii text.

(** Three elements of one keyword. *)
Definition threeNames : JS.Uint8Array :=
  patientName "DOE1" ++ patientName "DOE2" ++ patientName "DOE3".

(** (0010,0020), implicit VR little endian, announcing 8 bytes of
    which the buffer holds 3. *)
Definition truncatedElement : JS.Uint8Array :=
  raw [0x10; 0x00; 0x20; 0x00; 0x08; 0x00; 0x00; 0x00]%N ++ ascii "ID1".

(** The same element, whole. *)
Definition wholeElement : JS.Uint8Array :=
  raw [0x10; 0x00; 0x20; 0x00; 0x08; 0x00; 0x00; 0x00]%N ++ ascii "ID123   ".

(** Implicit VR little endian: (0010,0010) of undefined length, then
    (0010,0010) of length zero, then (0010,0020) with 4 bytes. *)
Definition undefinedThenZeroLength : JS.Uint8Array :=
  raw [0x10; 0x00; 0x10; 0x00; 0xFF; 0xFF; 0xFF; 0xFF]%N
  ++ raw [0x10; 0x00; 0x10; 0x00; 0x00; 0x00; 0x00; 0x00]%N
  ++ raw [0x10; 0x00; 0x20; 0x00; 0x04; 0x00; 0x00; 0x00]%N ++ ascii "ID12".

End Samples.

(** * Properties *)

(** ** Slices *)

Lemma takeN_firstn (n : N) (a : JS.Uint8Array) :
  takeN n a = firstn (N.to_nat n) a.
Proof.
  revert n; induction a as [|b a IH]; intro n; simpl.
  - now rewrite firstn_nil.
  - destruct (N.eqb_spec n 0) as [->|Hn]; [reflexivity|].
    rewrite IH.
    replace (N.to_nat n) with (S (N.to_nat (N.pred n))) by lia.
    reflexivity.
Qed.

Lemma dropN_skipn (n : N) (a : JS.Uint8Array) :
  dropN n a = skipn (N.to_nat n) a.
Proof.
  revert n; induction a as [|b a IH]; intro n; simpl.
  - now rewrite skipn_nil.
  - destruct (N.eqb_spec n 0) as [->|Hn]; [reflexivity|].
    rewrite IH.
    replace (N.to_nat n) with (S (N.to_nat (N.pred n))) by lia.
    reflexivity.
Qed.

Lemma getArrayRange_firstn_skipn (a : JS.Uint8Array) (start range : N) :
  getArrayRange a start range
  = firstn (N.to_nat range) (skipn (N.to_nat start) a).
Proof.
  unfold getArrayRange. now rewrite takeN_firstn, dropN_skipn.
Qed.

Lemma size_getArrayRange (a : JS.Uint8Array) (start range : N) :
  size (getArrayRange a start range) = N.min range (size a - start).
Proof.
  unfold size. rewrite getArrayRange_firstn_skipn.
  rewrite length_firstn, length_skipn. lia.
Qed.

Lemma arrayToText_inj (a b : JS.Uint8Array) :
  arrayToText a = arrayToText b -> a = b.
Proof.
  unfold arrayToText, JS.arrayToText. intro H.
  apply (f_equal list_ascii_of_string) in H.
  rewrite !list_ascii_of_string_of_list_ascii in H.
  revert b H; induction a as [|x a IH]; intros [|y b] H; simpl in H;
    try discriminate; [reflexivity|].
  injection H as Hxy Hab.
  f_equal; [|now apply IH].
  rewrite <- (byte_of_ascii_of_byte x), <- (byte_of_ascii_of_byte y).
  now rewrite Hxy.
Qed.

Section ReaderProperties.

Context {environment : Environment}.

(** ** The preamble *)

Lemma magic_of_header (bytes : JS.Uint8Array) :
  snd (splitArray (fst (splitArray bytes 132)) 128) = getArrayRange bytes 128 4.
Proof.
  unfold splitArray; simpl fst; simpl snd.
  rewrite getArrayRange_firstn_skipn, dropN_skipn, takeN_firstn.
  rewrite skipn_firstn_comm. reflexivity.
Qed.

Lemma preamble_of_header (bytes : JS.Uint8Array) :
  fst (splitArray (fst (splitArray bytes 132)) 128) = getArrayRange bytes 0 128.
Proof.
  unfold splitArray; simpl fst.
  rewrite getArrayRange_firstn_skipn, !takeN_firstn.
  rewrite firstn_firstn. reflexivity.
Qed.

(** C8.  [readPreamble] answers with bytes 0..128 and the cursor 132,
    logging nothing, exactly when bytes 128..132 spell DICM; otherwise
    it logs the missing-header error and answers with the empty
    preamble and the cursor 0.  In both cases [readFile] goes on: its
    File Meta read is [readFileMetaInfo] at that cursor ([c0], with
    the log [l0] that [readPreamble] left), an exception of that read
    is the exception of [readFile], and when the four reads return,
    [readFile] returns the object made of their three datasets and of
    the flags. *)
Theorem readPreamble_magic (bytes : JS.Uint8Array) (l : log) :
  exists (c0 : N) (l0 : log),
    ((getArrayRange bytes 128 4 = ["D"; "I"; "C"; "M"]%byte
      /\ readPreamble bytes l = (Return (getArrayRange bytes 0 128, 132%N), l)
      /\ c0 = 132%N /\ l0 = l)
     \/
     (getArrayRange bytes 128 4 <> ["D"; "I"; "C"; "M"]%byte
      /\ readPreamble bytes l
         = (Return ([], 0%N), l ++ [MISSING_DICOM_FILE_META_INFORMATION_HEADER])
      /\ c0 = 0%N
      /\ l0 = l ++ [MISSING_DICOM_FILE_META_INFORMATION_HEADER]))
    /\ (forall e l1,
           readFileMetaInfo bytes c0 l0 = (Throw e, l1) ->
           readFile bytes l = (Throw e, l1))
    /\ (forall fileMetaInfo c1 l1 commandSetElements c2 l2
               implicit little l3 dataset c3 l4,
           readFileMetaInfo bytes c0 l0 = (Return (fileMetaInfo, c1), l1) ->
           readCommandSetElements bytes c1 l1
           = (Return (commandSetElements, c2), l2) ->
           readOrGuessIsImplicitVrAndIsLittleEndian bytes c2
             (get fileMetaInfo "00020010") l2
           = (Return (implicit, little), l3) ->
           readDataset bytes c2 implicit little None l3
           = (Return (dataset, c3), l4) ->
           readFile bytes l
           = (Return {| entries :=
                          spread (spread dataset fileMetaInfo)
                            commandSetElements;
                        isLittleEndian := little;
                        isImplicitVR := implicit |}, l4)).
Proof.
  assert (Hreads : forall preamble c0 l0,
             readPreamble bytes l = (Return (preamble, c0), l0) ->
             (forall e l1,
                 readFileMetaInfo bytes c0 l0 = (Throw e, l1) ->
                 readFile bytes l = (Throw e, l1))
             /\ (forall fileMetaInfo c1 l1 commandSetElements c2 l2
                        implicit little l3 dataset c3 l4,
                    readFileMetaInfo bytes c0 l0
                    = (Return (fileMetaInfo, c1), l1) ->
                    readCommandSetElements bytes c1 l1
                    = (Return (commandSetElements, c2), l2) ->
                    readOrGuessIsImplicitVrAndIsLittleEndian bytes c2
                      (get fileMetaInfo "00020010") l2
                    = (Return (implicit, little), l3) ->
                    readDataset bytes c2 implicit little None l3
                    = (Return (dataset, c3), l4) ->
                    readFile bytes l
                    = (Return {| entries :=
                                   spread (spread dataset fileMetaInfo)
                                     commandSetElements;
                                 isLittleEndian := little;
                                 isImplicitVR := implicit |}, l4))).
  { intros preamble c0 l0 Hpre. split.
    - intros e l1 H. unfold readFile, readFileAfterPreamble, bind.
      now rewrite Hpre, H.
    - intros fileMetaInfo c1 l1 commandSetElements c2 l2 implicit little l3
             dataset c3 l4 H1 H2 H3 H4.
      unfold readFile, readFileAfterPreamble, bind.
      now rewrite Hpre, H1, H2, H3, H4. }
  assert (Hcases :
            (getArrayRange bytes 128 4 = ["D"; "I"; "C"; "M"]%byte
             /\ readPreamble bytes l
                = (Return (getArrayRange bytes 0 128, 132%N), l))
            \/ (getArrayRange bytes 128 4 <> ["D"; "I"; "C"; "M"]%byte
                /\ readPreamble bytes l
                   = (Return ([], 0%N),
                      l ++ [MISSING_DICOM_FILE_META_INFORMATION_HEADER]))).
  { unfold readPreamble.
    pose proof (magic_of_header bytes) as Hm.
    pose proof (preamble_of_header bytes) as Hp.
    destruct (splitArray (fst (splitArray bytes 132)) 128) as [preamble magic].
    simpl in Hm, Hp. subst preamble magic.
    destruct (String.eqb_spec (arrayToText (getArrayRange bytes 128 4))
                DICOM_MAGIC_PREFIX) as [He|Hne]; simpl negb; cbv iota.
    - left. split; [|reflexivity]. apply arrayToText_inj. exact He.
    - right. split; [|reflexivity].
      intro Heq. apply Hne. rewrite Heq. reflexivity. }
  destruct Hcases as [[Hmagic Hpre]|[Hmagic Hpre]].
  - exists 132%N, l. split; [left; auto|]. exact (Hreads _ _ _ Hpre).
  - exists 0%N, (l ++ [MISSING_DICOM_FILE_META_INFORMATION_HEADER]).
    split; [right; auto|]. exact (Hreads _ _ _ Hpre).
Qed.

(** ** Element headers *)

Definition implicitHeader (le : bool) (g0 g1 e0 e1 b4 b5 b6 b7 : byte)
  : N * N * option string * N * N :=
  (Bufferpack.decodeInt le [g0; g1], Bufferpack.decodeInt le [e0; e1],
   None, Bufferpack.decodeInt le [b4; b5; b6; b7], 8%N).

Lemma isUppercaseLetter_range (b : byte) :
  isUppercaseLetter (ascii_of_byte b)
  = ((0x41 <=? Byte.to_N b) && (Byte.to_N b <? 0x5A))%N.
Proof. destruct b; reflexivity. Qed.

Lemma unpack_explicit_not_uppercase
  (data : JS.Uint8Array) (le : bool) (cursor : N) (l : log)
  (g0 g1 e0 e1 v0 v1 l0 l1 : byte) :
  (isUppercaseLetter (ascii_of_byte v0)
   && isUppercaseLetter (ascii_of_byte v1))%bool = false ->
  unpack data [g0; g1; e0; e1; v0; v1; l0; l1] (getEndianPattern le false)
    false le cursor l
  = (Return (implicitHeader le g0 g1 e0 e1 v0 v1 l0 l1), l).
Proof.
  intro H. unfold unpack. cbn -[isUppercaseLetter ascii_of_byte existsb].
  rewrite H. reflexivity.
Qed.

(** C7.  In explicit-VR mode a header whose VR holds the letter Z
    (0x5A), in either position, is not parsed as explicit VR: [unpack]
    re-unpacks it as [HHL] and answers with a null VR, the four bytes
    after the tag as a 32-bit length, and header size 8.  The test
    [inRange(code, 'A', 'Z')] excludes its upper bound. *)
Theorem unpack_explicit_letter_Z
  (data : JS.Uint8Array) (le : bool) (cursor : N) (l : log)
  (g0 g1 e0 e1 v l0 l1 : byte) :
  unpack data [g0; g1; e0; e1; "Z"%byte; v; l0; l1] (getEndianPattern le false)
    false le cursor l
  = (Return (implicitHeader le g0 g1 e0 e1 "Z"%byte v l0 l1), l)
  /\
  unpack data [g0; g1; e0; e1; v; "Z"%byte; l0; l1] (getEndianPattern le false)
    false le cursor l
  = (Return (implicitHeader le g0 g1 e0 e1 v "Z"%byte l0 l1), l).
Proof.
  split; apply unpack_explicit_not_uppercase.
  - reflexivity.
  - rewrite !isUppercaseLetter_range. cbn. apply andb_false_r.
Qed.

(** A pair of letters that passes the test is kept as the VR. *)
Lemma unpack_explicit_uppercase
  (data : JS.Uint8Array) (le : bool) (cursor : N) (l : log)
  (g0 g1 e0 e1 v0 v1 l0 l1 : byte) :
  (isUppercaseLetter (ascii_of_byte v0)
   && isUppercaseLetter (ascii_of_byte v1))%bool = true ->
  let vr := arrayToText [v0; v1] in
  unpack data [g0; g1; e0; e1; v0; v1; l0; l1] (getEndianPattern le false)
    false le cursor l
  = if existsb (String.eqb vr) ExtraLengthVRs then
      match Bufferpack.unpack (extraLengthPattern le)
              (getArrayRange data (cursor + 8) 4) with
      | Some (Bufferpack.Int trueLength :: _) =>
          (Return (Bufferpack.decodeInt le [g0; g1],
                   Bufferpack.decodeInt le [e0; e1],
                   Some vr, trueLength, 12%N), l)
      | _ => (Throw TypeError, l)
      end
    else
      (Return (Bufferpack.decodeInt le [g0; g1],
               Bufferpack.decodeInt le [e0; e1],
               Some vr, Bufferpack.decodeInt le [l0; l1], 8%N), l).
Proof.
  intros H vr. unfold unpack.
  change (Bufferpack.unpack (getEndianPattern le false)
            [g0; g1; e0; e1; v0; v1; l0; l1])
    with (Some [Bufferpack.Int (Bufferpack.decodeInt le [g0; g1]);
                Bufferpack.Int (Bufferpack.decodeInt le [e0; e1]);
                Bufferpack.Str vr;
                Bufferpack.Int (Bufferpack.decodeInt le [l0; l1])]).
  change vr with (String (ascii_of_byte v0) (String (ascii_of_byte v1) "")).
  cbv iota beta. rewrite H. cbv iota beta. simpl negb. cbv iota.
  destruct (existsb _ ExtraLengthVRs); [|reflexivity].
  destruct (Bufferpack.unpack (extraLengthPattern le) _) as [[|[n|t] fs]|];
    reflexivity.
Qed.

(** ** Integer arithmetic of the number model *)

Lemma Qred_inject_Z (z : Z) : Qred (inject_Z z) = inject_Z z.
Proof.
  unfold Qred, inject_Z.
  pose proof (Z.ggcd_gcd z 1) as Hg.
  pose proof (Z.ggcd_correct_divisors z 1) as Hd.
  destruct (Z.ggcd z 1) as [g [aa bb]]. simpl in *.
  rewrite Z.gcd_1_r in Hg. subst g. destruct Hd as [Ha Hb].
  rewrite Z.mul_1_l in Ha, Hb. subst aa bb. reflexivity.
Qed.



Lemma mul_ofZ (a b : Z) : JS.mul (JS.ofZ a) (JS.ofZ b) = JS.ofZ (a * b).
Proof.
  unfold JS.mul, JS.lift2, JS.ofZ. f_equal.
  rewrite <- (Qred_inject_Z (a * b)). apply Qred_complete.
  unfold Qeq, Qmult, inject_Z; simpl. lia.
Qed.



(** ** Binary digits *)

Lemma length_append (a b : string) :
  String.length (a ++ b) = String.length a + String.length b.
Proof. induction a as [|c a IH]; simpl; [reflexivity|now rewrite IH]. Qed.













(** ** Signed pixels *)





(** ** Window defaults *)

(** The element with another payload. *)
Definition withValue {A B : Type} (t : ITag A) (v : B) : ITag B :=
  castTag (fun _ => v) t.

Lemma truthy_zero (q : Q) : q == 0 -> JS.truthy (JS.Num q) = false.
Proof.
  intro H. unfold JS.truthy. apply Qeq_bool_iff in H. now rewrite H.
Qed.

(** A WindowCenter element whose numeric value is zero is passed over
    by [adjustToWindow]: the result is the one for an absent element,
    which is the one for a centre of 610.  Likewise a WindowWidth of
    zero gives the result for an absent element, which is the one for
    a width of 1221.  The elements are taken as [getPixelData] passes
    them. *)
Lemma adjustToWindow_zero_is_default
  (pixelData : list JS.number) (t : ITag jsvalue) (q : Q)
  (other : option (ITag JS.number)) :
  value t = VNumber (JS.Num q) -> q == 0 ->
  let zero := option_map (castTag asNumber) (Some t) in
  (adjustToWindow pixelData zero other = adjustToWindow pixelData None other
   /\ adjustToWindow pixelData zero other
      = adjustToWindow pixelData (Some (withValue t (JS.ofZ 610))) other)
  /\
  (adjustToWindow pixelData other zero = adjustToWindow pixelData other None
   /\ adjustToWindow pixelData other zero
      = adjustToWindow pixelData other (Some (withValue t (JS.ofZ 1221)))).
Proof.
  intros Hv Hq zero. subst zero. unfold adjustToWindow. simpl option_map.
  unfold withValue, castTag. cbn [value].
  rewrite Hv. cbn [asNumber]. rewrite (truthy_zero q Hq).
  change (JS.truthy (JS.ofZ 610)) with true.
  change (JS.truthy (JS.ofZ 1221)) with true.
  cbv iota. repeat split; reflexivity.
Qed.

(** *** Zero windows in [getPixelData] *)

Definition isZero (v : jsvalue) : bool :=
  match v with
  | VNumber (JS.Num q) => Qeq_bool q 0
  | _ => false
  end.

(** The key under which [getTagsGroup] files an element. *)
Definition groupKey (t : ITag jsvalue) : string :=
  match keyword t with
  | EmptyString => EmptyString
  | String c rest => String (JS.lowerChar c) rest
  end.

(** The dataset in which every WindowCenter of value zero holds 610
    and every WindowWidth of value zero holds 1221. *)
Definition defaultZeroWindow (t : ITag jsvalue) : ITag jsvalue :=
  if (String.eqb (hexGroup (representations t)) "0028" && isZero (value t))%bool
  then
    if String.eqb (groupKey t) "windowCenter"
    then withValue t (VNumber (JS.ofZ 610))
    else if String.eqb (groupKey t) "windowWidth"
         then withValue t (VNumber (JS.ofZ 1221))
         else t
  else t.

Definition mapValues {A B : Type} (f : A -> B) (object : Record_ A)
  : Record_ B :=
  map (fun kv => (fst kv, f (snd kv))) object.

Lemma defaultZeroWindow_cases (t : ITag jsvalue) :
  defaultZeroWindow t = t
  \/ exists v, defaultZeroWindow t = withValue t v.
Proof.
  unfold defaultZeroWindow.
  destruct (_ && _)%bool; [|now left].
  destruct (String.eqb (groupKey t) "windowCenter"); [right; eauto|].
  destruct (String.eqb (groupKey t) "windowWidth"); [right; eauto|now left].
Qed.

Lemma defaultZeroWindow_fields (t : ITag jsvalue) :
  keyword (defaultZeroWindow t) = keyword t
  /\ name (defaultZeroWindow t) = name t
  /\ representation (defaultZeroWindow t) = representation t
  /\ representations (defaultZeroWindow t) = representations t
  /\ rawValue (defaultZeroWindow t) = rawValue t.
Proof.
  destruct (defaultZeroWindow_cases t) as [->|[v ->]]; repeat split; reflexivity.
Qed.

Lemma getMatchedTag_defaultZeroWindow (id : TagIdentifier) (t : ITag jsvalue) :
  getMatchedTag id (defaultZeroWindow t) = getMatchedTag id t.
Proof.
  destruct (defaultZeroWindow_fields t) as [Hk [Hn [Hr [Hrs _]]]].
  unfold getMatchedTag. now rewrite Hk, Hn, Hr, Hrs.
Qed.

Lemma values_mapValues {A B : Type} (f : A -> B) (object : Record_ A) :
  values (mapValues f object) = map f (values object).
Proof. unfold values, mapValues. rewrite !map_map. reflexivity. Qed.

Lemma get_mapValues {A B : Type} (f : A -> B) (object : Record_ A)
  (key : string) :
  get (mapValues f object) key = option_map f (get object key).
Proof.
  induction object as [|[k v] rest IH]; simpl; [reflexivity|].
  destruct (String.eqb k key); [reflexivity|exact IH].
Qed.

Lemma set_mapValues {A B : Type} (f : A -> B) (object : Record_ A)
  (key : string) (v : A) :
  set (mapValues f object) key (f v) = mapValues f (set object key v).
Proof.
  induction object as [|[k w] rest IH]; simpl; [reflexivity|].
  destruct (String.eqb k key); simpl; [reflexivity|now rewrite IH].
Qed.

Lemma find_map_invariant {A : Type} (p : A -> bool) (f : A -> A) (xs : list A) :
  (forall x, p (f x) = p x) ->
  find p (map f xs) = option_map f (find p xs).
Proof.
  intro H. induction xs as [|x xs IH]; simpl; [reflexivity|].
  rewrite H. destruct (p x); [reflexivity|exact IH].
Qed.

Lemma filter_map_invariant {A : Type} (p : A -> bool) (f : A -> A)
  (xs : list A) :
  (forall x, p (f x) = p x) ->
  filter p (map f xs) = map f (filter p xs).
Proof.
  intro H. induction xs as [|x xs IH]; simpl; [reflexivity|].
  rewrite H. destruct (p x); simpl; now rewrite IH.
Qed.

Lemma get_In {A : Type} (object : Record_ A) (key : string) (v : A) :
  get object key = Some v -> In (key, v) object.
Proof.
  induction object as [|[k w] rest IH]; simpl; [discriminate|].
  destruct (String.eqb_spec k key) as [->|Hne].
  - intro H. injection H as ->. now left.
  - intro H. right. now apply IH.
Qed.

Lemma Forall_set {A : Type} (Q : string * A -> Prop) (object : Record_ A)
  (key : string) (v : A) :
  Forall Q object -> Q (key, v) -> Forall Q (set object key v).
Proof.
  induction object as [|[k w] rest IH]; simpl; intros H Hv.
  - constructor; [exact Hv|constructor].
  - inversion H as [|? ? Hw Hrest]; subst.
    destruct (String.eqb_spec k key) as [->|Hne]; constructor; auto.
Qed.

(** How a result changes under a map of the values it returns. *)
Definition mapOutcome {A B : Type} (f : A -> B) (r : outcome A * log)
  : outcome B * log :=
  match r with
  | (Return a, l) => (Return (f a), l)
  | (Throw e, l) => (Throw e, l)
  | (OutOfFuel, l) => (OutOfFuel, l)
  end.

Lemma getTagsGroupReduce_defaultZeroWindow (tags : list (ITag jsvalue))
  (acc : Dataset) (l : log) :
  getTagsGroupReduce (map defaultZeroWindow tags)
    (mapValues defaultZeroWindow acc) l
  = mapOutcome (mapValues defaultZeroWindow) (getTagsGroupReduce tags acc l).
Proof.
  revert acc; induction tags as [|t tags IH]; intro acc; simpl; [reflexivity|].
  destruct (defaultZeroWindow_fields t) as [Hk _].
  unfold bind, lowerFirst. rewrite Hk.
  destruct (keyword t) as [|c rest]; [reflexivity|].
  unfold ret. rewrite set_mapValues. apply IH.
Qed.

Lemma getTagsGroup_defaultZeroWindow (ds : Dataset) (g : string) (l : log) :
  getTagsGroup (mapValues defaultZeroWindow ds) g l
  = mapOutcome (mapValues defaultZeroWindow) (getTagsGroup ds g l).
Proof.
  unfold getTagsGroup. rewrite values_mapValues.
  rewrite filter_map_invariant.
  - apply (getTagsGroupReduce_defaultZeroWindow _ []).
  - intro t. destruct (defaultZeroWindow_fields t) as [_ [_ [_ [Hrs _]]]].
    now rewrite Hrs.
Qed.

(** Every element of a group sits under its [groupKey], in the group
    that was asked for. *)
Definition filed (g : string) (kt : string * ITag jsvalue) : Prop :=
  groupKey (snd kt) = fst kt /\ hexGroup (representations (snd kt)) = g.

Lemma getTagsGroupReduce_filed (g : string) (tags : list (ITag jsvalue))
  (acc group : Dataset) (l l' : log) :
  Forall (fun t => hexGroup (representations t) = g) tags ->
  Forall (filed g) acc ->
  getTagsGroupReduce tags acc l = (Return group, l') ->
  Forall (filed g) group.
Proof.
  revert acc l; induction tags as [|t tags IH]; intros acc l Ht Hacc; simpl.
  - intro H. injection H as <- _. exact Hacc.
  - inversion Ht as [|? ? Hg Hrest]; subst.
    unfold bind, lowerFirst, groupKey.
    destruct (keyword t) as [|c rest] eqn:Hk; [discriminate|].
    unfold ret. apply IH; [exact Hrest|].
    apply Forall_set; [exact Hacc|].
    split; [unfold groupKey; simpl; now rewrite Hk|reflexivity].
Qed.

Lemma getTagsGroup_filed (ds group : Dataset) (g : string) (l l' : log) :
  getTagsGroup ds g l = (Return group, l') -> Forall (filed g) group.
Proof.
  unfold getTagsGroup.
  apply getTagsGroupReduce_filed; [|constructor].
  apply Forall_forall. intros t Hin. apply filter_In in Hin as [_ Hin].
  now apply String.eqb_eq.
Qed.

(** Outside the two window keys nothing is changed. *)
Lemma get_defaultZeroWindow_other (group : Dataset) (g key : string) :
  Forall (filed g) group ->
  key <> "windowCenter" -> key <> "windowWidth" ->
  get (mapValues defaultZeroWindow group) key = get group key.
Proof.
  intros Hf Hc Hw. rewrite get_mapValues.
  destruct (get group key) as [t|] eqn:E; [simpl|reflexivity].
  apply get_In in E.
  rewrite Forall_forall in Hf. destruct (Hf _ E) as [Hkey _]. simpl in Hkey.
  unfold defaultZeroWindow. rewrite Hkey.
  destruct (String.eqb_spec key "windowCenter"); [contradiction|].
  destruct (String.eqb_spec key "windowWidth"); [contradiction|].
  now destruct (_ && _)%bool.
Qed.

Lemma adjustToWindow_defaultZeroWindow (pixelData : list JS.number)
  (group : Dataset) :
  Forall (filed "0028") group ->
  adjustToWindow pixelData
    (option_map (castTag asNumber)
       (get (mapValues defaultZeroWindow group) "windowCenter"))
    (option_map (castTag asNumber)
       (get (mapValues defaultZeroWindow group) "windowWidth"))
  = adjustToWindow pixelData
      (option_map (castTag asNumber) (get group "windowCenter"))
      (option_map (castTag asNumber) (get group "windowWidth")).
Proof.
  intro Hf. rewrite Forall_forall in Hf. rewrite !get_mapValues.
  assert (Hc : forall t, get group "windowCenter" = Some t ->
               defaultZeroWindow t = t
               \/ (JS.truthy (asNumber (value t)) = false
                   /\ defaultZeroWindow t = withValue t (VNumber (JS.ofZ 610)))).
  { intros t E. apply get_In in E. destruct (Hf _ E) as [Hkey Hg].
    simpl in Hkey, Hg. unfold defaultZeroWindow. rewrite Hkey, Hg. simpl.
    unfold isZero. destruct (value t) as [[|q]| | |]; auto.
    destruct (Qeq_bool q 0) eqn:Hq; [right|now left].
    split; [simpl; now rewrite Hq|reflexivity]. }
  assert (Hw : forall t, get group "windowWidth" = Some t ->
               defaultZeroWindow t = t
               \/ (JS.truthy (asNumber (value t)) = false
                   /\ defaultZeroWindow t = withValue t (VNumber (JS.ofZ 1221)))).
  { intros t E. apply get_In in E. destruct (Hf _ E) as [Hkey Hg].
    simpl in Hkey, Hg. unfold defaultZeroWindow. rewrite Hkey, Hg. simpl.
    unfold isZero. destruct (value t) as [[|q]| | |]; auto.
    destruct (Qeq_bool q 0) eqn:Hq; [right|now left].
    split; [simpl; now rewrite Hq|reflexivity]. }
  assert (Hcentre : forall w,
             adjustToWindow pixelData
               (option_map (castTag asNumber)
                  (option_map defaultZeroWindow (get group "windowCenter"))) w
             = adjustToWindow pixelData
                 (option_map (castTag asNumber) (get group "windowCenter")) w).
  { intro w. destruct (get group "windowCenter") as [t|]; [|reflexivity].
    cbn [option_map].
    destruct (Hc t eq_refl) as [->|[Hz ->]]; [reflexivity|].
    unfold adjustToWindow, withValue. cbn [value castTag asNumber].
    rewrite Hz. reflexivity. }
  rewrite Hcentre.
  destruct (get group "windowWidth") as [t|]; [|reflexivity].
  cbn [option_map].
  destruct (Hw t eq_refl) as [->|[Hz ->]]; [reflexivity|].
  unfold adjustToWindow, withValue. cbn [value castTag asNumber].
  rewrite Hz. reflexivity.
Qed.

(** [getPixelData] gives the same colours, the same exception and the
    same log for a dataset as for the dataset in which every
    WindowCenter of value zero holds 610 and every WindowWidth of
    value zero holds 1221. *)
Lemma getPixelData_defaultZeroWindow (ds : Dataset) (l : log) :
  getPixelData (mapValues defaultZeroWindow ds) l = getPixelData ds l.
Proof.
  unfold getPixelData, bind.
  rewrite getTagsGroup_defaultZeroWindow.
  destruct (getTagsGroup ds "0028" l) as [[group|x|] l1] eqn:Hgroup;
    try reflexivity.
  apply getTagsGroup_filed in Hgroup. cbn [mapOutcome].
  rewrite !(get_defaultZeroWindow_other group "0028") by (assumption || discriminate).
  unfold getTagValue. rewrite values_mapValues.
  rewrite (find_map_invariant _ defaultZeroWindow)
    by apply getMatchedTag_defaultZeroWindow.
  unfold ret.
  destruct (find _ (values ds)) as [pixelData|]; [|reflexivity].
  cbn [option_map].
  destruct (defaultZeroWindow_fields pixelData) as [_ [_ [_ [_ Hraw]]]].
  rewrite Hraw. cbv zeta. unfold valueOf, ret, throw.
  destruct (get group "bitsAllocated") as [bitsAllocated|]; [|reflexivity].
  destruct (get group "highBit") as [highBit|]; [|reflexivity].
  destruct (get group "bitsStored") as [bitsStored|]; [|reflexivity].
  destruct (get group "pixelRepresentation") as [pixelRepresentation|];
    [|reflexivity].
  rewrite (adjustToWindow_defaultZeroWindow _ group Hgroup).
  reflexivity.
Qed.

(** ** Safe keys *)

(** The key [`${key}-${index}`]. *)
Definition suffixed (key : string) (index : nat) : string :=
  (key ++ "-" ++ JS.decimal index)%string.

Fixpoint hasDash (text : string) : bool :=
  match text with
  | EmptyString => false
  | String c rest => (Ascii.eqb c "-" || hasDash rest)%bool
  end.

Lemma hasDash_append (a b : string) :
  hasDash (a ++ b) = (hasDash a || hasDash b)%bool.
Proof.
  induction a as [|c a IH]; simpl; [reflexivity|].
  now rewrite IH, orb_assoc.
Qed.

Lemma hasDash_suffixed (key : string) (index : nat) :
  hasDash (suffixed key index) = true.
Proof.
  unfold suffixed. rewrite hasDash_append. simpl. apply orb_true_r.
Qed.

Lemma hasDash_decimal (n : nat) : hasDash (JS.decimal n) = false.
Proof.
  unfold JS.decimal. generalize (Nat.to_uint n) as d.
  induction d; simpl; auto.
Qed.

Lemma decimal_inj (n m : nat) : JS.decimal n = JS.decimal m -> n = m.
Proof.
  unfold JS.decimal. intro H.
  apply (f_equal DecimalString.NilEmpty.uint_of_string) in H.
  rewrite !DecimalString.NilEmpty.usu in H. injection H as H.
  apply (f_equal Nat.of_uint) in H.
  now rewrite !DecimalNat.Unsigned.of_to in H.
Qed.

(** A key splits at its last dash. *)
Lemma dash_split (k k' d d' : string) :
  hasDash d = false -> hasDash d' = false ->
  (k ++ "-" ++ d = k' ++ "-" ++ d')%string -> k = k' /\ d = d'.
Proof.
  intros Hd Hd'. revert k'.
  induction k as [|c k IH]; intros [|c' k'] H; simpl in H.
  - injection H as H. now split.
  - injection H as Hc H. subst d.
    rewrite hasDash_append in Hd. simpl in Hd.
    rewrite orb_true_r in Hd. discriminate.
  - injection H as Hc H. subst d'.
    rewrite hasDash_append in Hd'. simpl in Hd'.
    rewrite orb_true_r in Hd'. discriminate.
  - injection H as Hc H. subst c'.
    destruct (IH k' H) as [-> ->]. now split.
Qed.

Lemma suffixed_inj (k k' : string) (n m : nat) :
  suffixed k n = suffixed k' m -> k = k' /\ n = m.
Proof.
  unfold suffixed. intro H.
  apply dash_split in H; try apply hasDash_decimal.
  destruct H as [Hk Hd]. split; [exact Hk|now apply decimal_inj].
Qed.

(** *** Objects as ordered maps *)

Lemma has_In {A : Type} (object : Record_ A) (key : string) :
  has object key = true <-> In key (keys object).
Proof.
  unfold has. induction object as [|[k v] rest IH]; simpl.
  - split; [discriminate|tauto].
  - destruct (String.eqb_spec k key) as [->|Hne].
    + split; auto.
    + rewrite IH. split; [auto|]. intros [H|H]; [contradiction|exact H].
Qed.

Lemma set_fresh {A : Type} (object : Record_ A) (key : string) (v : A) :
  has object key = false -> set object key v = object ++ [(key, v)].
Proof.
  unfold has. induction object as [|[k w] rest IH]; simpl; intro H.
  - reflexivity.
  - destruct (String.eqb k key); [discriminate|]. now rewrite IH.
Qed.

Lemma keys_app {A : Type} (a b : Record_ A) : keys (a ++ b) = keys a ++ keys b.
Proof. apply map_app. Qed.

Lemma values_app {A : Type} (a b : Record_ A) :
  values (a ++ b) = values a ++ values b.
Proof. apply map_app. Qed.

(** *** The loop of [getSafeKey] *)

Lemma getSafeKeyFrom_sound {A : Type} (fuel : nat) (object : Record_ A)
  (key : string) (index : nat) (k : string) :
  1 <= index ->
  getSafeKeyFrom fuel object key index = Some k ->
  exists n, index <= n /\ k = suffixed key n /\ has object k = false
            /\ forall m, index <= m < n -> has object (suffixed key m) = true.
Proof.
  revert index. induction fuel as [|fuel IH]; intros index Hi H; simpl in H.
  - discriminate.
  - destruct (Nat.eqb_spec index 0) as [H0|_]; [lia|].
    change (key ++ String "-" (JS.decimal index))%string
      with (suffixed key index) in H.
    destruct (has object (suffixed key index)) eqn:Hhas.
    + apply IH in H; [|lia].
      destruct H as [n [Hn [Hk [Hf Hb]]]].
      exists n. repeat split; try assumption; [lia|].
      intros m Hm. destruct (Nat.eq_dec m index) as [->|Hne]; [exact Hhas|].
      apply Hb. lia.
    + injection H as <-. exists index. repeat split; try assumption; [lia|].
      intros m Hm. lia.
Qed.

(** Pigeonhole: some index among [index .. index + length object] is
    free, so the loop ends within [S (length object)] rounds. *)
Lemma getSafeKeyFrom_total {A : Type} (object : Record_ A) (key : string) :
  forall (fuel index : nat) (present : list string),
    1 <= index ->
    NoDup present -> incl present (keys object) ->
    (forall m, In (suffixed key m) present -> m < index) ->
    List.length object < fuel + List.length present ->
    getSafeKeyFrom fuel object key index <> None.
Proof.
  induction fuel as [|fuel IH]; intros index present Hi Hnd Hincl Hlt Hlen.
  - exfalso. apply NoDup_incl_length in Hincl; [|exact Hnd].
    unfold keys in Hincl. rewrite length_map in Hincl. simpl in Hlen. lia.
  - simpl. destruct (Nat.eqb_spec index 0) as [H0|_]; [lia|].
    change (key ++ String "-" (JS.decimal index))%string
      with (suffixed key index).
    destruct (has object (suffixed key index)) eqn:Hhas; [|discriminate].
    apply (IH (S index) (suffixed key index :: present)).
    + lia.
    + constructor; [|exact Hnd]. intro Hin. apply Hlt in Hin. lia.
    + intros x [<-|Hx]; [now apply has_In|now apply Hincl].
    + intros m [Heq|Hin].
      * apply suffixed_inj in Heq as [_ <-]. lia.
      * apply Hlt in Hin. lia.
    + simpl. lia.
Qed.

(** [getSafeKey] returns: it neither throws nor runs out of fuel, and
    its answer is the first free key among [key-1], [key-2], ... *)
Lemma getSafeKey_spec {A : Type} (object : Record_ A) (key : string) (l : log) :
  exists n,
    1 <= n
    /\ getSafeKey object key l = (Return (suffixed key n), l)
    /\ has object (suffixed key n) = false
    /\ forall m, 1 <= m < n -> has object (suffixed key m) = true.
Proof.
  unfold getSafeKey.
  destruct (getSafeKeyFrom (S (List.length object)) object key 1) as [k|] eqn:E.
  - apply getSafeKeyFrom_sound in E; [|lia].
    destruct E as [n [Hn [-> [Hf Hb]]]]. exists n. repeat split; assumption.
  - exfalso. revert E.
    apply (getSafeKeyFrom_total object key (S (List.length object)) 1 []).
    + lia.
    + constructor.
    + intros x [].
    + intros m [].
    + simpl. lia.
Qed.

(** ** The loop of [readDataset] *)

Lemma createTag_fields (group element : N) (values : ITagValues)
  (l l' : log) (tag : ITag jsvalue) :
  createTag group element values l = (Return tag, l') ->
  rawValue tag = valuesRawValue values /\ length_ tag = valuesLength values.
Proof.
  unfold createTag.
  destruct (getHexRepresentation group element) as [hg he].
  destruct (negb (group mod 2 =? 0)%N).
  - intro H. injection H as <- _. split; reflexivity.
  - unfold bind.
    destruct (truthyVR (valuesVR values)).
    + intro H. injection H as <- _. split; reflexivity.
    + destruct (if String.eqb he "0000" then _ else _).
      * intro H. injection H as <- _. split; reflexivity.
      * discriminate.
Qed.

(** Invariants of the loop: a property of the dataset built so far
    and the cursor that survives a move of the cursor and the
    insertion of one element holds of what the loop returns. *)
Lemma readElements_invariant (P : Dataset -> N -> Prop)
  (data : JS.Uint8Array) (elementPattern : Bufferpack.pattern)
  (isImplicitVR isLittleEndian : bool) (stopWhen : option StopWhenFunction) :
  (forall ds d d', (d <= d')%N -> P ds d -> P ds d') ->
  (forall ds d cursorChange len tag key l l',
      P ds d -> (0 < len)%N ->
      rawValue tag = getArrayRange data (d + cursorChange) len ->
      length_ tag = len ->
      getSafeKey ds (keyword tag) l = (Return key, l') ->
      P (set ds key tag) (d + cursorChange + len)%N) ->
  forall fuel ds d l ds' d' l',
    P ds d ->
    readElements fuel data elementPattern isImplicitVR isLittleEndian stopWhen
      ds d l = (Return (ds', d'), l') ->
    P ds' d'.
Proof.
  intros Hmove Hinsert.
  induction fuel as [|fuel IH]; intros ds d l ds' d' l' HP H.
  - discriminate.
  - cbn [readElements] in H. cbv zeta in H.
    destruct (negb (size (getArrayRange data d 8) =? 8)%N).
    { injection H as <- <- _. exact HP. }
    unfold bind at 1 in H.
    destruct (unpack data (getArrayRange data d 8) elementPattern isImplicitVR
                isLittleEndian d l)
      as [[[[[[g e] vr] len] cc]|x|] l1]; try discriminate.
    destruct (match stopWhen with Some f => f g vr len | None => false end).
    { injection H as <- <- _. exact HP. }
    destruct (negb (len =? UNDEFINED_LENGTH)%N).
    + destruct (N.ltb_spec 0 len) as [Hpos|Hzero].
      * destruct (notNONE vr).
        -- unfold bind at 1 in H.
           destruct (getTagInfo _ _ _ _ _ l1) as [[info|x|] l2];
             try discriminate.
           unfold bind at 1 in H.
           destruct (createTag _ _ _ l2) as [[tag|x|] l3] eqn:Htag;
             try discriminate.
           apply createTag_fields in Htag. simpl in Htag.
           destruct Htag as [Hraw Hlen].
           unfold bind at 1 in H.
           destruct (getSafeKey ds (keyword tag) l3) as [[key|x|] l4] eqn:Hkey;
             try discriminate.
           eapply IH; [|exact H].
           eapply Hinsert; eauto.
        -- eapply IH; [|exact H]. eapply Hmove; [|exact HP]. lia.
      * eapply IH; [|exact H]. eapply Hmove; [|exact HP]. lia.
    + unfold bind at 1 in H.
      match type of H with
      | (match ?m with _ => _ end) = _ =>
          destruct m as [[u|x|] l2]; try discriminate
      end.
      unfold bind at 1 in H.
      match type of H with
      | (match ?m with _ => _ end) = _ =>
          destruct m as [[u'|x|] l3]; try discriminate
      end.
      eapply IH; [|exact H]. eapply Hmove; [|exact HP]. lia.
Qed.

(** *** One round of the loop *)

Inductive control (A : Type) :=
| Break (a : A)
| Continue (a : A).

Arguments Break {A} a.
Arguments Continue {A} a.

(** The body of the [while (true)] of [readDataset], with its exits
    made explicit. *)
Definition iteration (data : JS.Uint8Array)
  (elementPattern : Bufferpack.pattern) (isImplicitVR isLittleEndian : bool)
  (stopWhen : option StopWhenFunction)
  (dataset : Dataset) (cursorPositionChange : N)
  : M (control (Dataset * N)) :=
  let tagData := getArrayRange data cursorPositionChange 8 in
  if negb (size tagData =? 8)%N then ret (Break (dataset, cursorPositionChange))
  else
    '(group, elem, VR, length, cursorChange) <-
      unpack data tagData elementPattern isImplicitVR isLittleEndian
        cursorPositionChange ;;
    if (match stopWhen with
        | Some f => f group VR length
        | None => false
        end)
    then ret (Break (dataset, cursorPositionChange))
    else
      let afterHeader := (cursorPositionChange + cursorChange)%N in
      if negb (length =? UNDEFINED_LENGTH)%N then
        if (0 <? length)%N then
          let value := getArrayRange data afterHeader length in
          if notNONE VR then
            tagInfo <- getTagInfo value length group elem VR ;;
            tag <- createTag group elem
                     {| valuesVR := VR;
                        valuesLength := length;
                        valuesRawValue := value;
                        valuesValue :=
                          convertValue
                            (if truthyVR VR
                             then match VR with Some v => v | None => "" end
                             else infoVR tagInfo)
                            tagInfo isLittleEndian |} ;;
            key <- getSafeKey dataset (keyword tag) ;;
            ret (Continue (set dataset key tag, (afterHeader + length)%N))
          else ret (Continue (dataset, (afterHeader + length)%N))
        else ret (Continue (dataset, afterHeader))
      else
        (match VR with
         | None => consoleError (Text "Unhandled null VR, filereader.py:247")
         | Some _ => ret tt
         end) ;;;
        (if (match VR with
             | Some v => (String.eqb v "UN" || String.eqb v "SQ")%bool
             | None => false
             end)
         then consoleError (Text "Unhandled SQ, filereader.py:259")
         else consoleError
                (Text "Unhandled undefined length value, filereader.py:274")) ;;;
        ret (Continue (dataset, afterHeader)).

Definition resume (fuel : nat) (data : JS.Uint8Array)
  (elementPattern : Bufferpack.pattern) (isImplicitVR isLittleEndian : bool)
  (stopWhen : option StopWhenFunction) (c : control (Dataset * N))
  : M (Dataset * N) :=
  match c with
  | Break r => ret r
  | Continue (dataset, cursorPositionChange) =>
      readElements fuel data elementPattern isImplicitVR isLittleEndian
        stopWhen dataset cursorPositionChange
  end.

Lemma readElements_iteration (fuel : nat) (data : JS.Uint8Array)
  (elementPattern : Bufferpack.pattern) (isImplicitVR isLittleEndian : bool)
  (stopWhen : option StopWhenFunction) (ds : Dataset) (d : N) (l : log) :
  readElements (S fuel) data elementPattern isImplicitVR isLittleEndian
    stopWhen ds d l
  = bind (iteration data elementPattern isImplicitVR isLittleEndian stopWhen
            ds d)
      (resume fuel data elementPattern isImplicitVR isLittleEndian stopWhen) l.
Proof.
  cbn [readElements]. unfold iteration. cbv zeta.
  destruct (negb (size (getArrayRange data d 8) =? 8)%N); [reflexivity|].
  unfold bind.
  destruct (unpack data (getArrayRange data d 8) elementPattern isImplicitVR
              isLittleEndian d l)
    as [[[[[[g e] vr] len] cc]|x|] l1]; try reflexivity.
  destruct (match stopWhen with Some f => f g vr len | None => false end);
    [reflexivity|].
  destruct (negb (len =? UNDEFINED_LENGTH)%N).
  - destruct (0 <? len)%N; [|reflexivity].
    destruct (notNONE vr); [|reflexivity].
    destruct (getTagInfo _ _ _ _ _ l1) as [[info|x|] l2]; try reflexivity.
    destruct (createTag _ _ _ l2) as [[tag|x|] l3]; try reflexivity.
    destruct (getSafeKey ds (keyword tag) l3) as [[key|x|] l4]; reflexivity.
  - destruct vr as [v|]; unfold consoleError, ret; cbn [resume].
    + destruct (String.eqb_spec v "UN") as [->|Hun]; [reflexivity|].
      cbn [orb]. destruct (String.eqb v "SQ"); reflexivity.
    + reflexivity.
Qed.

(** Every header takes at least eight bytes. *)
Lemma unpack_cursorChange (data tagData : JS.Uint8Array)
  (elementPattern : Bufferpack.pattern) (isImplicitVR isLittleEndian : bool)
  (cursor : N) (l l' : log) (g e len cc : N) (vr : option string) :
  unpack data tagData elementPattern isImplicitVR isLittleEndian cursor l
  = (Return (g, e, vr, len, cc), l') ->
  (cc = 8 \/ cc = 12)%N.
Proof.
  unfold unpack, ret, throw.
  repeat match goal with
         | |- context [match ?x with _ => _ end] => destruct x
         end;
    intro H; try discriminate; injection H as <- <- <- <- <- <-; auto.
Qed.

(** *** Fuel *)

Definition ranOut {A : Type} (r : outcome A * log) : Prop :=
  match fst r with
  | OutOfFuel => True
  | _ => False
  end.

(** More fuel does not change a result that was reached. *)
Lemma readElements_fuel (data : JS.Uint8Array)
  (elementPattern : Bufferpack.pattern) (isImplicitVR isLittleEndian : bool)
  (stopWhen : option StopWhenFunction) :
  forall (fuel fuel' : nat) (ds : Dataset) (d : N) (l : log),
    fuel <= fuel' ->
    ~ ranOut (readElements fuel data elementPattern isImplicitVR
                isLittleEndian stopWhen ds d l) ->
    readElements fuel' data elementPattern isImplicitVR isLittleEndian
      stopWhen ds d l
    = readElements fuel data elementPattern isImplicitVR isLittleEndian
        stopWhen ds d l.
Proof.
  induction fuel as [|fuel IH]; intros fuel' ds d l Hle Hrun.
  - exfalso. apply Hrun. exact I.
  - destruct fuel' as [|fuel']; [lia|].
    rewrite !readElements_iteration in *. unfold bind in *.
    destruct (iteration data elementPattern isImplicitVR isLittleEndian
                stopWhen ds d l) as [[[r|[ds' d']]|x|] l1]; try reflexivity.
    cbn [resume] in *. apply IH; [lia|exact Hrun].
Qed.

(** A round that goes on has read a whole header, and moves the
    cursor past it. *)
Lemma iteration_Continue (data : JS.Uint8Array)
  (elementPattern : Bufferpack.pattern) (isImplicitVR isLittleEndian : bool)
  (stopWhen : option StopWhenFunction) (ds ds' : Dataset) (d d' : N)
  (l l' : log) :
  iteration data elementPattern isImplicitVR isLittleEndian stopWhen ds d l
  = (Return (Continue (ds', d')), l') ->
  (d + 8 <= size data /\ d + 8 <= d')%N.
Proof.
  unfold iteration. cbv zeta.
  destruct (N.eqb_spec (size (getArrayRange data d 8)) 8) as [Hsize|Hsize];
    cbn [negb]; [|discriminate].
  rewrite size_getArrayRange in Hsize.
  unfold bind.
  destruct (unpack data (getArrayRange data d 8) elementPattern isImplicitVR
              isLittleEndian d l)
    as [[[[[[g e] vr] len] cc]|x|] l1] eqn:Hunpack; try discriminate.
  apply unpack_cursorChange in Hunpack.
  destruct (match stopWhen with Some f => f g vr len | None => false end);
    [discriminate|].
  destruct (negb (len =? UNDEFINED_LENGTH)%N).
  - destruct (0 <? len)%N.
    + destruct (notNONE vr).
      * destruct (getTagInfo _ _ _ _ _ l1) as [[info|x|] l2]; try discriminate.
        destruct (createTag _ _ _ l2) as [[tag|x|] l3]; try discriminate.
        destruct (getSafeKey ds (keyword tag) l3) as [[key|x|] l4];
          try discriminate.
        intro H. injection H as _ <- _. lia.
      * intro H. injection H as _ <- _. lia.
    + intro H. injection H as _ <- _. lia.
  - match goal with
    | |- (match ?m with _ => _ end) = _ -> _ =>
        destruct m as [[u|x|] l2]; try discriminate
    end.
    match goal with
    | |- (match ?m with _ => _ end) = _ -> _ =>
        destruct m as [[u'|x|] l3]; try discriminate
    end.
    intro H. injection H as _ <- _. lia.
Qed.

Ltac destruct_matches :=
  repeat match goal with
         | |- context [match ?x with _ => _ end] => destruct x
         end.

Lemma ranOut_intro {A : Type} (r : outcome A * log) :
  (forall l, r <> (OutOfFuel, l)) -> ~ ranOut r.
Proof.
  destruct r as [[a|x|] l]; unfold ranOut; simpl; try tauto.
  intros H _. now apply (H l).
Qed.

Lemma unpack_returns (data tagData : JS.Uint8Array)
  (elementPattern : Bufferpack.pattern) (isImplicitVR isLittleEndian : bool)
  (cursor : N) (l : log) :
  ~ ranOut (unpack data tagData elementPattern isImplicitVR isLittleEndian
              cursor l).
Proof.
  apply ranOut_intro. intro l'. unfold unpack, ret, throw.
  destruct_matches; discriminate.
Qed.

Lemma getTagInfo_returns (raw : JS.Uint8Array) (len g e : N)
  (vr : option string) (l : log) :
  ~ ranOut (getTagInfo raw len g e vr l).
Proof.
  apply ranOut_intro. intro l'. unfold getTagInfo, ret, throw.
  destruct_matches; discriminate.
Qed.

Lemma createTag_returns (g e : N) (v : ITagValues) (l : log) :
  ~ ranOut (createTag g e v l).
Proof.
  unfold createTag, ranOut.
  destruct (getHexRepresentation g e) as [hg he].
  destruct (negb (g mod 2 =? 0)%N); [simpl; tauto|].
  unfold bind.
  destruct (truthyVR (valuesVR v)); [simpl; tauto|].
  destruct (if String.eqb he "0000" then _ else _); simpl; tauto.
Qed.

Lemma iteration_returns (data : JS.Uint8Array)
  (elementPattern : Bufferpack.pattern) (isImplicitVR isLittleEndian : bool)
  (stopWhen : option StopWhenFunction) (ds : Dataset) (d : N) (l : log) :
  ~ ranOut (iteration data elementPattern isImplicitVR isLittleEndian stopWhen
              ds d l).
Proof.
  unfold iteration. cbv zeta.
  destruct (negb (size (getArrayRange data d 8) =? 8)%N);
    [unfold ranOut; simpl; tauto|].
  unfold bind.
  pose proof (unpack_returns data (getArrayRange data d 8) elementPattern
                isImplicitVR isLittleEndian d l) as Hunpack.
  destruct (unpack data (getArrayRange data d 8) elementPattern isImplicitVR
              isLittleEndian d l)
    as [[[[[[g e] vr] len] cc]|x|] l1]; try exact Hunpack.
  destruct (match stopWhen with Some f => f g vr len | None => false end);
    [unfold ranOut; simpl; tauto|].
  destruct (negb (len =? UNDEFINED_LENGTH)%N).
  - destruct (0 <? len)%N; [|unfold ranOut; simpl; tauto].
    destruct (notNONE vr); [|unfold ranOut; simpl; tauto].
    pose proof (getTagInfo_returns (getArrayRange data (d + cc) len) len g e
                  vr l1) as Hinfo.
    destruct (getTagInfo _ _ _ _ _ l1) as [[info|x|] l2]; try exact Hinfo.
    match goal with
    | |- context [createTag ?a ?b ?c l2] =>
        pose proof (createTag_returns a b c l2) as Htag;
        destruct (createTag a b c l2) as [[tag|x|] l3]; try exact Htag
    end.
    destruct (getSafeKey_spec ds (keyword tag) l3) as [n [_ [-> _]]].
    unfold ranOut; simpl; tauto.
  - destruct vr as [v|]; unfold consoleError, ret, ranOut;
      repeat match goal with
             | |- context [if ?x then _ else _] => destruct x
             end; simpl; tauto.
Qed.

(** The loop returns (or throws) within [S (length data)] rounds. *)
Lemma readElements_returns (data : JS.Uint8Array)
  (elementPattern : Bufferpack.pattern) (isImplicitVR isLittleEndian : bool)
  (stopWhen : option StopWhenFunction) :
  forall (fuel : nat) (ds : Dataset) (d : N) (l : log),
    1 <= fuel -> (size data < d + N.of_nat fuel)%N ->
    ~ ranOut (readElements fuel data elementPattern isImplicitVR
                isLittleEndian stopWhen ds d l).
Proof.
  induction fuel as [|fuel IH]; intros ds d l H1 Hlt; [lia|].
  rewrite readElements_iteration. unfold bind.
  pose proof (iteration_returns data elementPattern isImplicitVR
                isLittleEndian stopWhen ds d l) as Hit.
  destruct (iteration data elementPattern isImplicitVR isLittleEndian
              stopWhen ds d l) as [[[r|[ds' d']]|x|] l1] eqn:E;
    try (unfold ranOut; simpl; tauto).
  apply iteration_Continue in E. cbn [resume].
  apply IH; lia.
Qed.

Lemma _isImplicitVr_returns (bytes : JS.Uint8Array) (cursor : N)
  (assumed le isSequence : bool) (stopWhen : option StopWhenFunction)
  (l : log) :
  exists r, _isImplicitVr bytes cursor assumed le isSequence stopWhen l = (r, l)
            /\ r <> OutOfFuel.
Proof.
  unfold _isImplicitVr, ret, throw.
  repeat match goal with
         | |- context [match ?x with _ => _ end] => destruct x
         end; eexists; split; try reflexivity; discriminate.
Qed.

(** [readDataset] returns or throws: the fuel of the model is never
    exhausted. *)
Lemma readDataset_returns (bytes : JS.Uint8Array) (cursor : N)
  (assumed le : bool) (stopWhen : option StopWhenFunction) (l : log) :
  ~ ranOut (readDataset bytes cursor assumed le stopWhen l).
Proof.
  unfold readDataset, bind.
  destruct (_isImplicitVr_returns bytes cursor assumed le true stopWhen l)
    as [r [-> Hr]].
  destruct r as [implicit|x|]; [|unfold ranOut; simpl; tauto|congruence].
  pose proof (readElements_returns (snd (splitArray bytes cursor))
                (getEndianPattern le implicit) implicit le stopWhen
                (S (List.length (snd (splitArray bytes cursor)))) [] 0 l)
    as Hloop.
  destruct (readElements _ _ _ _ _ _ _ _ l) as [[[ds d]|x|] l1];
    try (unfold ranOut; simpl; tauto).
  apply Hloop; [lia|unfold size; lia].
Qed.

(** ** Keys of a dataset *)

Definition keywords (ds : Dataset) : list string :=
  map (fun t => keyword t) (values ds).

(** The keys that a run of keywords receives when [seen] lists the
    keywords met before: each keyword is suffixed with its occurrence
    number. *)
Fixpoint numberedFrom (seen kws : list string) : list string :=
  match kws with
  | [] => []
  | k :: rest =>
      suffixed k (S (count_occ string_dec seen k)) :: numberedFrom (k :: seen) rest
  end.

Definition Numbered (ds : Dataset) : Prop :=
  keys ds = numberedFrom [] (keywords ds).

Lemma numberedFrom_snoc (kws seen : list string) (k : string) :
  numberedFrom seen (kws ++ [k])
  = numberedFrom seen kws
    ++ [suffixed k (S (count_occ string_dec seen k + count_occ string_dec kws k))].
Proof.
  revert seen; induction kws as [|k0 kws IH]; intro seen.
  - simpl. now rewrite Nat.add_0_r.
  - cbn [numberedFrom app]. rewrite IH.
    assert (Hc : count_occ string_dec (k0 :: seen) k + count_occ string_dec kws k
                 = count_occ string_dec seen k
                   + count_occ string_dec (k0 :: kws) k)
      by (simpl; destruct (string_dec k0 k); lia).
    now rewrite Hc.
Qed.

Lemma In_numberedFrom (kws seen : list string) (k : string) (m : nat) :
  In (suffixed k m) (numberedFrom seen kws)
  <-> count_occ string_dec seen k < m
      <= count_occ string_dec seen k + count_occ string_dec kws k.
Proof.
  revert seen; induction kws as [|k0 kws IH]; intro seen; simpl.
  - split; [tauto|lia].
  - rewrite IH. simpl. destruct (string_dec k0 k) as [->|Hne].
    + split.
      * intros [H|H]; [apply suffixed_inj in H as [_ <-]|]; lia.
      * intro H.
        destruct (Nat.eq_dec m (S (count_occ string_dec seen k)))
          as [->|Hm]; [now left|right; lia].
    + split.
      * intros [H|H]; [apply suffixed_inj in H as [Hk _]; contradiction|lia].
      * intro H. right. lia.
Qed.

Lemma numberedFrom_repeat (k : string) (n : nat) (seen : list string) :
  numberedFrom seen (repeat k n)
  = map (fun i => suffixed k (count_occ string_dec seen k + i)) (seq 1 n).
Proof.
  revert seen; induction n as [|n IH]; intro seen; simpl; [reflexivity|].
  rewrite IH. rewrite Nat.add_1_r. f_equal.
  rewrite <- (seq_shift n 1), map_map. apply map_ext. intro i. simpl.
  destruct (string_dec k k); [|contradiction]. f_equal. lia.
Qed.

(** Every key of a numbered dataset is its element's keyword with a
    suffix; the bare keyword is not among them. *)
Lemma numberedFrom_suffixed (kws seen : list string) (key : string) :
  In key (numberedFrom seen kws) ->
  exists k n, In k kws /\ 1 <= n /\ key = suffixed k n.
Proof.
  revert seen; induction kws as [|k0 kws IH]; intro seen; simpl; [tauto|].
  intros [<-|H].
  - exists k0, (S (count_occ string_dec seen k0)). repeat split; [auto|lia].
  - apply IH in H as [k [n [Hin [Hn ->]]]]. exists k, n. auto.
Qed.

(** The insertion [dataset[getSafeKey(dataset, tag.keyword)] = tag]
    keeps a dataset numbered, and the new element goes last under its
    keyword suffixed with its occurrence number. *)
Lemma Numbered_insert (ds : Dataset) (tag : ITag jsvalue) (key : string)
  (l l' : log) :
  Numbered ds ->
  getSafeKey ds (keyword tag) l = (Return key, l') ->
  key = suffixed (keyword tag)
          (S (count_occ string_dec (keywords ds) (keyword tag)))
  /\ set ds key tag = ds ++ [(key, tag)]
  /\ Numbered (set ds key tag).
Proof.
  intros Hnum Hkey.
  destruct (getSafeKey_spec ds (keyword tag) l) as [n [Hn [Heq [Hfree Hbelow]]]].
  rewrite Heq in Hkey. injection Hkey as <- <-.
  assert (Hcount : n = S (count_occ string_dec (keywords ds) (keyword tag))).
  { assert (Hin : forall m, has ds (suffixed (keyword tag) m) = true
                     <-> 0 < m <= count_occ string_dec (keywords ds) (keyword tag)).
    { intro m. rewrite has_In, Hnum, In_numberedFrom. simpl. lia. }
    destruct (Nat.lt_trichotomy n
                (S (count_occ string_dec (keywords ds) (keyword tag))))
      as [Hlt|[Heq'|Hgt]]; [exfalso|exact Heq'|exfalso].
    - assert (has ds (suffixed (keyword tag) n) = true) by (apply Hin; lia).
      congruence.
    - assert (Hprev : has ds (suffixed (keyword tag) (n - 1)) = true)
        by (apply Hbelow; lia).
      apply Hin in Hprev. lia. }
  split; [now rewrite Hcount|].
  rewrite (set_fresh ds _ tag Hfree). split; [reflexivity|].
  unfold Numbered, keywords in *.
  rewrite keys_app, values_app, map_app. simpl.
  rewrite numberedFrom_snoc, <- Hnum, Hcount. reflexivity.
Qed.

Lemma readElements_Numbered (fuel : nat) (data : JS.Uint8Array)
  (elementPattern : Bufferpack.pattern) (isImplicitVR isLittleEndian : bool)
  (stopWhen : option StopWhenFunction) (ds ds' : Dataset) (d d' : N)
  (l l' : log) :
  Numbered ds ->
  readElements fuel data elementPattern isImplicitVR isLittleEndian stopWhen
    ds d l = (Return (ds', d'), l') ->
  Numbered ds'.
Proof.
  intros Hnum H.
  apply (readElements_invariant (fun ds _ => Numbered ds) data elementPattern
           isImplicitVR isLittleEndian stopWhen) with (3 := Hnum) (4 := H).
  - auto.
  - intros ds0 d0 cc len tag key l0 l0' H0 _ _ _ Hkey.
    now destruct (Numbered_insert ds0 tag key l0 l0' H0 Hkey) as [_ [_ Hn]].
Qed.

(** What [readDataset] returns is what its loop returns from the
    empty dataset, with the cursor made absolute. *)
Lemma readDataset_elements (bytes : JS.Uint8Array) (cursor : N)
  (assumed le : bool) (stopWhen : option StopWhenFunction)
  (l l' : log) (ds : Dataset) (c : N) :
  readDataset bytes cursor assumed le stopWhen l = (Return (ds, c), l') ->
  exists implicit d,
    let data := dropN cursor bytes in
    readElements (S (List.length data)) data (getEndianPattern le implicit)
      implicit le stopWhen [] 0 l = (Return (ds, d), l')
    /\ c = (cursor + d)%N.
Proof.
  unfold readDataset, bind. simpl snd.
  destruct (_isImplicitVr_returns bytes cursor assumed le true stopWhen l)
    as [r [-> _]].
  destruct r as [implicit|x|]; try discriminate.
  destruct (readElements _ _ _ _ _ _ _ _ l) as [[[ds0 d0]|x|] l1] eqn:E;
    try discriminate.
  intro H. injection H as <- <- <-. exists implicit, d0. split; [exact E|reflexivity].
Qed.

(** *** The elements a read creates *)

(** The elements that the loop creates from the header at [d] on, in
    the order of the buffer, and the cursor at which it stops.  Each
    round is run on an empty dataset of its own, where it leaves the
    element it has created, if any, so that no key taken earlier is in
    its way. *)
Fixpoint elementsRead (fuel : nat) (data : JS.Uint8Array)
  (elementPattern : Bufferpack.pattern) (isImplicitVR isLittleEndian : bool)
  (stopWhen : option StopWhenFunction) (d : N)
  : M (list (ITag jsvalue) * N) :=
  match fuel with
  | O => outOfFuel
  | S fuel' =>
      c <- iteration data elementPattern isImplicitVR isLittleEndian stopWhen
             [] d ;;
      match c with
      | Break _ => ret ([], d)
      | Continue (one, d') =>
          '(rest, stop) <-
            elementsRead fuel' data elementPattern isImplicitVR isLittleEndian
              stopWhen d' ;;
          ret (values one ++ rest, stop)
      end
  end.

(** The elements that [readDataset] creates on its way, in the order
    of the buffer. *)
Definition elementsCreated (bytes : JS.Uint8Array) (cursor : N)
  (isImplicitVRAssumed isLittleEndian : bool)
  (stopWhen : option StopWhenFunction) : M (list (ITag jsvalue)) :=
  let data := snd (splitArray bytes cursor) in
  isImplicitVR <- _isImplicitVr bytes cursor isImplicitVRAssumed
                    isLittleEndian true stopWhen ;;
  let elementPattern := getEndianPattern isLittleEndian isImplicitVR in
  '(tags, _) <-
    elementsRead (S (List.length data)) data elementPattern isImplicitVR
      isLittleEndian stopWhen 0%N ;;
  ret tags.

(** The entries that a run of elements makes when each goes under its
    keyword suffixed with its occurrence number, [seen] listing the
    keywords met before. *)
Definition numbered (seen : list string) (tags : list (ITag jsvalue))
  : Dataset :=
  combine (numberedFrom seen (map (fun t => keyword t) tags)) tags.

Lemma numberedFrom_ext (kws seen seen' : list string) :
  (forall k, count_occ string_dec seen k = count_occ string_dec seen' k) ->
  numberedFrom seen kws = numberedFrom seen' kws.
Proof.
  revert seen seen'; induction kws as [|k kws IH]; intros seen seen' H; simpl.
  - reflexivity.
  - rewrite (H k). f_equal. apply IH.
    intro k'. simpl. rewrite (H k'). reflexivity.
Qed.

Lemma length_numberedFrom (kws seen : list string) :
  List.length (numberedFrom seen kws) = List.length kws.
Proof.
  revert seen; induction kws as [|k kws IH]; intro seen; simpl; auto.
Qed.

Lemma keys_numbered (seen : list string) (tags : list (ITag jsvalue)) :
  keys (numbered seen tags)
  = numberedFrom seen (map (fun t => keyword t) tags).
Proof.
  unfold keys, numbered.
  generalize (length_numberedFrom (map (fun t => keyword t) tags) seen).
  rewrite length_map.
  generalize (numberedFrom seen (map (fun t => keyword t) tags)) as ks.
  induction tags as [|t tags IH]; intros [|k ks] H; simpl in *;
    try discriminate; [reflexivity|].
  f_equal. apply IH. lia.
Qed.

Lemma values_numbered (seen : list string) (tags : list (ITag jsvalue)) :
  values (numbered seen tags) = tags.
Proof.
  unfold values, numbered.
  generalize (length_numberedFrom (map (fun t => keyword t) tags) seen).
  rewrite length_map.
  generalize (numberedFrom seen (map (fun t => keyword t) tags)) as ks.
  induction tags as [|t tags IH]; intros [|k ks] H; simpl in *;
    try discriminate; [reflexivity|].
  f_equal. apply IH. lia.
Qed.

(** A round of the loop on a dataset [ds] does what it does on the
    empty dataset, except that the element it creates goes under the
    key that [getSafeKey] finds in [ds]. *)
Lemma iteration_on_empty (data : JS.Uint8Array)
  (elementPattern : Bufferpack.pattern) (isImplicitVR isLittleEndian : bool)
  (stopWhen : option StopWhenFunction) (ds : Dataset) (d : N) (l : log) :
  match iteration data elementPattern isImplicitVR isLittleEndian stopWhen
          [] d l with
  | (Return (Break _), l') =>
      iteration data elementPattern isImplicitVR isLittleEndian stopWhen ds d l
      = (Return (Break (ds, d)), l')
  | (Return (Continue (one, d')), l') =>
      (one = []
       /\ iteration data elementPattern isImplicitVR isLittleEndian stopWhen
            ds d l
          = (Return (Continue (ds, d')), l'))
      \/ (exists k tag key,
             one = [(k, tag)]
             /\ getSafeKey ds (keyword tag) l' = (Return key, l')
             /\ iteration data elementPattern isImplicitVR isLittleEndian
                  stopWhen ds d l
                = (Return (Continue (set ds key tag, d')), l'))
  | (Throw x, l') =>
      iteration data elementPattern isImplicitVR isLittleEndian stopWhen ds d l
      = (Throw x, l')
  | (OutOfFuel, l') =>
      iteration data elementPattern isImplicitVR isLittleEndian stopWhen ds d l
      = (OutOfFuel, l')
  end.
Proof.
  unfold iteration. cbv zeta.
  destruct (negb (size (getArrayRange data d 8) =? 8)%N); [reflexivity|].
  unfold bind.
  destruct (unpack data (getArrayRange data d 8) elementPattern isImplicitVR
              isLittleEndian d l)
    as [[[[[[g e] vr] len] cc]|x|] l1]; try reflexivity.
  destruct (match stopWhen with Some f => f g vr len | None => false end);
    [reflexivity|].
  destruct (negb (len =? UNDEFINED_LENGTH)%N).
  - destruct (0 <? len)%N; [|left; split; reflexivity].
    destruct (notNONE vr); [|left; split; reflexivity].
    destruct (getTagInfo _ _ _ _ _ l1) as [[info|x|] l2]; try reflexivity.
    destruct (createTag _ _ _ l2) as [[tag|x|] l3]; try reflexivity.
    destruct (getSafeKey_spec ds (keyword tag) l3) as [n [_ [Hkey _]]].
    destruct (getSafeKey_spec (@nil (string * ITag jsvalue)) (keyword tag) l3)
      as [m [_ [Hkey0 _]]].
    rewrite Hkey, Hkey0. unfold ret. right.
    exists (suffixed (keyword tag) m), tag, (suffixed (keyword tag) n).
    split; [reflexivity|]. split; [exact Hkey|reflexivity].
  - destruct vr as [v|]; unfold consoleError, ret.
    + destruct (String.eqb v "UN" || String.eqb v "SQ")%bool;
        left; split; reflexivity.
    + left; split; reflexivity.
Qed.

(** The loop files the elements it creates one after the other, each
    under its keyword suffixed with its occurrence number: what it
    returns from a dataset [ds] is [ds] followed by those entries. *)
Lemma readElements_elementsRead (data : JS.Uint8Array)
  (elementPattern : Bufferpack.pattern) (isImplicitVR isLittleEndian : bool)
  (stopWhen : option StopWhenFunction) (fuel : nat) :
  forall (ds : Dataset) (d : N) (l : log),
    Numbered ds ->
    readElements fuel data elementPattern isImplicitVR isLittleEndian stopWhen
      ds d l
    = mapOutcome
        (fun r => (ds ++ numbered (keywords ds) (fst r), snd r))
        (elementsRead fuel data elementPattern isImplicitVR isLittleEndian
           stopWhen d l).
Proof.
  induction fuel as [|fuel IH]; intros ds d l Hnum; [reflexivity|].
  rewrite readElements_iteration. cbn [elementsRead]. unfold bind.
  pose proof (iteration_on_empty data elementPattern isImplicitVR
                isLittleEndian stopWhen ds d l) as H.
  destruct (iteration data elementPattern isImplicitVR isLittleEndian stopWhen
              [] d l) as [[[[one0 d0]|[one d1]]|x|] l1].
  - rewrite H. cbn [resume ret mapOutcome fst snd]. unfold ret.
    cbn [mapOutcome fst snd]. unfold numbered. cbn [map numberedFrom combine].
    now rewrite app_nil_r.
  - destruct H as [[-> H]|[k [tag [key [-> [Hkey H]]]]]]; rewrite H;
      cbn [resume].
    + rewrite (IH ds d1 l1 Hnum).
      destruct (elementsRead fuel data elementPattern isImplicitVR
                  isLittleEndian stopWhen d1 l1) as [[[rest stop]|x|] l2];
        reflexivity.
    + destruct (Numbered_insert ds tag key l1 l1 Hnum Hkey)
        as [Hk [Hset Hnum']].
      rewrite Hset in *. rewrite (IH _ d1 l1 Hnum').
      destruct (elementsRead fuel data elementPattern isImplicitVR
                  isLittleEndian stopWhen d1 l1) as [[[rest stop]|x|] l2];
        try reflexivity.
      assert (Hext : forall kws,
                 numberedFrom (keywords (ds ++ [(key, tag)])) kws
                 = numberedFrom (keyword tag :: keywords ds) kws).
      { intro kws. apply numberedFrom_ext.
        intro k'. unfold keywords. rewrite values_app, map_app.
        rewrite count_occ_app. simpl.
        destruct (string_dec (keyword tag) k'); lia. }
      unfold ret. cbn [mapOutcome fst snd values map app].
      rewrite <- app_assoc. unfold numbered.
      cbn [map numberedFrom combine app].
      rewrite Hext, <- Hk. reflexivity.
  - rewrite H. reflexivity.
  - rewrite H. reflexivity.
Qed.

(** What [readDataset] returns, from the elements that its loop
    creates: the VR mode is the answer of [_isImplicitVr], the dataset
    holds the elements in their order, each under its keyword suffixed
    with its occurrence number, and the cursor is the one at which the
    loop stopped. *)
Lemma readDataset_trace (bytes : JS.Uint8Array) (cursor : N)
  (assumed le : bool) (stopWhen : option StopWhenFunction)
  (l l' : log) (ds : Dataset) (c : N) :
  readDataset bytes cursor assumed le stopWhen l = (Return (ds, c), l') ->
  exists implicit tags stop,
    let data := dropN cursor bytes in
    _isImplicitVr bytes cursor assumed le true stopWhen l = (Return implicit, l)
    /\ elementsRead (S (List.length data)) data (getEndianPattern le implicit)
         implicit le stopWhen 0 l
       = (Return (tags, stop), l')
    /\ ds = numbered [] tags
    /\ c = (cursor + stop)%N.
Proof.
  unfold readDataset, bind. simpl snd.
  destruct (_isImplicitVr_returns bytes cursor assumed le true stopWhen l)
    as [r [Hr _]]. rewrite Hr.
  destruct r as [implicit|x|]; try discriminate.
  rewrite (readElements_elementsRead _ _ _ _ _ _ [] 0%N l eq_refl).
  destruct (elementsRead _ _ _ _ _ _ _ l) as [[[tags stop]|x|] l1] eqn:E;
    try discriminate.
  cbn [mapOutcome fst snd app]. intro H. injection H as <- <- <-.
  exists implicit, tags, stop. cbv zeta. auto.
Qed.

(** The dataset that [readDataset] returns is made of the elements it
    has created, in their order, each under its keyword suffixed with
    its occurrence number. *)
Lemma readDataset_created (bytes : JS.Uint8Array) (cursor : N)
  (assumed le : bool) (stopWhen : option StopWhenFunction)
  (l l' : log) (ds : Dataset) (c : N) :
  readDataset bytes cursor assumed le stopWhen l = (Return (ds, c), l') ->
  exists tags,
    elementsCreated bytes cursor assumed le stopWhen l = (Return tags, l')
    /\ ds = numbered [] tags.
Proof.
  intro H.
  apply readDataset_trace in H as [implicit [tags [stop [Hi [Ht [-> _]]]]]].
  exists tags. split; [|reflexivity].
  unfold elementsCreated, bind. simpl snd. rewrite Hi, Ht. reflexivity.
Qed.

(** The keys of the elements of one keyword, in a run of numbered
    entries. *)
Lemma keys_of_keyword (k : string) (tags : list (ITag jsvalue)) :
  forall seen,
    keys (filter (fun kt => String.eqb (keyword (snd kt)) k)
            (numbered seen tags))
    = map (suffixed k)
        (seq (S (count_occ string_dec seen k))
           (count_occ string_dec (map (fun t => keyword t) tags) k)).
Proof.
  unfold numbered, keys.
  induction tags as [|t tags IH]; intro seen; [reflexivity|].
  cbn [map numberedFrom combine filter snd].
  specialize (IH (keyword t :: seen)).
  cbn [count_occ] in *.
  destruct (String.eqb_spec (keyword t) k) as [Heq|Hne];
    destruct (string_dec (keyword t) k) as [Heq'|Hne'];
    try contradiction.
  - cbn [map fst seq]. rewrite IH, Heq. reflexivity.
  - exact IH.
Qed.

(** C9.  The dataset that [readDataset] returns holds the elements it
    has created under their keywords suffixed with their occurrence
    numbers, in the order of insertion: for every keyword k, the
    elements of keyword k sit, in their order, under k-1, ..., k-n,
    where n is their number.  In particular, when the elements
    created are n elements of one keyword k, the keys of the dataset
    are k-1, ..., k-n; and no element sits under its bare keyword. *)
Theorem readDataset_keys_numbered (bytes : JS.Uint8Array) (cursor : N)
  (assumed le : bool) (stopWhen : option StopWhenFunction)
  (l l' : log) (ds : Dataset) (c : N) :
  readDataset bytes cursor assumed le stopWhen l = (Return (ds, c), l') ->
  exists tags,
    elementsCreated bytes cursor assumed le stopWhen l = (Return tags, l')
    /\ keys ds = numberedFrom [] (map (fun t => keyword t) tags)
    /\ (forall k,
           keys (filter (fun kt => String.eqb (keyword (snd kt)) k) ds)
           = map (suffixed k)
               (seq 1 (count_occ string_dec (map (fun t => keyword t) tags) k)))
    /\ (forall k n,
           map (fun t => keyword t) tags = repeat k n ->
           keys ds = map (suffixed k) (seq 1 n))
    /\ (forall key tag, In (key, tag) ds -> key <> keyword tag).
Proof.
  intro H. apply readDataset_created in H as [tags [Htags ->]].
  exists tags. split; [exact Htags|].
  split; [apply keys_numbered|]. split; [|split].
  - intro k. apply (keys_of_keyword k tags []).
  - intros k n Hk. rewrite keys_numbered, Hk, numberedFrom_repeat.
    apply map_ext. intro i. reflexivity.
  - intros key tag Hin Heq.
    assert (Hgen : forall (es : list (ITag jsvalue)) seen,
               In (key, tag) (numbered seen es) ->
               exists n, key = suffixed (keyword tag) n).
    { induction es as [|t0 rest IH]; intros seen Hi; [destruct Hi|].
      unfold numbered in Hi. cbn [map numberedFrom combine] in Hi.
      destruct Hi as [Hi|Hi].
      - injection Hi as <- <-. eexists. reflexivity.
      - eapply IH. exact Hi. }
    destruct (Hgen tags [] Hin) as [n Hn].
    rewrite Heq in Hn. unfold suffixed in Hn.
    apply (f_equal String.length) in Hn.
    rewrite length_append in Hn. simpl in Hn. lia.
Qed.

(** ** The transfer syntax lookup *)

Lemma Numbered_get_no_dash (ds : Dataset) (key : string) :
  Numbered ds -> hasDash key = false -> get ds key = None.
Proof.
  intros Hnum Hdash.
  destruct (get ds key) as [t|] eqn:E; [exfalso|reflexivity].
  assert (Hin : In key (keys ds)) by (apply has_In; unfold has; now rewrite E).
  rewrite Hnum in Hin.
  apply numberedFrom_suffixed in Hin as [k [n [_ [_ ->]]]].
  rewrite hasDash_suffixed in Hdash. discriminate.
Qed.

(** The File Meta Information holds its elements under suffixed
    keywords, never under a tag string. *)
Lemma readFileMetaInfo_no_tag_key (bytes : JS.Uint8Array) (cursor : N)
  (l l' : log) (fileMetaInfo : Dataset) (c : N) :
  readFileMetaInfo bytes cursor l = (Return (fileMetaInfo, c), l') ->
  get fileMetaInfo "00020010" = None.
Proof.
  unfold readFileMetaInfo. intro H.
  apply readDataset_elements in H as [implicit [d [H _]]].
  apply readElements_Numbered in H; [|reflexivity].
  now apply Numbered_get_no_dash.
Qed.

(** C1, as the code has it.  Whatever the File Meta Information
    holds, [readFile] looks the transfer syntax up under the key
    [00020010], which no dataset has: the flags of the dataset it
    returns are those that [readOrGuessIsImplicitVrAndIsLittleEndian]
    gives without a transfer syntax, from the first bytes at the start
    of the main dataset. *)
Theorem readFile_flags_from_probe (bytes : JS.Uint8Array) (l l' : log)
  (full : FullDataset) :
  readFile bytes l = (Return full, l') ->
  exists preamble c0 l0 fileMetaInfo c1 l1 commandSetElements datasetStart l2,
    readPreamble bytes l = (Return (preamble, c0), l0)
    /\ readFileMetaInfo bytes c0 l0 = (Return (fileMetaInfo, c1), l1)
    /\ get fileMetaInfo "00020010" = None
    /\ readCommandSetElements bytes c1 l1
       = (Return (commandSetElements, datasetStart), l2)
    /\ readOrGuessIsImplicitVrAndIsLittleEndian bytes datasetStart None l2
       = (Return (isImplicitVR full, isLittleEndian full), l2).
Proof.
  unfold readFile, readFileAfterPreamble, bind.
  destruct (readPreamble bytes l) as [[[preamble c0]|x|] l0]; try discriminate.
  destruct (readFileMetaInfo bytes c0 l0) as [[[fmi c1]|x|] l1] eqn:Hfmi;
    try discriminate.
  pose proof (readFileMetaInfo_no_tag_key _ _ _ _ _ _ Hfmi) as Hget.
  rewrite Hget.
  destruct (readCommandSetElements bytes c1 l1) as [[[cse c2]|x|] l2] eqn:Hcse;
    try discriminate.
  destruct (readOrGuessIsImplicitVrAndIsLittleEndian bytes c2 None l2)
    as [[[imp le]|x|] l3] eqn:Hguess; try discriminate.
  destruct (readDataset bytes c2 imp le None l3) as [[[ds c3]|x|] l4];
    try discriminate.
  intro H. injection H as <- <-. cbn [isImplicitVR isLittleEndian].
  exists preamble, c0, l0, fmi, c1, l1, cse, c2, l2.
  repeat split; try reflexivity; try assumption.
  rewrite Hguess. f_equal.
  revert Hguess. unfold readOrGuessIsImplicitVrAndIsLittleEndian, ret, throw.
  destruct_matches; intro H; try discriminate; now injection H.
Qed.

(** ** Payload lengths *)

Lemma Forall_values_set {A : Type} (Q : A -> Prop) (object : Record_ A)
  (key : string) (v : A) :
  Forall Q (values object) -> Q v -> Forall Q (values (set object key v)).
Proof.
  unfold values. induction object as [|[k w] rest IH]; simpl; intros H Hv.
  - constructor; [exact Hv|constructor].
  - inversion H as [|? ? Hw Hrest]; subst.
    destruct (String.eqb k key); simpl; constructor; auto.
Qed.

Lemma getArrayRange_dropN (bytes : JS.Uint8Array) (cursor offset range : N) :
  getArrayRange (dropN cursor bytes) offset range
  = getArrayRange bytes (cursor + offset) range.
Proof.
  rewrite !getArrayRange_firstn_skipn, dropN_skipn, skipn_skipn.
  do 2 f_equal. lia.
Qed.

Lemma size_dropN (bytes : JS.Uint8Array) (cursor : N) :
  size (dropN cursor bytes) = (size bytes - cursor)%N.
Proof. unfold size. rewrite dropN_skipn, length_skipn. lia. Qed.

(** ** Undefined and zero lengths *)

(** What the loop logs for a header of undefined length. *)
Definition undefinedLengthMessages (VR : option string) : list message :=
  match VR with
  | None =>
      [Text "Unhandled null VR, filereader.py:247";
       Text "Unhandled undefined length value, filereader.py:274"]
  | Some v =>
      if (String.eqb v "UN" || String.eqb v "SQ")%bool
      then [Text "Unhandled SQ, filereader.py:259"]
      else [Text "Unhandled undefined length value, filereader.py:274"]
  end.

(** C2, as the code has it.  When the loop of [readDataset] meets a
    header whose length is 0xFFFFFFFF it logs the condition, and when
    it meets a header of length zero it logs nothing; in both cases it
    consumes the header and goes on with the next header, so the read
    returns what it returns from that next header with the dataset
    built so far. *)
Theorem readElements_skips_header (data : JS.Uint8Array)
  (elementPattern : Bufferpack.pattern) (isImplicitVR isLittleEndian : bool)
  (stopWhen : option StopWhenFunction) (ds : Dataset) (d : N) (l l1 : log)
  (g e len cursorChange : N) (vr : option string) :
  size (getArrayRange data d 8) = 8%N ->
  unpack data (getArrayRange data d 8) elementPattern isImplicitVR
    isLittleEndian d l = (Return (g, e, vr, len, cursorChange), l1) ->
  (match stopWhen with Some f => f g vr len | None => false end) = false ->
  len = UNDEFINED_LENGTH \/ len = 0%N ->
  readElements (S (List.length data)) data elementPattern isImplicitVR
    isLittleEndian stopWhen ds d l
  = readElements (S (List.length data)) data elementPattern isImplicitVR
      isLittleEndian stopWhen ds (d + cursorChange)
      (if (len =? 0)%N then l1 else l1 ++ undefinedLengthMessages vr).
Proof.
  intros Hsize Hunpack Hstop Hlen.
  pose proof (unpack_cursorChange _ _ _ _ _ _ _ _ _ _ _ _ _ Hunpack) as Hcc.
  rewrite size_getArrayRange in Hsize.
  rewrite (readElements_iteration (List.length data)).
  assert (Hiter :
            iteration data elementPattern isImplicitVR isLittleEndian stopWhen
              ds d l
            = (Return (Continue (ds, (d + cursorChange)%N)),
               if (len =? 0)%N then l1 else l1 ++ undefinedLengthMessages vr)).
  { unfold iteration. cbv zeta.
    rewrite size_getArrayRange.
    replace (N.min 8 (size data - d) =? 8)%N with true
      by (symmetry; apply N.eqb_eq; exact Hsize).
    cbn [negb]. unfold bind at 1. rewrite Hunpack, Hstop.
    destruct Hlen as [-> | ->].
    - cbn [N.eqb UNDEFINED_LENGTH Pos.eqb negb].
      destruct vr as [v|]; unfold bind, consoleError, ret, undefinedLengthMessages.
      + destruct (String.eqb v "UN" || String.eqb v "SQ")%bool; reflexivity.
      + rewrite <- app_assoc. reflexivity.
    - reflexivity. }
  unfold bind. rewrite Hiter. cbn [resume].
  symmetry. apply readElements_fuel; [lia|].
  apply readElements_returns; unfold size in *; lia.
Qed.

End ReaderProperties.

(** * Worked examples, over the dictionary and converter of [SpecModel] *)

Section Examples.

Existing Instance SpecModel.environment.

(** ** C1: a big-endian file read as little endian *)

(** The File Meta Information of [Samples.bigEndianFile] names
    Explicit VR Big Endian, yet the main dataset is read as explicit
    VR little endian: the probe finds the VR [IS] and reads the group
    [20 00] as 0x0020, below 1024. *)
Example readFile_bigEndianFile :
  exists es,
    readFile Samples.bigEndianFile []
    = (Return {| entries := es; isLittleEndian := true; isImplicitVR := false |},
       []).
Proof. eexists. vm_compute. reflexivity. Qed.

Lemma readFile_flags_from_probe_witness :
  exists es,
    readFile Samples.bigEndianFile []
    = (Return {| entries := es; isLittleEndian := true; isImplicitVR := false |},
       [])
    /\ exists preamble c0 l0 fileMetaInfo c1 l1 commandSetElements datasetStart l2,
         readPreamble Samples.bigEndianFile [] = (Return (preamble, c0), l0)
         /\ readFileMetaInfo Samples.bigEndianFile c0 l0
            = (Return (fileMetaInfo, c1), l1)
         /\ get fileMetaInfo "00020010" = None
         /\ readCommandSetElements Samples.bigEndianFile c1 l1
            = (Return (commandSetElements, datasetStart), l2)
         /\ readOrGuessIsImplicitVrAndIsLittleEndian Samples.bigEndianFile
              datasetStart None l2
            = (Return (false, true), l2).
Proof.
  eexists. split.
  - vm_compute. reflexivity.
  - refine (readFile_flags_from_probe Samples.bigEndianFile [] []
              {| entries := _; isLittleEndian := true; isImplicitVR := false |}
              _).
    vm_compute. reflexivity.
Defined.

(** ** C8: a file without preamble *)

(** [Samples.threeNames] taken as a file has no DICM at offset 128:
    the error is logged and the three elements are read from offset
    0. *)
Lemma readPreamble_magic_witness :
  exists es,
    readFile Samples.threeNames []
    = (Return {| entries := es; isLittleEndian := true; isImplicitVR := false |},
       [MISSING_DICOM_FILE_META_INFORMATION_HEADER])
    /\ keys es = ["PatientName-1"; "PatientName-2"; "PatientName-3"].
Proof.
  destruct (readPreamble_magic Samples.threeNames [])
    as [c0 [l0 [[[Hmagic _]|[_ [_ [Hc0 Hl0]]]] [_ Hreads]]]].
  - vm_compute in Hmagic. discriminate Hmagic.
  - subst c0 l0.
    let r := eval vm_compute in
               (readDataset Samples.threeNames 0 false true None
                  [MISSING_DICOM_FILE_META_INFORMATION_HEADER]) in
    match r with
    | (Return (?ds, ?c3), ?l4) =>
        exists ds; split;
        [exact (Hreads [] 0%N _ [] 0%N _ false true _ ds c3 l4
                  eq_refl eq_refl eq_refl eq_refl)
        |reflexivity]
    end.
Defined.

(** ** C2: the read goes on after an undefined length *)

(** After the header of undefined length and the header of length
    zero, the element (0010,0020) is still read and returned. *)
Lemma readDataset_continues_after_undefined_length :
  exists t,
    readDataset Samples.undefinedThenZeroLength 0 true true None []
    = (Return ([("PatientID-1", t)], 28%N),
       [Text "Unhandled null VR, filereader.py:247";
        Text "Unhandled undefined length value, filereader.py:274"])
    /\ rawValue t = Samples.ascii "ID12".
Proof. eexists. split; vm_compute; reflexivity. Qed.

Lemma readElements_skips_header_witness :
  let data := Samples.undefinedThenZeroLength in
  let pattern := getEndianPattern true true in
  (size (getArrayRange data 0 8) = 8%N
   /\ unpack data (getArrayRange data 0 8) pattern true true 0 []
      = (Return (16%N, 16%N, None, UNDEFINED_LENGTH, 8%N), [])
   /\ UNDEFINED_LENGTH = UNDEFINED_LENGTH)
  /\ readElements (S (List.length data)) data pattern true true None [] 0 []
     = readElements (S (List.length data)) data pattern true true None [] 8
         [Text "Unhandled null VR, filereader.py:247";
          Text "Unhandled undefined length value, filereader.py:274"].
Proof.
  intros data pattern. split.
  - repeat split; reflexivity.
  - exact (readElements_skips_header data pattern true true None [] 0 [] []
             16 16 UNDEFINED_LENGTH 8 None eq_refl eq_refl eq_refl
             (or_introl eq_refl)).
Defined.

(** ** C3: exceptions that reach the caller *)

(** C3.  [getPixelData] throws a [TypeError] on a dataset that holds
    PixelData and no BitsAllocated (it reads [.value] of [undefined]);
    [readDataset] throws the [Error] of [getTagInfo] on an implicit-VR
    element (0000,0000), whose group and element are both falsy; and
    so does [readFile] on a file whose command set starts with that
    element. *)
Theorem exceptions_reach_the_caller :
  getPixelData Samples.datasetWithoutBitsAllocated [] = (Throw TypeError, [])
  /\ readDataset Samples.groupLengthElement 0 true true None []
     = (Throw Error, [])
  /\ readFile Samples.commandSetFile [] = (Throw Error, []).
Proof. repeat split; vm_compute; reflexivity. Qed.

(** ** C4: a payload cut short by the end of the buffer *)

Lemma readDataset_truncated_rawValue :
  exists t,
    readDataset Samples.truncatedElement 0 true true None []
    = (Return ([("PatientID-1", t)], 16%N), [])
    /\ length_ t = 8%N
    /\ size (rawValue t) = 3%N
    /\ size (rawValue t) <> length_ t.
Proof.
  eexists. split; [vm_compute; reflexivity|].
  repeat split; try reflexivity. discriminate.
Qed.

(** ** C5: the identity window *)

(** Grey level [n] as a colour string. *)
Definition grey (n : N) : string :=
  let value := JS.padStart (JS.toUpper (JS.toString 16 (JS.ofN n))) 2 "0" in
  ("#" ++ value ++ value ++ value)%string.

Lemma identity_window_128_is_7F :
  getPixelData
    (Samples.eightBitDataset 128 256 (Samples.raw [0; 128; 255]%N)) []
  = (Return (Some ["#000000"; "#7F7F7F"; "#FEFEFE"]), [])
  /\ Some ["#000000"; "#7F7F7F"; "#FEFEFE"]
     <> Some ["#000000"; "#808080"; "#FFFFFF"].
Proof. split; [vm_compute; reflexivity|discriminate]. Qed.

(** C5, as the code has it.  With an unsigned representation, slope
    1, intercept 0, centre 128, width 256 and MONOCHROME2, the window
    is [[0, 256]] and the scale 255/256: a pixel of value v comes out
    as the grey level floor(255 v / 256), so 0 gives #000000, 128
    gives #7F7F7F and 255 gives #FEFEFE. *)
Theorem identity_window_grey_levels :
  (forall b : byte,
      getPixelData (Samples.eightBitDataset 128 256 [b]) []
      = (Return (Some [grey (255 * Byte.to_N b / 256)]), []))
  /\ getPixelData
       (Samples.eightBitDataset 128 256 (Samples.raw [0; 128; 255]%N)) []
     = (Return (Some ["#000000"; "#7F7F7F"; "#FEFEFE"]), []).
Proof.
  split.
  - intro b. destruct b; vm_compute; reflexivity.
  - vm_compute. reflexivity.
Qed.

(** ** C6: signed pixels of one byte *)



(** ** C10: a stored window of zero *)

(** A centre of zero gives the colours of a centre of 610. *)
Example zero_centre_like_610 :
  getPixelData (Samples.eightBitDataset 0 2 (Samples.raw [0; 1; 2]%N)) []
  = getPixelData (Samples.eightBitDataset 610 2 (Samples.raw [0; 1; 2]%N)) []
  /\ getPixelData (Samples.eightBitDataset 0 2 (Samples.raw [0; 1; 2]%N)) []
     = (Return (Some ["#7F7F7F"; "#7F7F7F"; "#7F7F7F"]), []).
Proof. split; vm_compute; reflexivity. Qed.

(** ** C9: three elements of one keyword *)

Lemma readDataset_keys_numbered_witness :
  exists ds,
    readDataset Samples.threeNames 0 false true None [] = (Return (ds, 36%N), [])
    /\ keys ds = ["PatientName-1"; "PatientName-2"; "PatientName-3"].
Proof.
  let r := eval vm_compute in
             (readDataset Samples.threeNames 0 false true None []) in
  match r with
  | (Return (?ds, _), _) =>
      assert (Hread : readDataset Samples.threeNames 0 false true None []
                      = (Return (ds, 36%N), []))
        by (vm_compute; reflexivity);
      exists ds; split; [exact Hread|];
      destruct (readDataset_keys_numbered Samples.threeNames 0 false true
                  None [] [] ds 36 Hread)
        as [tags [Htags [_ [_ [Hrun _]]]]];
      vm_compute in Htags; injection Htags as <-;
      exact (Hrun "PatientName" 3 eq_refl)
  end.
Defined.

End Examples.

(** * Further properties of the reader *)

Section MoreProperties.

Context {environment : Environment}.

Arguments Break {A} a.
Arguments Continue {A} a.

Ltac case_matches :=
  repeat match goal with
         | |- context [match ?x with _ => _ end] => destruct x
         end.

(** ** Headers *)

(** Whether the stop predicate of a read fires on a header. *)
Definition fires (stopWhen : option StopWhenFunction) (group : N)
  (VR : option string) (length : N) : bool :=
  match stopWhen with
  | Some f => f group VR length
  | None => false
  end.

(** [unpack] writes no log record, and its answer does not depend on
    the log. *)
Lemma unpack_pure (data tagData : JS.Uint8Array)
  (elementPattern : Bufferpack.pattern) (isImplicitVR isLittleEndian : bool)
  (cursor : N) :
  exists r, forall l,
      unpack data tagData elementPattern isImplicitVR isLittleEndian cursor l
      = (r, l).
Proof.
  unfold unpack, ret, throw.
  case_matches; eexists; intro; reflexivity.
Qed.

Lemma unpack_log (data tagData : JS.Uint8Array)
  (elementPattern : Bufferpack.pattern) (isImplicitVR isLittleEndian : bool)
  (cursor : N) (l l' l0 : log) r :
  unpack data tagData elementPattern isImplicitVR isLittleEndian cursor l
  = (r, l') ->
  l' = l
  /\ unpack data tagData elementPattern isImplicitVR isLittleEndian cursor l0
     = (r, l0).
Proof.
  destruct (unpack_pure data tagData elementPattern isImplicitVR
              isLittleEndian cursor) as [r0 Hr].
  rewrite Hr. intro H. injection H as <- <-. split; [reflexivity|apply Hr].
Qed.

Lemma createTag_group (g e : N) (v : ITagValues) (l l' : log)
  (tag : ITag jsvalue) :
  createTag g e v l = (Return tag, l') ->
  group (representations tag) = g /\ element (representations tag) = e.
Proof.
  unfold createTag.
  destruct (getHexRepresentation g e) as [hg he].
  destruct (negb (g mod 2 =? 0)%N).
  - intro H. injection H as <- _. split; reflexivity.
  - unfold bind.
    destruct (truthyVR (valuesVR v)).
    + intro H. injection H as <- _. split; reflexivity.
    + destruct (if String.eqb he "0000" then _ else _).
      * intro H. injection H as <- _. split; reflexivity.
      * discriminate.
Qed.

(** What one round of the loop has done when it returns. *)
Lemma iteration_inv (data : JS.Uint8Array)
  (elementPattern : Bufferpack.pattern) (isImplicitVR isLittleEndian : bool)
  (stopWhen : option StopWhenFunction) (ds : Dataset) (d : N) (l l' : log)
  (c : control (Dataset * N)) :
  iteration data elementPattern isImplicitVR isLittleEndian stopWhen ds d l
  = (Return c, l') ->
  match c with
  | Break (ds', d') =>
      ds' = ds /\ d' = d /\ l' = l
      /\ (size (getArrayRange data d 8) <> 8%N
          \/ exists g e vr len cc,
               unpack data (getArrayRange data d 8) elementPattern
                 isImplicitVR isLittleEndian d l
               = (Return (g, e, vr, len, cc), l)
               /\ fires stopWhen g vr len = true)
  | Continue (ds', d') =>
      exists g e vr len cc,
        size (getArrayRange data d 8) = 8%N
        /\ unpack data (getArrayRange data d 8) elementPattern
             isImplicitVR isLittleEndian d l
           = (Return (g, e, vr, len, cc), l)
        /\ fires stopWhen g vr len = false
        /\ (d + cc <= d')%N
        /\ (ds' = ds
            \/ exists tag key,
                 group (representations tag) = g
                 /\ element (representations tag) = e
                 /\ has ds key = false
                 /\ ds' = ds ++ [(key, tag)])
  end.
Proof.
  unfold iteration. cbv zeta.
  destruct (N.eqb_spec (size (getArrayRange data d 8)) 8) as [Hsize|Hsize];
    cbn [negb].
  2:{ intro H. injection H as <- <-. auto. }
  unfold bind.
  destruct (unpack data (getArrayRange data d 8) elementPattern isImplicitVR
              isLittleEndian d l)
    as [[[[[[g e] vr] len] cc]|x|] l1] eqn:Hunpack; try discriminate.
  destruct (unpack_log _ _ _ _ _ _ _ _ l _ Hunpack) as [-> _].
  change (match stopWhen with Some f => f g vr len | None => false end)
    with (fires stopWhen g vr len).
  destruct (fires stopWhen g vr len) eqn:Hfires.
  { intro H. injection H as <- <-. repeat split; try reflexivity.
    right. exists g, e, vr, len, cc. auto. }
  assert (Hshape : forall ds' d',
             (d + cc <= d')%N ->
             (ds' = ds
              \/ exists tag key,
                   group (representations tag) = g
                   /\ element (representations tag) = e
                   /\ has ds key = false
                   /\ ds' = ds ++ [(key, tag)]) ->
             exists g0 e0 vr0 len0 cc0,
               size (getArrayRange data d 8) = 8%N
               /\ (Return (g, e, vr, len, cc), l)
                  = (Return (g0, e0, vr0, len0, cc0), l)
               /\ fires stopWhen g0 vr0 len0 = false
               /\ (d + cc0 <= d')%N
               /\ (ds' = ds
                   \/ exists tag key,
                        group (representations tag) = g0
                        /\ element (representations tag) = e0
                        /\ has ds key = false
                        /\ ds' = ds ++ [(key, tag)])).
  { intros ds' d' Hd Hds. exists g, e, vr, len, cc. auto. }
  destruct (negb (len =? UNDEFINED_LENGTH)%N).
  - destruct (0 <? len)%N.
    + destruct (notNONE vr).
      * destruct (getTagInfo _ _ _ _ _ l) as [[info|x|] l2]; try discriminate.
        destruct (createTag _ _ _ l2) as [[tag|x|] l3] eqn:Htag;
          try discriminate.
        apply createTag_group in Htag as [Hg He].
        destruct (getSafeKey_spec ds (keyword tag) l3)
          as [n [_ [Hkey [Hfree _]]]].
        rewrite Hkey. intro H. injection H as <- <-.
        apply Hshape; [lia|]. right.
        exists tag, (suffixed (keyword tag) n).
        repeat split; try assumption. now apply set_fresh.
      * intro H. injection H as <- <-. apply Hshape; [lia|now left].
    + intro H. injection H as <- <-. apply Hshape; [lia|now left].
  - match goal with
    | |- (match ?m with _ => _ end) = _ -> _ =>
        destruct m as [[u|x|] l2]; try discriminate
    end.
    match goal with
    | |- (match ?m with _ => _ end) = _ -> _ =>
        destruct m as [[u'|x|] l3]; try discriminate
    end.
    intro H. injection H as <- <-. apply Hshape; [lia|now left].
Qed.

(** Where the loop stands when it returns: it has only appended to the
    dataset, the cursor has not moved back, and it stopped because
    fewer than eight bytes were left or because the stop predicate
    fired on the header under the cursor. *)
Lemma readElements_post (data : JS.Uint8Array)
  (elementPattern : Bufferpack.pattern) (isImplicitVR isLittleEndian : bool)
  (stopWhen : option StopWhenFunction) (Q : ITag jsvalue -> Prop) :
  (forall tag vr len,
      fires stopWhen (group (representations tag)) vr len = false -> Q tag) ->
  forall (fuel : nat) (ds ds' : Dataset) (d d' : N) (l l' : log),
    readElements fuel data elementPattern isImplicitVR isLittleEndian stopWhen
      ds d l = (Return (ds', d'), l') ->
    (d <= d')%N
    /\ (exists added, ds' = ds ++ added /\ Forall Q (values added))
    /\ (size (getArrayRange data d' 8) <> 8%N
        \/ exists g e vr len cc,
             unpack data (getArrayRange data d' 8) elementPattern isImplicitVR
               isLittleEndian d' l'
             = (Return (g, e, vr, len, cc), l')
             /\ fires stopWhen g vr len = true).
Proof.
  intros HQ.
  induction fuel as [|fuel IH]; intros ds ds' d d' l l' H; [discriminate|].
  rewrite readElements_iteration in H. unfold bind in H.
  destruct (iteration data elementPattern isImplicitVR isLittleEndian stopWhen
              ds d l) as [[c|x|] l1] eqn:Hit; try discriminate.
  apply iteration_inv in Hit.
  destruct c as [[ds1 d1]|[ds1 d1]]; cbn [resume] in H.
  - injection H as <- <- <-.
    destruct Hit as [-> [-> [-> Hstop]]].
    split; [lia|]. split; [|exact Hstop].
    exists []. split; [now rewrite app_nil_r|constructor].
  - destruct Hit as [g [e [vr [len [cc [_ [_ [Hfires [Hd Hds]]]]]]]]].
    apply IH in H as [Hd1 [[added [-> Hadded]] Hstop]].
    split; [lia|]. split; [|exact Hstop].
    destruct Hds as [->|[tag [key [Hg [_ [_ ->]]]]]].
    + exists added. auto.
    + exists ((key, tag) :: added). split; [now rewrite <- app_assoc|].
      simpl. constructor; [|exact Hadded].
      apply (HQ tag vr len). now rewrite Hg.
Qed.

(** ** Payloads *)

(** The headers behind the elements that the loop creates from [d]
    on: each element has the group and element numbers and the length
    of a header that [unpack] reads at some offset [d0], its
    [rawValue] is the slice that starts behind that header and asks
    for [length] bytes, and the loop stops behind that payload. *)
Lemma iteration_created (data : JS.Uint8Array)
  (elementPattern : Bufferpack.pattern) (isImplicitVR isLittleEndian : bool)
  (stopWhen : option StopWhenFunction) (d d' : N) (l l' : log)
  (one : Dataset) :
  iteration data elementPattern isImplicitVR isLittleEndian stopWhen [] d l
  = (Return (Continue (one, d')), l') ->
  (d <= d')%N
  /\ Forall
       (fun t =>
          exists g e vr len cc,
            (forall l0,
                unpack data (getArrayRange data d 8) elementPattern
                  isImplicitVR isLittleEndian d l0
                = (Return (g, e, vr, len, cc), l0))
            /\ group (representations t) = g
            /\ element (representations t) = e
            /\ length_ t = len
            /\ rawValue t = getArrayRange data (d + cc) len
            /\ (d + cc + len = d')%N)
       (values one).
Proof.
  unfold iteration. cbv zeta.
  destruct (negb (size (getArrayRange data d 8) =? 8)%N); [discriminate|].
  unfold bind.
  destruct (unpack data (getArrayRange data d 8) elementPattern isImplicitVR
              isLittleEndian d l)
    as [[[[[[g e] vr] len] cc]|x|] l1] eqn:Hunpack; try discriminate.
  assert (Hpure : forall l0,
             unpack data (getArrayRange data d 8) elementPattern isImplicitVR
               isLittleEndian d l0
             = (Return (g, e, vr, len, cc), l0)).
  { intro l0. now destruct (unpack_log _ _ _ _ _ _ _ _ l0 _ Hunpack). }
  destruct (match stopWhen with Some f => f g vr len | None => false end);
    [discriminate|].
  destruct (negb (len =? UNDEFINED_LENGTH)%N).
  - destruct (0 <? len)%N.
    + destruct (notNONE vr).
      * destruct (getTagInfo _ _ _ _ _ l1) as [[info|x|] l2]; try discriminate.
        destruct (createTag _ _ _ l2) as [[tag|x|] l3] eqn:Htag;
          try discriminate.
        pose proof (createTag_fields _ _ _ _ _ _ Htag) as [Hraw Hlen].
        pose proof (createTag_group _ _ _ _ _ _ Htag) as [Hg He].
        cbn [valuesRawValue valuesLength] in Hraw, Hlen.
        destruct (getSafeKey_spec (@nil (string * ITag jsvalue)) (keyword tag)
                    l3) as [m [_ [Hkey _]]].
        rewrite Hkey. unfold ret. intro H. injection H as <- <- _.
        split; [lia|]. cbn [set values map]. constructor; [|constructor].
        exists g, e, vr, len, cc. auto 10.
      * intro H. injection H as <- <- _. split; [lia|constructor].
    + intro H. injection H as <- <- _. split; [lia|constructor].
  - match goal with
    | |- (match ?m with _ => _ end) = _ -> _ =>
        destruct m as [[u|x|] l2]; try discriminate
    end.
    match goal with
    | |- (match ?m with _ => _ end) = _ -> _ =>
        destruct m as [[u'|x|] l3]; try discriminate
    end.
    intro H. injection H as <- <- _. split; [lia|constructor].
Qed.

Lemma elementsRead_payloads (data : JS.Uint8Array)
  (elementPattern : Bufferpack.pattern) (isImplicitVR isLittleEndian : bool)
  (stopWhen : option StopWhenFunction) (fuel : nat) :
  forall (d : N) (l l' : log) (tags : list (ITag jsvalue)) (stop : N),
    elementsRead fuel data elementPattern isImplicitVR isLittleEndian stopWhen
      d l = (Return (tags, stop), l') ->
    (d <= stop)%N
    /\ Forall
         (fun t =>
            exists d0 g e vr len cc,
              (forall l0,
                  unpack data (getArrayRange data d0 8) elementPattern
                    isImplicitVR isLittleEndian d0 l0
                  = (Return (g, e, vr, len, cc), l0))
              /\ group (representations t) = g
              /\ element (representations t) = e
              /\ length_ t = len
              /\ rawValue t = getArrayRange data (d0 + cc) len
              /\ (d0 + cc + len <= stop)%N)
         tags.
Proof.
  induction fuel as [|fuel IH]; intros d l l' tags stop H; [discriminate|].
  cbn [elementsRead] in H. unfold bind in H.
  destruct (iteration data elementPattern isImplicitVR isLittleEndian stopWhen
              [] d l) as [[[[one0 d0]|[one d1]]|x|] l1] eqn:Hit;
    try discriminate.
  - injection H as <- <- _. split; [lia|constructor].
  - apply iteration_created in Hit as [Hd Hone].
    destruct (elementsRead fuel data elementPattern isImplicitVR
                isLittleEndian stopWhen d1 l1) as [[[rest stop1]|x|] l2] eqn:E;
      try discriminate.
    injection H as <- <- _.
    apply IH in E as [Hd1 Hrest].
    split; [lia|]. apply Forall_app. split; [|exact Hrest].
    eapply Forall_impl; [|exact Hone].
    intros t [g [e [vr [len [cc [Hu [Hg [He [Hlen [Hraw Hend]]]]]]]]]].
    exists d, g, e, vr, len, cc. repeat split; try assumption. lia.
Qed.

(** Where the payload of an element lies: the header of the element is
    the one that [unpack] reads at offset [cursor + d] of the buffer,
    with the group and element numbers of the element and its length
    field, and [rawValue] is the slice of the buffer that starts
    behind that header, [cursorChange] bytes later, and asks for
    [length] bytes. *)
Definition slicedAt (bytes : JS.Uint8Array) (cursor : N)
  (elementPattern : Bufferpack.pattern) (isImplicitVR isLittleEndian : bool)
  (t : ITag jsvalue) : Prop :=
  exists d g e vr len cursorChange,
    (forall l0,
        unpack (dropN cursor bytes) (getArrayRange bytes (cursor + d) 8)
          elementPattern isImplicitVR isLittleEndian d l0
        = (Return (g, e, vr, len, cursorChange), l0))
    /\ group (representations t) = g
    /\ element (representations t) = e
    /\ length_ t = len
    /\ rawValue t = getArrayRange bytes (cursor + d + cursorChange) len.

(** C4, as the code has it.  Every element of a dataset that
    [readDataset] returns holds as [rawValue] the slice of the buffer
    that starts behind the element's own header and asks for [length]
    bytes; the slice is cut short where the buffer ends, so its size
    is at most [length], and it is [length] for every element when
    the read ended inside the buffer. *)
Theorem readDataset_rawValue_size (bytes : JS.Uint8Array) (cursor : N)
  (assumed le : bool) (stopWhen : option StopWhenFunction)
  (l l' : log) (ds : Dataset) (c : N) :
  readDataset bytes cursor assumed le stopWhen l = (Return (ds, c), l') ->
  exists implicit,
    _isImplicitVr bytes cursor assumed le true stopWhen l = (Return implicit, l)
    /\ Forall (slicedAt bytes cursor (getEndianPattern le implicit) implicit le)
         (values ds)
    /\ Forall (fun t => (size (rawValue t) <= length_ t)%N) (values ds)
    /\ ((c <= size bytes)%N ->
        Forall (fun t => size (rawValue t) = length_ t) (values ds)).
Proof.
  intro H.
  apply readDataset_trace in H
    as [implicit [tags [stop [Hi [Ht [-> ->]]]]]].
  cbv zeta in Ht. apply elementsRead_payloads in Ht as [_ Hp].
  exists implicit. split; [exact Hi|]. rewrite values_numbered.
  split; [|split].
  - eapply Forall_impl; [|exact Hp].
    intros t [d [g [e [vr [len [cc [Hu [Hg [He [Hlen [Hraw _]]]]]]]]]]].
    exists d, g, e, vr, len, cc. repeat split; try assumption.
    + intro l0. rewrite <- getArrayRange_dropN. apply Hu.
    + rewrite Hraw, getArrayRange_dropN. f_equal. lia.
  - eapply Forall_impl; [|exact Hp].
    intros t [d [g [e [vr [len [cc [_ [_ [_ [Hlen [Hraw _]]]]]]]]]]].
    rewrite Hraw, Hlen, size_getArrayRange. lia.
  - intro Hc. eapply Forall_impl; [|exact Hp].
    intros t [d [g [e [vr [len [cc [_ [_ [_ [Hlen [Hraw Hend]]]]]]]]]]].
    rewrite Hraw, Hlen, size_getArrayRange, size_dropN. lia.
Qed.

(** ** Detection of the VR mode *)

(** X1.  [_isImplicitVr] neither throws nor writes to [console.error],
    and its answer depends neither on the stop predicate nor on the
    endianness: inside a
    sequence with the implicit assumption it is [true]; when fewer than
    six bytes are left at the cursor it is the assumption; otherwise it
    says whether the two bytes after the tag are not both in
    0x40..0x5A. *)
Theorem isImplicitVr_answer (bytes : JS.Uint8Array) (cursor : N)
  (assumed le isSequence : bool) (stopWhen : option StopWhenFunction)
  (l : log) :
  _isImplicitVr bytes cursor assumed le isSequence stopWhen l
  = (Return
       (if (isSequence && assumed)%bool then true
        else match dropN 4 (getArrayRange bytes cursor 6) with
             | vr0 :: vr1 :: _ =>
                 negb (JS.inRange (Byte.to_N vr0) 0x40 0x5b
                       && JS.inRange (Byte.to_N vr1) 0x40 0x5b)
             | _ => assumed
             end), l).
Proof.
  unfold _isImplicitVr, splitArray.
  destruct (isSequence && assumed)%bool eqn:Hseq; [reflexivity|].
  generalize (getArrayRange bytes cursor 6) as data. intro data.
  destruct data as [|a [|b [|c [|d [|v0 [|v1 rest]]]]]]; try reflexivity.
  cbn [dropN takeN N.eqb N.pred Pos.pred_N Pos.pred_double].
  set (found := negb (JS.inRange (to_N v0) 64 91 && JS.inRange (to_N v1) 64 91)).
  destruct (negb (Bool.eqb found assumed)); [|reflexivity].
  cbn -[found].
  destruct (match stopWhen with Some f => _ | None => false end);
    [reflexivity|].
  destruct found; destruct isSequence; reflexivity.
Qed.

(** ** Ends of a read *)

Lemma _isImplicitVr_Return (bytes : JS.Uint8Array) (cursor : N)
  (assumed le isSequence : bool) (stopWhen : option StopWhenFunction)
  (l : log) :
  exists implicit,
    _isImplicitVr bytes cursor assumed le isSequence stopWhen l
    = (Return implicit, l).
Proof.
  unfold _isImplicitVr, splitArray.
  destruct (isSequence && assumed)%bool; [eexists; reflexivity|].
  generalize (getArrayRange bytes cursor 6) as data. intro data.
  destruct data as [|a [|b [|c [|d [|v0 [|v1 rest]]]]]];
    try (eexists; reflexivity).
  cbn [dropN takeN N.eqb N.pred Pos.pred_N Pos.pred_double].
  set (found := negb (JS.inRange (to_N v0) 64 91 && JS.inRange (to_N v1) 64 91)).
  destruct (negb (Bool.eqb found assumed)); [|eexists; reflexivity].
  cbn -[found].
  destruct (match stopWhen with Some f => _ | None => false end);
    [eexists; reflexivity|].
  destruct found; destruct isSequence; eexists; reflexivity.
Qed.

Lemma size_lt_8 (data : JS.Uint8Array) (d : N) :
  size (getArrayRange data d 8) <> 8%N <-> (size data < d + 8)%N.
Proof. rewrite size_getArrayRange. lia. Qed.

(** X2.  A read that starts with fewer than eight bytes left (an empty
    buffer, a cursor at or past the end, a truncated header) returns
    the empty dataset and the cursor it was given, and writes nothing
    to [console.error]. *)
Theorem readDataset_short_buffer (bytes : JS.Uint8Array) (cursor : N)
  (assumed le : bool) (stopWhen : option StopWhenFunction) (l : log) :
  (size bytes < cursor + 8)%N ->
  readDataset bytes cursor assumed le stopWhen l = (Return ([], cursor), l).
Proof.
  intro Hshort. unfold readDataset, bind.
  destruct (_isImplicitVr_Return bytes cursor assumed le true stopWhen l)
    as [implicit ->].
  simpl snd. rewrite readElements_iteration. unfold bind, iteration.
  cbv zeta.
  destruct (N.eqb_spec (size (getArrayRange (dropN cursor bytes) 0 8)) 8)
    as [Hsize|Hsize].
  - exfalso. rewrite size_getArrayRange, size_dropN in Hsize. lia.
  - cbn [negb ret resume]. now rewrite N.add_0_r.
Qed.

(** X3.  When [readDataset] returns, its cursor has not moved back, and
    the read has ended for one of two reasons only: fewer than eight
    bytes are left at the new cursor, or the stop predicate fires on
    the header that starts there.  Without a stop predicate the read
    therefore runs to the end of the buffer. *)
Theorem readDataset_end (bytes : JS.Uint8Array) (cursor : N)
  (assumed le : bool) (stopWhen : option StopWhenFunction)
  (l l' : log) (ds : Dataset) (c : N) :
  readDataset bytes cursor assumed le stopWhen l = (Return (ds, c), l') ->
  (cursor <= c)%N
  /\ ((size bytes < c + 8)%N
      \/ exists implicit g e vr len cc,
           unpack (dropN cursor bytes) (getArrayRange bytes c 8)
             (getEndianPattern le implicit) implicit le (c - cursor) l'
           = (Return (g, e, vr, len, cc), l')
           /\ fires stopWhen g vr len = true)
  /\ (stopWhen = None -> (size bytes < c + 8)%N).
Proof.
  intro H. apply readDataset_elements in H as [implicit [d [H ->]]].
  cbv zeta in H.
  apply (readElements_post _ _ _ _ _ (fun _ => True)) in H; [|auto].
  destruct H as [_ [_ Hstop]].
  assert (Hend : (size bytes < cursor + d + 8)%N
                 \/ exists g e vr len cc,
                      unpack (dropN cursor bytes)
                        (getArrayRange bytes (cursor + d) 8)
                        (getEndianPattern le implicit) implicit le
                        (cursor + d - cursor) l'
                      = (Return (g, e, vr, len, cc), l')
                      /\ fires stopWhen g vr len = true).
  { destruct Hstop as [Hshort|Hfires].
    - left. apply size_lt_8 in Hshort. rewrite size_dropN in Hshort. lia.
    - right. rewrite getArrayRange_dropN in Hfires.
      replace (cursor + d - cursor)%N with d by lia. exact Hfires. }
  split; [lia|]. split.
  - destruct Hend as [Hshort|[g [e [vr [len [cc Hf]]]]]]; [now left|].
    right. exists implicit, g, e, vr, len, cc. exact Hf.
  - intros ->. destruct Hend as [Hshort|[g [e [vr [len [cc [_ Hf]]]]]]];
      [exact Hshort|discriminate].
Qed.

(** The stop predicates of [readFile]: [_notGroup0002] is [notGroup 2]
    and [_notGroup0000] is [notGroup 0]. *)
Definition notGroup (k : N) : StopWhenFunction :=
  fun group _ _ => negb (group =? k)%N.

(** X4.  A read that stops at the first header of another group returns
    elements of the one group only.  [notGroup 2] is the predicate of
    [readFileMetaInfo] and [notGroup 0] that of
    [readCommandSetElements]: the File Meta Information holds elements
    of group 0002 only, and the command set elements of group 0000
    only. *)
Theorem readDataset_one_group (k : N) (bytes : JS.Uint8Array) (cursor : N)
  (assumed le : bool) (l l' : log) (ds : Dataset) (c : N) :
  readDataset bytes cursor assumed le (Some (notGroup k)) l
  = (Return (ds, c), l') ->
  Forall (fun t => group (representations t) = k) (values ds).
Proof.
  intro H. apply readDataset_elements in H as [implicit [d [H _]]].
  cbv zeta in H.
  apply (readElements_post _ _ _ _ _
           (fun t => group (representations t) = k)) in H.
  - destruct H as [_ [[added [-> Hadded]] _]]. exact Hadded.
  - intros tag vr len Hf. unfold fires, notGroup in Hf.
    apply negb_false_iff in Hf. now apply N.eqb_eq.
Qed.

(** ** Keys *)

Lemma NoDup_numberedFrom (kws seen : list string) :
  NoDup (numberedFrom seen kws).
Proof.
  revert seen; induction kws as [|k kws IH]; intro seen; simpl.
  - constructor.
  - constructor; [|apply IH].
    rewrite In_numberedFrom. simpl.
    destruct (string_dec k k); [lia|contradiction].
Qed.

Lemma get_of_NoDup {A : Type} (object : Record_ A) (key : string) (v : A) :
  NoDup (keys object) -> In (key, v) object -> get object key = Some v.
Proof.
  induction object as [|[k w] rest IH]; simpl; intros Hnd Hin; [destruct Hin|].
  inversion Hnd as [|? ? Hk Hrest]; subst.
  destruct Hin as [Heq|Hin].
  - injection Heq as -> ->. now rewrite String.eqb_refl.
  - destruct (String.eqb_spec k key) as [->|Hne]; [|now apply IH].
    exfalso. apply Hk. apply (in_map fst) in Hin. exact Hin.
Qed.

(** X5.  No element that [readDataset] creates is lost or overwritten:
    the dataset it returns holds the elements it has created, all of
    them and in their order; its keys are pairwise distinct, and every
    element is found again under its key. *)
Theorem readDataset_keys_distinct (bytes : JS.Uint8Array) (cursor : N)
  (assumed le : bool) (stopWhen : option StopWhenFunction)
  (l l' : log) (ds : Dataset) (c : N) :
  readDataset bytes cursor assumed le stopWhen l = (Return (ds, c), l') ->
  exists tags,
    elementsCreated bytes cursor assumed le stopWhen l = (Return tags, l')
    /\ values ds = tags
    /\ NoDup (keys ds)
    /\ forall key tag, In (key, tag) ds -> get ds key = Some tag.
Proof.
  intro H. apply readDataset_created in H as [tags [Htags ->]].
  exists tags. split; [exact Htags|]. split; [apply values_numbered|].
  assert (Hnd : NoDup (keys (numbered [] tags)))
    by (rewrite keys_numbered; apply NoDup_numberedFrom).
  split; [exact Hnd|]. intros key tag. now apply get_of_NoDup.
Qed.

Lemma get_app_fresh {A : Type} (object : Record_ A) (key key' : string)
  (v : A) :
  get (object ++ [(key, v)]) key'
  = match get object key' with
    | Some w => Some w
    | None => if String.eqb key key' then Some v else None
    end.
Proof.
  induction object as [|[k w] rest IH]; simpl; [reflexivity|].
  destruct (String.eqb k key'); [reflexivity|exact IH].
Qed.

Lemma NoDup_suffixed_seq (key : string) (n start : nat) :
  NoDup (map (suffixed key) (seq start n)).
Proof.
  revert start; induction n as [|n IH]; intro start; simpl; constructor.
  - intro Hin. apply in_map_iff in Hin as [m [Heq Hm]].
    apply suffixed_inj in Heq as [_ ->]. apply in_seq in Hm. lia.
  - apply IH.
Qed.

(** Whether a key has path syntax.  lodash [has] tests a key that
    holds neither a dot nor an opening bracket as an own key of the
    object; any other key, unless the object holds it, is split into
    the properties of a chain of objects. *)
Definition hasPathSyntax (key : string) : bool :=
  existsb (fun c => (Ascii.eqb c "." || Ascii.eqb c "[")%bool)
    (list_ascii_of_string key).

(** X6.  For a key without path syntax and any object, [getSafeKey]
    returns, with no [console.error] record: its answer is [key-n] for
    the least [n >= 1] whose key the object does not hold, [n] is at
    most the number of entries plus one, and assigning under that key
    appends an entry and changes no other lookup. *)
Theorem getSafeKey_first_free {A : Type} (object : Record_ A) (key : string)
  (l : log) :
  hasPathSyntax key = false ->
  exists n,
    1 <= n <= S (List.length object)
    /\ getSafeKey object key l = (Return (suffixed key n), l)
    /\ has object (suffixed key n) = false
    /\ (forall m, 1 <= m < n -> has object (suffixed key m) = true)
    /\ forall v : A,
         set object (suffixed key n) v = object ++ [(suffixed key n, v)]
         /\ get (set object (suffixed key n) v) (suffixed key n) = Some v
         /\ forall key', key' <> suffixed key n ->
                         get (set object (suffixed key n) v) key'
                         = get object key'.
Proof.
  intros _.
  destruct (getSafeKey_spec object key l) as [n [Hn [Heq [Hfree Hbelow]]]].
  exists n. split; [split; [exact Hn|]|].
  - assert (Hincl : incl (map (suffixed key) (seq 1 (n - 1))) (keys object)).
    { intros x Hx. apply in_map_iff in Hx as [m [<- Hm]].
      apply in_seq in Hm. apply has_In. apply Hbelow. lia. }
    apply NoDup_incl_length in Hincl.
    + rewrite length_map, length_seq in Hincl.
      unfold keys in Hincl. rewrite length_map in Hincl. lia.
    + apply NoDup_suffixed_seq.
  - repeat split; try assumption.
    + now apply set_fresh.
    + rewrite set_fresh by assumption. rewrite get_app_fresh.
      unfold has in Hfree. destruct (get object (suffixed key n));
        [discriminate|]. now rewrite String.eqb_refl.
    + intros key' Hne. rewrite set_fresh by assumption.
      rewrite get_app_fresh. destruct (get object key'); [reflexivity|].
      destruct (String.eqb_spec (suffixed key n) key') as [Heq'|_];
        [congruence|reflexivity].
Qed.

(** ** Element construction *)

(** X7.  An element of odd group is a private tag: [createTag] returns
    it, whatever the dictionary and the header VR, with VR, name, VM,
    keyword and retired all [Unknown-PrivateTag], and with the raw
    bytes, the length and the converted value it was handed. *)
Theorem createTag_private (g e : N) (v : ITagValues) (l : log) :
  (g mod 2 = 1)%N ->
  exists tag,
    createTag g e v l = (Return tag, l)
    /\ VR tag = "Unknown-PrivateTag" /\ name tag = "Unknown-PrivateTag"
    /\ VM tag = "Unknown-PrivateTag" /\ keyword tag = "Unknown-PrivateTag"
    /\ retired tag = "Unknown-PrivateTag"
    /\ repName (representations tag) = "PrivateTag"
    /\ rawValue tag = valuesRawValue v
    /\ length_ tag = valuesLength v
    /\ value tag = valuesValue v.
Proof.
  intro Hodd. unfold createTag.
  destruct (getHexRepresentation g e) as [hg he].
  rewrite Hodd. cbn [N.eqb negb]. eexists. split; [reflexivity|].
  repeat split; reflexivity.
Qed.

(** X8.  For an element of even group [createTag] throws a [TypeError]
    exactly when the header carries no VR (implicit mode, or the
    fallback of explicit mode), the element number is not 0000 and the
    dictionary has no row for the tag; in every other case it returns
    the element, with the keyword of the dictionary row, or [Unknown]
    when there is no row. *)
Theorem createTag_public (g e : N) (v : ITagValues) (l : log) :
  (g mod 2 = 0)%N ->
  let hex := getHexRepresentation g e in
  let entry := if String.eqb (snd hex) "0000" then Some GroupLengthEntry
               else DicomDictionary (fst hex ++ snd hex)%string in
  (createTag g e v l = (Throw TypeError, l)
   <-> truthyVR (valuesVR v) = false /\ snd hex <> "0000"
       /\ DicomDictionary (fst hex ++ snd hex)%string = None)
  /\ (truthyVR (valuesVR v) = true \/ entry <> None ->
      exists tag,
        createTag g e v l = (Return tag, l)
        /\ keyword tag = match entry with
                         | Some row => entryKeyword row
                         | None => "Unknown"
                         end
        /\ VR tag = (if truthyVR (valuesVR v)
                     then match valuesVR v with Some vr => vr | None => "" end
                     else match entry with
                          | Some row => entryVR row
                          | None => ""
                          end)
        /\ representation tag = (fst hex ++ snd hex)%string
        /\ rawValue tag = valuesRawValue v).
Proof.
  intros Heven hex entry. subst entry hex. unfold createTag.
  destruct (getHexRepresentation g e) as [hg he]. cbn [fst snd].
  rewrite Heven. cbn [N.eqb negb]. unfold bind.
  destruct (truthyVR (valuesVR v)).
  - split.
    + split; [discriminate|]. intros [H _]. discriminate.
    + intros _. eexists. split; [reflexivity|]. repeat split; reflexivity.
  - destruct (String.eqb_spec he "0000") as [->|Hne].
    + split.
      * split; [discriminate|]. intros [_ [H _]]. contradiction.
      * intros _. eexists. split; [reflexivity|]. repeat split; reflexivity.
    + destruct (DicomDictionary (hg ++ he)) as [row|].
      * split.
        -- split; [discriminate|]. intros [_ [_ H]]. discriminate.
        -- intros _. eexists. split; [reflexivity|]. repeat split; reflexivity.
      * split.
        -- split; [auto|reflexivity].
        -- intros [H|H]; [discriminate|contradiction].
Qed.

(** X9.  A header takes twelve bytes exactly when [unpack] answers with
    one of the VRs of [ExtraLengthVRs], and eight bytes otherwise; in
    implicit mode the VR of the answer is null; and [unpack] writes
    nothing to [console.error]. *)
Theorem unpack_header_size (data tagData : JS.Uint8Array)
  (elementPattern : Bufferpack.pattern) (isImplicitVR isLittleEndian : bool)
  (cursor : N) (l l' : log) (g e len cc : N) (vr : option string) :
  unpack data tagData elementPattern isImplicitVR isLittleEndian cursor l
  = (Return (g, e, vr, len, cc), l') ->
  l' = l
  /\ cc = (if match vr with
              | Some v => existsb (String.eqb v) ExtraLengthVRs
              | None => false
              end
           then 12 else 8)%N
  /\ (isImplicitVR = true -> vr = None).
Proof.
  unfold unpack, ret, throw.
  repeat match goal with
         | |- context [match ?x with _ => _ end] => destruct x eqn:?
         end;
    intro H; try discriminate; injection H as <- <- <- <- <- <-;
    (split; [reflexivity|]); (split; [|intro; (reflexivity || discriminate)]);
    try reflexivity; congruence.
Qed.

(** ** Transfer syntax *)

(** X10.  Whatever the transfer syntax element and the bytes, the answer
    of [readOrGuessIsImplicitVrAndIsLittleEndian] is never implicit VR
    with big endian; with no byte left at the cursor it is implicit VR
    little endian; and the only [console.error] record it may write is
    the one for the deflated transfer syntax. *)
Theorem readOrGuess_never_implicit_big_endian (bytes : JS.Uint8Array)
  (cursor : N) (transferSyntax : option (ITag jsvalue)) (l l' : log)
  (implicit little : bool) :
  readOrGuessIsImplicitVrAndIsLittleEndian bytes cursor transferSyntax l
  = (Return (implicit, little), l') ->
  (implicit = true -> little = true)
  /\ ((size bytes <= cursor)%N -> implicit = true /\ little = true /\ l' = l)
  /\ (l' = l
      \/ l' = l ++ [Text "deflating zipped files not implemented yet"]).
Proof.
  unfold readOrGuessIsImplicitVrAndIsLittleEndian.
  destruct (N.eqb_spec (size (getArrayRange bytes cursor 1)) 0) as [Hz|Hnz].
  - intro H. injection H as <- <- <-. auto.
  - assert (Hlt : ~ (size bytes <= cursor)%N)
      by (rewrite size_getArrayRange in Hnz; lia).
    unfold ret, throw, bind, consoleError.
    case_matches; intro H; try discriminate; injection H as <- <- <-;
      (split; [intro; (reflexivity || discriminate)|]);
      (split; [intro; contradiction|auto]).
Qed.

(** ** Objects and the merged dataset *)

Lemma get_set {A : Type} (object : Record_ A) (key key' : string) (v : A) :
  get (set object key v) key'
  = if String.eqb key key' then Some v else get object key'.
Proof.
  induction object as [|[k w] rest IH]; simpl.
  - reflexivity.
  - destruct (String.eqb_spec k key) as [->|Hne]; simpl.
    + now destruct (String.eqb key key').
    + destruct (String.eqb_spec k key') as [->|Hne'].
      * destruct (String.eqb_spec key key') as [->|_];
          [contradiction|reflexivity].
      * exact IH.
Qed.

(** The spread [{...a, ...b}] looks a key up in [b] first. *)
Lemma get_spread {A : Type} (a b : Record_ A) (key : string) :
  NoDup (keys b) ->
  get (spread a b) key
  = match get b key with
    | Some v => Some v
    | None => get a key
    end.
Proof.
  unfold spread. revert a.
  induction b as [|[k v] rest IH]; intros a Hnd; simpl; [reflexivity|].
  inversion Hnd as [|? ? Hk Hrest]; subst.
  rewrite (IH _ Hrest), get_set.
  destruct (String.eqb_spec k key) as [->|Hne]; [|reflexivity].
  destruct (get rest key) as [w|] eqn:E; [|reflexivity].
  exfalso. apply Hk. apply has_In. unfold has. now rewrite E.
Qed.

Lemma readDataset_NoDup (bytes : JS.Uint8Array) (cursor : N)
  (assumed le : bool) (stopWhen : option StopWhenFunction)
  (l l' : log) (ds : Dataset) (c : N) :
  readDataset bytes cursor assumed le stopWhen l = (Return (ds, c), l') ->
  NoDup (keys ds).
Proof.
  intro H. apply readDataset_elements in H as [implicit [d [H _]]].
  apply readElements_Numbered in H; [|reflexivity].
  rewrite H. apply NoDup_numberedFrom.
Qed.

(** X11.  The object that [readFile] returns is made of the reads that
    [readFile] makes, one after the other from the cursor and the log
    that the one before has left: the preamble, the File Meta
    Information, the command set, the probe of the VR mode and the
    main dataset, read with the flags of the probe, which are the
    flags of the object.  Its entries merge the three datasets by key,
    and on a key that two of them share the command set wins over the
    File Meta Information, which wins over the main dataset. *)
Theorem readFile_entries (bytes : JS.Uint8Array) (l l' : log)
  (full : FullDataset) :
  readFile bytes l = (Return full, l') ->
  exists preamble c0 l0 fileMetaInfo c1 l1 commandSetElements c2 l2 l3
         dataset c3,
    readPreamble bytes l = (Return (preamble, c0), l0)
    /\ readFileMetaInfo bytes c0 l0 = (Return (fileMetaInfo, c1), l1)
    /\ readCommandSetElements bytes c1 l1
       = (Return (commandSetElements, c2), l2)
    /\ readOrGuessIsImplicitVrAndIsLittleEndian bytes c2
         (get fileMetaInfo "00020010") l2
       = (Return (isImplicitVR full, isLittleEndian full), l3)
    /\ readDataset bytes c2 (isImplicitVR full) (isLittleEndian full) None l3
       = (Return (dataset, c3), l')
    /\ forall key,
         get (entries full) key
         = match get commandSetElements key with
           | Some tag => Some tag
           | None =>
               match get fileMetaInfo key with
               | Some tag => Some tag
               | None => get dataset key
               end
           end.
Proof.
  unfold readFile, readFileAfterPreamble, bind.
  destruct (readPreamble bytes l) as [[[preamble c0]|x|] l0]; try discriminate.
  destruct (readFileMetaInfo bytes c0 l0) as [[[fmi c1]|x|] l1] eqn:Hfmi;
    try discriminate.
  destruct (readCommandSetElements bytes c1 l1) as [[[cse c2]|x|] l2] eqn:Hcse;
    try discriminate.
  destruct (readOrGuessIsImplicitVrAndIsLittleEndian bytes c2 _ l2)
    as [[[imp le]|x|] l3] eqn:Hguess; try discriminate.
  destruct (readDataset bytes c2 imp le None l3) as [[[ds c3]|x|] l4] eqn:Hds;
    try discriminate.
  intro H. injection H as <- <-. cbn [entries isImplicitVR isLittleEndian].
  exists preamble, c0, l0, fmi, c1, l1, cse, c2, l2, l3, ds, c3.
  repeat split; try assumption.
  intro key.
  rewrite get_spread by (eapply readDataset_NoDup; exact Hcse).
  rewrite get_spread by (eapply readDataset_NoDup; exact Hfmi).
  reflexivity.
Qed.

(** ** Groups and lookups *)

Lemma find_app {A : Type} (p : A -> bool) (a b : list A) :
  find p (a ++ b)
  = match find p a with
    | Some x => Some x
    | None => find p b
    end.
Proof.
  induction a as [|x a IH]; simpl; [reflexivity|].
  destruct (p x); [reflexivity|exact IH].
Qed.

Lemma getTagsGroupReduce_outcome (tags : list (ITag jsvalue)) :
  forall (acc : Dataset) (l : log),
    if existsb (fun t => String.eqb (keyword t) "") tags
    then getTagsGroupReduce tags acc l = (Throw TypeError, l)
    else exists group,
        getTagsGroupReduce tags acc l = (Return group, l)
        /\ forall key,
            get group key
            = match find (fun t => String.eqb (groupKey t) key) (rev tags) with
              | Some t => Some t
              | None => get acc key
              end.
Proof.
  induction tags as [|t tags IH]; intros acc l.
  - simpl. exists acc. split; reflexivity.
  - cbn [existsb getTagsGroupReduce]. unfold bind, lowerFirst.
    destruct (keyword t) as [|c rest] eqn:Hk; [reflexivity|].
    cbn [String.eqb orb]. unfold ret.
    specialize (IH (set acc (String (JS.lowerChar c) rest) t) l).
    destruct (existsb (fun t0 => String.eqb (keyword t0) "") tags);
      [exact IH|].
    destruct IH as [group [Hgroup Hget]]. exists group.
    split; [exact Hgroup|]. intro key.
    rewrite Hget. cbn [rev]. rewrite find_app. cbn [find].
    destruct (find _ (rev tags)); [reflexivity|].
    rewrite get_set. unfold groupKey. rewrite Hk.
    now destruct (String.eqb (String (JS.lowerChar c) rest) key).
Qed.

(** X12.  [getTagsGroup] throws a [TypeError] exactly when an element of
    the group has an empty keyword; otherwise it returns, with no
    [console.error] record, a map in which each key holds the last element of the group
    whose keyword, first letter lowered, is that key. *)
Theorem getTagsGroup_outcome (ds : Dataset) (g : string) (l : log) :
  let tags :=
    filter (fun t => String.eqb (hexGroup (representations t)) g) (values ds) in
  if existsb (fun t => String.eqb (keyword t) "") tags
  then getTagsGroup ds g l = (Throw TypeError, l)
  else exists group,
      getTagsGroup ds g l = (Return group, l)
      /\ forall key,
          get group key
          = find (fun t => String.eqb (groupKey t) key) (rev tags).
Proof.
  intro tags. unfold getTagsGroup. fold tags.
  pose proof (getTagsGroupReduce_outcome tags [] l) as H.
  destruct (existsb _ tags); [exact H|].
  destruct H as [group [Hgroup Hget]]. exists group.
  split; [exact Hgroup|]. intro key. rewrite Hget.
  now destruct (find _ (rev tags)).
Qed.

Lemma find_first {A : Type} (p : A -> bool) (xs : list A) :
  match find p xs with
  | Some x =>
      exists before after,
        xs = before ++ x :: after /\ p x = true
        /\ Forall (fun y => p y = false) before
  | None => Forall (fun y => p y = false) xs
  end.
Proof.
  induction xs as [|x xs IH]; simpl; [constructor|].
  destruct (p x) eqn:Hx.
  - exists [], xs. repeat split; [exact Hx|constructor].
  - destruct (find p xs) as [y|].
    + destruct IH as [before [after [-> [Hy Hb]]]].
      exists (x :: before), after. repeat split; [exact Hy|].
      constructor; assumption.
    + constructor; assumption.
Qed.

(** X13.  On a dataset of elements (an object all of whose entries
    are elements, as [readDataset] returns it; the object of
    [readFile] holds two booleans besides, see [getTagValueOfFile])
    [getTagValue] never throws.  Handed an array that has not two
    entries it writes one [console.error] record and returns null; in
    every other case it writes none and returns the first element of
    the dataset, in insertion order, that matches the identifier, or
    [undefined] when none does.  An element is always found again by
    its keyword, by its name and by its pair of group and element
    numbers, unless an earlier element matches too. *)
Theorem getTagValue_first_match (ds : Dataset) (id : TagIdentifier) (l : log) :
  (exists parts,
      id = ByArray parts /\ List.length parts <> 2
      /\ getTagValue ds id l
         = (Return None,
            l ++ [Text "Wrong tag identifier supplied. If passed as a tuple it must have 2 elements"]))
  \/ (getTagValue ds id l
      = (Return (find (getMatchedTag id) (values ds)), l)
      /\ match find (getMatchedTag id) (values ds) with
         | Some t =>
             exists before after,
               values ds = before ++ t :: after
               /\ getMatchedTag id t = true
               /\ Forall (fun x => getMatchedTag id x = false) before
         | None => Forall (fun x => getMatchedTag id x = false) (values ds)
         end
      /\ forall t,
          In t (values ds) ->
          id = ByString (keyword t) \/ id = ByString (name t)
          \/ id = ByArray [IdNumber (group (representations t));
                           IdNumber (element (representations t))] ->
          find (getMatchedTag id) (values ds) <> None).
Proof.
  assert (Hfind : forall t,
             In t (values ds) ->
             id = ByString (keyword t) \/ id = ByString (name t)
             \/ id = ByArray [IdNumber (group (representations t));
                              IdNumber (element (representations t))] ->
             find (getMatchedTag id) (values ds) <> None).
  { intros t Hin Hid Hnone.
    apply (find_none _ _ Hnone) in Hin.
    destruct Hid as [ -> | [ -> | -> ] ]; simpl in Hin.
    - rewrite String.eqb_refl, orb_true_r in Hin. discriminate.
    - rewrite String.eqb_refl in Hin. discriminate.
    - rewrite !N.eqb_refl in Hin. discriminate. }
  destruct id as [text|parts]; simpl.
  - right. split; [reflexivity|]. split; [apply find_first|exact Hfind].
  - destruct (Nat.eqb_spec (List.length parts) 2) as [Hlen|Hlen]; simpl.
    + right. split; [reflexivity|]. split; [apply find_first|exact Hfind].
    + left. exists parts. repeat split; assumption.
Qed.

(** *** Lookups in the object that [readFile] returns *)

(** An entry of the object that [readFile] returns: an element, or one
    of the two flags. *)
Inductive member :=
| Element (tag : ITag jsvalue)
| Flag (b : bool).

(** The entries in the order in which lodash [find] walks them: the
    elements, then [isLittleEndian] and [isImplicitVR]. *)
Definition membersOf (full : FullDataset) : list member :=
  map Element (values (entries full))
  ++ [Flag (isLittleEndian full); Flag (isImplicitVR full)].

(** [getMatchedTag] on an entry.  Every property of a boolean is
    [undefined]: destructuring [tag.representations] and reading
    [tag.representations.tuple] throw, and [toLower] turns the
    undefined name, keyword and representation into the empty
    string. *)
Definition getMatchedMember (id : TagIdentifier) (m : member) : M bool :=
  match m with
  | Element tag => ret (getMatchedTag id tag)
  | Flag _ =>
      match id with
      | ByArray (IdNumber _ :: _) => throw TypeError
      | ByArray (IdString _ :: _) => throw TypeError
      | ByArray [] => ret false
      | ByString text =>
          if (String.eqb "" (JS.toLower text)
              || String.eqb "" (JS.toLower text))%bool
          then ret true
          else
            let transformedRepresentation :=
              JS.filterString (fun c => negb (isStripped c)) (JS.toLower text) in
            ret (String.eqb "" transformedRepresentation)
      end
  end.

(** lodash [find] with a predicate that may throw. *)
Fixpoint findMember (p : member -> M bool) (ms : list member)
  : M (option member) :=
  match ms with
  | [] => ret None
  | m :: rest =>
      matched <- p m ;;
      if matched then ret (Some m) else findMember p rest
  end.

(** [getTagValue] on the object that [readFile] returns. *)
Definition getTagValueOfFile (full : FullDataset) (id : TagIdentifier)
  : M (option member) :=
  match id with
  | ByArray parts =>
      if negb (List.length parts =? 2) then
        consoleError
          (Text "Wrong tag identifier supplied. If passed as a tuple it must have 2 elements") ;;;
        ret None
      else findMember (getMatchedMember id) (membersOf full)
  | ByString _ => findMember (getMatchedMember id) (membersOf full)
  end.

Lemma findMember_elements (id : TagIdentifier) (tags : list (ITag jsvalue))
  (rest : list member) (l : log) :
  findMember (getMatchedMember id) (map Element tags ++ rest) l
  = match find (getMatchedTag id) tags with
    | Some t => (Return (Some (Element t)), l)
    | None => findMember (getMatchedMember id) rest l
    end.
Proof.
  induction tags as [|t tags IH]; [reflexivity|].
  cbn [map app findMember find getMatchedMember]. unfold bind, ret.
  destruct (getMatchedTag id t); [reflexivity|exact IH].
Qed.

(** X21.  On the object that [readFile] returns, [getTagValue] also
    walks the two flags.  When an element matches, it returns the
    first one that does, as on a dataset.  When no element matches, an
    array of two entries makes it throw a [TypeError] (on the first
    flag, it reads a property of [undefined]), and a string makes it
    return the boolean [isLittleEndian] when the string is empty once
    lowered and rid of opening parentheses, commas and white space, and
    [undefined] otherwise.  An array that has not two entries gives
    null and one [console.error] record. *)
Theorem getTagValue_on_file (full : FullDataset) (id : TagIdentifier)
  (l : log) :
  match id with
  | ByArray parts =>
      if List.length parts =? 2 then
        match find (getMatchedTag id) (values (entries full)) with
        | Some t => getTagValueOfFile full id l = (Return (Some (Element t)), l)
        | None => getTagValueOfFile full id l = (Throw TypeError, l)
        end
      else
        getTagValueOfFile full id l
        = (Return None,
           l ++ [Text "Wrong tag identifier supplied. If passed as a tuple it must have 2 elements"])
  | ByString text =>
      match find (getMatchedTag id) (values (entries full)) with
      | Some t => getTagValueOfFile full id l = (Return (Some (Element t)), l)
      | None =>
          getTagValueOfFile full id l
          = (Return
               (if String.eqb ""
                     (JS.filterString (fun c => negb (isStripped c))
                        (JS.toLower text))
                then Some (Flag (isLittleEndian full))
                else None), l)
      end
  end.
Proof.
  destruct id as [text|parts]; unfold getTagValueOfFile, membersOf.
  - rewrite findMember_elements.
    destruct (find _ (values (entries full))); [reflexivity|].
    cbn [findMember getMatchedMember]. unfold bind, ret.
    rewrite orb_diag.
    destruct (String.eqb_spec "" (JS.toLower text)) as [He|_].
    + rewrite <- He. reflexivity.
    + destruct (String.eqb "" _); reflexivity.
  - destruct (Nat.eqb_spec (List.length parts) 2) as [Hlen|Hlen];
      cbn [negb]; [|reflexivity].
    rewrite findMember_elements.
    destruct (find _ (values (entries full))); [reflexivity|].
    destruct parts as [|[n|text] parts]; [discriminate| |]; reflexivity.
Qed.

(** ** Outcomes of the pixel pipeline *)

(** The hexadecimal string that [getPixelData] builds from the raw
    pixel bytes. *)
Definition hexOf (raw : JS.Uint8Array) : string :=
  fold_left (fun acc i => (acc ++ numberToHex i)%string) raw "".

(** The chunk size [ceil(bitsAllocated.value / 8) * 2]. *)
Definition hexAllocatedOf (bitsAllocated : ITag jsvalue) : nat :=
  JS.toLength
    (JS.mul (JS.ceil (JS.div (asNumber (value bitsAllocated)) (JS.ofZ 8)))
       (JS.ofZ 2)).

(** The cases of [getPixelData] once the group 0028 is known, with the
    number of colours it returns. *)
Lemma getPixelData_cases (ds : Dataset) (l : log) (group0028 : Dataset) :
  getTagsGroup ds "0028" l = (Return group0028, l) ->
  match find (getMatchedTag (ByString "Pixel Data")) (values ds) with
  | None => getPixelData ds l = (Return None, l)
  | Some pixelData =>
      match get group0028 "bitsAllocated", get group0028 "highBit",
            get group0028 "bitsStored", get group0028 "pixelRepresentation"
      with
      | Some bitsAllocated, Some _, Some _, Some _ =>
          exists colours,
            getPixelData ds l = (Return (Some colours), l)
            /\ List.length colours
               = List.length (JS.chunk (hexOf (rawValue pixelData))
                                (hexAllocatedOf bitsAllocated))
      | _, _, _, _ => getPixelData ds l = (Throw TypeError, l)
      end
  end.
Proof.
  intro Hgroup. unfold getPixelData, bind. rewrite Hgroup.
  unfold getTagValue, ret.
  destruct (find _ (values ds)) as [pixelData|]; [|reflexivity].
  unfold valueOf, ret, throw.
  destruct (get group0028 "bitsAllocated") as [bitsAllocated|];
    [|reflexivity].
  destruct (get group0028 "highBit") as [highBit|]; [|reflexivity].
  destruct (get group0028 "bitsStored") as [bitsStored|]; [|reflexivity].
  destruct (get group0028 "pixelRepresentation") as [pixelRepresentation|];
    [|reflexivity].
  eexists. split; [reflexivity|].
  cbv zeta. unfold hexOf, hexAllocatedOf.
  unfold adjustToWindow, pixelDataToSignedInt.
  now rewrite !length_map; repeat match goal with
         | |- context [if ?b then _ else _] => destruct b
         end; rewrite !length_map.
Qed.

(** X14.  Once [getTagsGroup] has returned the group 0028, [getPixelData]
    returns [undefined] when no element matches 'Pixel Data'; with such
    an element it throws a [TypeError] exactly when BitsAllocated,
    HighBit, BitsStored or PixelRepresentation is missing from the
    group, and otherwise returns colours.  It writes nothing to
    [console.error]. *)
Theorem getPixelData_outcome (ds : Dataset) (l : log) (group0028 : Dataset) :
  getTagsGroup ds "0028" l = (Return group0028, l) ->
  match find (getMatchedTag (ByString "Pixel Data")) (values ds) with
  | None => getPixelData ds l = (Return None, l)
  | Some _ =>
      if (has group0028 "bitsAllocated" && has group0028 "highBit"
          && has group0028 "bitsStored" && has group0028 "pixelRepresentation")%bool
      then exists colours, getPixelData ds l = (Return (Some colours), l)
      else getPixelData ds l = (Throw TypeError, l)
  end.
Proof.
  intro Hgroup. pose proof (getPixelData_cases ds l group0028 Hgroup) as H.
  destruct (find _ (values ds)) as [pixelData|]; [|exact H].
  unfold has.
  destruct (get group0028 "bitsAllocated"); [|exact H].
  destruct (get group0028 "highBit"); [|exact H].
  destruct (get group0028 "bitsStored"); [|exact H].
  destruct (get group0028 "pixelRepresentation"); [|exact H].
  destruct H as [colours [H _]]. exists colours. exact H.
Qed.

(** ** Element information *)

(** X15.  [getTagInfo] throws its [Error] exactly when the group and the
    element number are both zero and the header carries no VR; in
    every other case it returns the bytes and the length it was
    handed, with the header VR when there is one, and otherwise with
    the VR of [GroupLengthEntry] for an element number 0000, the VR of
    the dictionary row of the tag, or the empty string when the
    dictionary has no row. *)
Theorem getTagInfo_outcome (raw : JS.Uint8Array) (len g e : N)
  (vr : option string) (l : log) :
  (g = 0%N /\ e = 0%N /\ truthyVR vr = false
   /\ getTagInfo raw len g e vr l = (Throw Error, l))
  \/ ((g <> 0%N \/ e <> 0%N \/ truthyVR vr = true)
      /\ getTagInfo raw len g e vr l
         = (Return
              {| infoRawValue := raw; infoLength := len;
                 infoVR :=
                   if truthyVR vr
                   then match vr with Some v => v | None => "" end
                   else if String.eqb (snd (getHexRepresentation g e)) "0000"
                        then entryVR GroupLengthEntry
                        else match DicomDictionary
                                     (fst (getHexRepresentation g e)
                                      ++ snd (getHexRepresentation g e))%string
                             with
                             | Some row => entryVR row
                             | None => ""
                             end |}, l)).
Proof.
  unfold getTagInfo.
  destruct (N.eqb_spec g 0) as [Hg|Hg]; cbn [andb].
  - destruct (N.eqb_spec e 0) as [He|He]; cbn [andb].
    + destruct (truthyVR vr) eqn:Hvr; cbn [negb].
      * right. split; [auto|reflexivity].
      * left. auto.
    + right. split; [auto|].
      destruct (truthyVR vr); [reflexivity|].
      now destruct (getHexRepresentation g e).
  - right. split; [auto|].
    destruct (truthyVR vr); [reflexivity|].
    now destruct (getHexRepresentation g e).
Qed.

(** X16.  A dataset that [readDataset] returns holds no element of length
    zero: a header of length zero is consumed and dropped. *)
Theorem readDataset_no_empty_element (bytes : JS.Uint8Array) (cursor : N)
  (assumed le : bool) (stopWhen : option StopWhenFunction)
  (l l' : log) (ds : Dataset) (c : N) :
  readDataset bytes cursor assumed le stopWhen l = (Return (ds, c), l') ->
  Forall (fun t => (0 < length_ t)%N) (values ds).
Proof.
  intro H. apply readDataset_elements in H as [implicit [d [H _]]].
  cbv zeta in H.
  apply (readElements_invariant
           (fun ds _ => Forall (fun t => (0 < length_ t)%N) (values ds))
           (dropN cursor bytes) (getEndianPattern le implicit) implicit le
           stopWhen) with (4 := H).
  - auto.
  - intros ds0 d0 cc len tag key l0 l0' H0 Hpos _ Hlen _.
    apply Forall_values_set; [exact H0|]. now rewrite Hlen.
  - constructor.
Qed.

End MoreProperties.

(** ** Grey levels *)

Section GreyLevels.

Local Open Scope Q_scope.

(** The centre and the width that [adjustToWindow] works with. *)
Definition safeWindowCenterOf (windowCenter : option (ITag JS.number))
  : JS.number :=
  match windowCenter with
  | Some t => if JS.truthy (value t) then value t else JS.ofZ 610
  | None => JS.ofZ 610
  end.

Definition safeWindowWidthOf (windowWidth : option (ITag JS.number))
  : JS.number :=
  match windowWidth with
  | Some t => if JS.truthy (value t) then value t else JS.ofZ 1221
  | None => JS.ofZ 1221
  end.

(** What [adjustToWindow] makes of one pixel. *)
Definition level (safeWindowCenter safeWindowWidth value : JS.number)
  : JS.number :=
  let minPixelValue :=
    JS.sub safeWindowCenter (JS.div safeWindowWidth (JS.ofZ 2)) in
  let maxPixelValue :=
    JS.add safeWindowCenter (JS.div safeWindowWidth (JS.ofZ 2)) in
  let scalingFactor :=
    JS.div (JS.ofZ 255) (JS.add (JS.abs minPixelValue) (JS.abs maxPixelValue)) in
  let valueInRange :=
    JS.min [JS.max [value; minPixelValue]; maxPixelValue] in
  let positiveValue :=
    if JS.lt minPixelValue (JS.ofZ 0)
    then JS.add valueInRange (JS.abs minPixelValue)
    else valueInRange in
  JS.floor (JS.mul positiveValue scalingFactor).

Lemma adjustToWindow_level (pixelData : list JS.number)
  (windowCenter windowWidth : option (ITag JS.number)) :
  adjustToWindow pixelData windowCenter windowWidth
  = map (level (safeWindowCenterOf windowCenter)
           (safeWindowWidthOf windowWidth)) pixelData.
Proof. reflexivity. Qed.

End GreyLevels.

(** * The window defaults *)

Section WindowDefaults.

(** The grey level of an integer pixel in the default window, centre
    610 and width 1221: the window is [[-1/2, 2441/2]], so a negative
    pixel gives 0, a pixel above 1220 gives 255, and a pixel [z] in
    between gives floor((z + 1/2) * 255 / 1221).  That quotient is
    never an integer (its numerator is odd, 2442 is even), so the
    floor is the same in binary64. *)
Definition defaultWindowLevel (z : Z) : Z :=
  if (z <? 0)%Z then 0%Z
  else if (1220 <? z)%Z then 255%Z
       else ((255 * (2 * z + 1)) / 2442)%Z.

(** [adjustToWindow] with its two defaults, on an integer pixel. *)
Lemma level_default (z : Z) :
  level (JS.ofZ 610) (JS.ofZ 1221) (JS.ofZ z) = JS.ofZ (defaultWindowLevel z).
Proof.
  unfold level. cbv zeta.
  remember (JS.sub (JS.ofZ 610) (JS.div (JS.ofZ 1221) (JS.ofZ 2))) as lo eqn:Hlo.
  vm_compute in Hlo. subst lo.
  remember (JS.add (JS.ofZ 610) (JS.div (JS.ofZ 1221) (JS.ofZ 2))) as hi eqn:Hhi.
  vm_compute in Hhi. subst hi.
  remember (JS.div (JS.ofZ 255) _) as scale eqn:Hscale.
  vm_compute in Hscale. subst scale.
  remember (JS.lt _ (JS.ofZ 0)) as neg eqn:Hneg.
  vm_compute in Hneg. subst neg.
  remember (JS.abs _) as shift eqn:Hshift.
  vm_compute in Hshift. subst shift.
  unfold JS.min, JS.max, JS.extremum. cbn [fold_left].
  unfold JS.gt, JS.lt, JS.ofZ, Qle_bool. cbn [Qnum Qden inject_Z].
  unfold defaultWindowLevel.
  destruct (Z.leb_spec (-1 * 1) (z * 2)) as [Hlo|Hlo]; cbn [negb].
  - cbn [inject_Z Qnum Qden].
    destruct (Z.leb_spec (z * 2) (2441 * 1)) as [Hhi|Hhi]; cbn [negb].
    + destruct (Z.ltb_spec z 0) as [H0|H0]; [lia|].
      destruct (Z.ltb_spec 1220 z) as [H1|H1]; [lia|].
      cbn [JS.add JS.mul JS.lift2 JS.floor]. unfold JS.ofZ. do 2 f_equal.
      rewrite (Qfloor_comp _ (((z # 1) + (1 # 2)) * (85 # 407))).
      2:{ rewrite !Qred_correct. reflexivity. }
      unfold Qfloor, Qplus, Qmult. cbn [Qnum Qden].
      change (Z.pos (1 * 2 * 407)) with 814%Z.
      replace (255 * (2 * z + 1))%Z with (3 * ((z * 2 + 1 * 1) * 85))%Z by lia.
      change 2442%Z with (3 * 814)%Z.
      now rewrite Z.div_mul_cancel_l by lia.
    + destruct (Z.ltb_spec z 0) as [H0|H0]; [lia|].
      destruct (Z.ltb_spec 1220 z) as [H1|H1]; [|lia].
      reflexivity.
  - cbn [Qnum Qden].
    destruct (Z.ltb_spec z 0) as [H0|H0]; [|lia].
    reflexivity.
Qed.

(** A window element that [adjustToWindow] passes over: an absent
    one, or one whose value is a numeric zero. *)
Definition unset (t : option (ITag JS.number)) : Prop :=
  match t with
  | Some t => exists q, value t = JS.Num q /\ q == 0
  | None => True
  end.

Lemma safeWindowCenterOf_unset (t : option (ITag JS.number)) :
  unset t -> safeWindowCenterOf t = JS.ofZ 610.
Proof.
  destruct t as [t|]; [|reflexivity]. intros [q [Hv Hq]].
  unfold safeWindowCenterOf. now rewrite Hv, (truthy_zero q Hq).
Qed.

Lemma safeWindowWidthOf_unset (t : option (ITag JS.number)) :
  unset t -> safeWindowWidthOf t = JS.ofZ 1221.
Proof.
  destruct t as [t|]; [|reflexivity]. intros [q [Hv Hq]].
  unfold safeWindowWidthOf. now rewrite Hv, (truthy_zero q Hq).
Qed.

(** ** Window elements that hold zero *)

(** The elements that [getTagsGroup] files under [key] in the group
    0028. *)
Definition windowElement (key : string) (t : ITag jsvalue) : bool :=
  (String.eqb (hexGroup (representations t)) "0028"
   && String.eqb (groupKey t) key)%bool.

(** The dataset without its elements of that key. *)
Definition without (key : string) (ds : Dataset) : Dataset :=
  filter (fun kt => negb (windowElement key (snd kt))) ds.

Lemma values_filter {A : Type} (p : A -> bool) (object : Record_ A) :
  values (filter (fun kt => p (snd kt)) object) = filter p (values object).
Proof.
  unfold values. induction object as [|[k v] rest IH]; simpl; [reflexivity|].
  destruct (p v); simpl; now rewrite IH.
Qed.

Lemma filter_comm {A : Type} (p q : A -> bool) (xs : list A) :
  filter p (filter q xs) = filter q (filter p xs).
Proof.
  induction xs as [|x xs IH]; simpl; [reflexivity|].
  destruct (p x) eqn:Hp, (q x) eqn:Hq; simpl; rewrite ?Hp, ?Hq, IH; reflexivity.
Qed.

Lemma find_filter {A : Type} (p q : A -> bool) (xs : list A) :
  find p (filter q xs) = find (fun x => (q x && p x)%bool) xs.
Proof.
  induction xs as [|x xs IH]; simpl; [reflexivity|].
  destruct (q x); simpl; [|exact IH]. now destruct (p x).
Qed.

Lemma find_ext_in {A : Type} (p q : A -> bool) (xs : list A) :
  Forall (fun x => p x = q x) xs -> find p xs = find q xs.
Proof.
  induction 1 as [|x xs Hx _ IH]; simpl; [reflexivity|].
  rewrite Hx, IH. reflexivity.
Qed.

Lemma existsb_filter {A : Type} (p q : A -> bool) (xs : list A) :
  existsb p (filter q xs) = existsb (fun x => (q x && p x)%bool) xs.
Proof.
  induction xs as [|x xs IH]; simpl; [reflexivity|].
  destruct (q x); simpl; now rewrite IH.
Qed.

Lemma existsb_ext_in {A : Type} (p q : A -> bool) (xs : list A) :
  Forall (fun x => p x = q x) xs -> existsb p xs = existsb q xs.
Proof.
  induction 1 as [|x xs Hx _ IH]; simpl; [reflexivity|].
  rewrite Hx, IH. reflexivity.
Qed.

(** What [getTagsGroup] returns for the group 0028, by lookups in the
    dataset. *)
Lemma getTagsGroup_0028 (ds : Dataset) (l : log) :
  if existsb (fun t => (String.eqb (hexGroup (representations t)) "0028"
                        && String.eqb (keyword t) "")%bool) (values ds)
  then getTagsGroup ds "0028" l = (Throw TypeError, l)
  else exists group,
      getTagsGroup ds "0028" l = (Return group, l)
      /\ forall key,
          get group key = find (windowElement key) (rev (values ds)).
Proof.
  unfold getTagsGroup.
  pose proof (getTagsGroupReduce_outcome
                (filter (fun t => String.eqb (hexGroup (representations t)) "0028")
                   (values ds)) [] l) as H.
  rewrite existsb_filter in H.
  destruct (existsb _ (values ds)); [exact H|].
  destruct H as [group [Hgroup Hget]]. exists group.
  split; [exact Hgroup|]. intro key. rewrite Hget.
  rewrite <- filter_rev, find_filter. unfold windowElement.
  now destruct (find _ (rev (values ds))).
Qed.

Lemma find_false {A : Type} (p : A -> bool) (xs : list A) :
  (forall x, p x = false) -> find p xs = None.
Proof.
  intro H. induction xs as [|x xs IH]; simpl; [reflexivity|].
  now rewrite H.
Qed.

Lemma isZero_value (v : jsvalue) :
  isZero v = true -> exists q, v = VNumber (JS.Num q) /\ q == 0.
Proof.
  destruct v as [[|q]| | |]; simpl; try discriminate.
  intro H. exists q. split; [reflexivity|now apply Qeq_bool_iff].
Qed.

(** When the window element that [getPixelData] reads (the last of
    its key in the group 0028) holds a numeric zero, [getPixelData]
    answers as it does on the dataset without any element of that
    key. *)
Lemma getPixelData_without (ds : Dataset) (key : string) (l : log) :
  key = "windowCenter" \/ key = "windowWidth" ->
  match find (windowElement key) (rev (values ds)) with
  | Some t => isZero (value t) = true
  | None => True
  end ->
  Forall (fun t => windowElement key t = true ->
                   getMatchedTag (ByString "Pixel Data") t = false)
    (values ds) ->
  getPixelData (without key ds) l = getPixelData ds l.
Proof.
  intros Hkey Hlast Hpixel.
  set (keep := fun t : ITag jsvalue => negb (windowElement key t)).
  assert (Hvalues : values (without key ds) = filter keep (values ds))
    by apply (values_filter keep).
  assert (Hnonempty : key <> "") by (destruct Hkey; subst; discriminate).
  assert (Hother : forall k, k <> key ->
             find (windowElement k) (rev (values (without key ds)))
             = find (windowElement k) (rev (values ds))).
  { intros k Hk. rewrite Hvalues, <- filter_rev, find_filter.
    apply find_ext_in, Forall_forall. intros t _. unfold keep, windowElement.
    destruct (String.eqb (hexGroup (representations t)) "0028");
      [|reflexivity].
    cbn [andb]. destruct (String.eqb_spec (groupKey t) k) as [Ht|Ht];
      [|apply andb_false_r].
    rewrite andb_true_r.
    destruct (String.eqb_spec (groupKey t) key) as [Ht'|_];
      [congruence|reflexivity]. }
  assert (Hnone : find (windowElement key) (rev (values (without key ds)))
                  = None).
  { rewrite Hvalues, <- filter_rev, find_filter. apply find_false.
    intro t. unfold keep. now destruct (windowElement key t). }
  assert (Hfind : find (getMatchedTag (ByString "Pixel Data"))
                    (values (without key ds))
                  = find (getMatchedTag (ByString "Pixel Data")) (values ds)).
  { rewrite Hvalues, find_filter. apply find_ext_in.
    eapply Forall_impl; [|exact Hpixel].
    intros t Ht. cbv beta in Ht. unfold keep.
    destruct (windowElement key t); [|reflexivity].
    now rewrite (Ht eq_refl). }
  assert (Hthrows :
            existsb (fun t => (String.eqb (hexGroup (representations t)) "0028"
                               && String.eqb (keyword t) "")%bool)
              (values (without key ds))
            = existsb (fun t => (String.eqb (hexGroup (representations t)) "0028"
                                 && String.eqb (keyword t) "")%bool)
                (values ds)).
  { rewrite Hvalues, existsb_filter. apply existsb_ext_in, Forall_forall.
    intros t _. unfold keep, windowElement, groupKey.
    destruct (String.eqb (hexGroup (representations t)) "0028");
      [|apply andb_false_r].
    cbn [andb]. destruct (keyword t) as [|c rest]; [|apply andb_false_r].
    destruct (String.eqb_spec "" key) as [He|_]; [congruence|reflexivity]. }
  pose proof (getTagsGroup_0028 ds l) as Hgroup.
  pose proof (getTagsGroup_0028 (without key ds) l) as Hgroup'.
  rewrite Hthrows in Hgroup'.
  destruct (existsb _ (values ds)).
  { unfold getPixelData, bind. now rewrite Hgroup, Hgroup'. }
  destruct Hgroup as [group [Hgroup Hget]].
  destruct Hgroup' as [group' [Hgroup' Hget']].
  unfold getPixelData, bind. rewrite Hgroup, Hgroup'.
  unfold getTagValue, ret. rewrite Hfind.
  destruct (find _ (values ds)) as [pixelData|]; [|reflexivity].
  cbv zeta. unfold valueOf, ret, throw.
  rewrite !Hget, !Hget'.
  destruct Hkey as [->| ->].
  - rewrite Hnone, !Hother by discriminate.
    destruct (find (windowElement "bitsAllocated") _); [|reflexivity].
    destruct (find (windowElement "highBit") _); [|reflexivity].
    destruct (find (windowElement "bitsStored") _); [|reflexivity].
    destruct (find (windowElement "pixelRepresentation") _); [|reflexivity].
    destruct (find (windowElement "windowCenter") (rev (values ds))) as [t|];
      [|reflexivity].
    apply isZero_value in Hlast as [q [Hv Hq]].
    cbn [option_map].
    rewrite (proj1 (proj1 (adjustToWindow_zero_is_default _ t q _ Hv Hq))).
    reflexivity.
  - rewrite Hnone, !Hother by discriminate.
    destruct (find (windowElement "bitsAllocated") _); [|reflexivity].
    destruct (find (windowElement "highBit") _); [|reflexivity].
    destruct (find (windowElement "bitsStored") _); [|reflexivity].
    destruct (find (windowElement "pixelRepresentation") _); [|reflexivity].
    destruct (find (windowElement "windowWidth") (rev (values ds))) as [t|];
      [|reflexivity].
    apply isZero_value in Hlast as [q [Hv Hq]].
    cbn [option_map].
    rewrite (proj1 (proj2 (adjustToWindow_zero_is_default _ t q _ Hv Hq))).
    reflexivity.
Qed.

(** C10.  A stored window setting of zero is passed over for the
    default, as an absent one is.
    - [adjustToWindow], handed a WindowCenter (a WindowWidth) of
      numeric value zero as [getPixelData] hands it over, answers as
      it does for an absent element.
    - With both elements absent or zero the window is the default
      one, centre 610 and width 1221: an integer pixel [z] comes out
      as [defaultWindowLevel z].
    - [getPixelData] answers (colours, exception, log) as it does on
      the dataset without any element of that key, when the element
      it reads, the last one of the key, holds zero; and as it does
      on the dataset in which the zero elements hold 610 and 1221.
    - For one byte per pixel, unsigned, MONOCHROME2, slope 1 and
      intercept 0 with both window elements zero, the byte [b] comes
      out as the colour of [defaultWindowLevel b]. *)
Theorem zero_window_is_default :
  (forall (pixelData : list JS.number) (t : ITag jsvalue) (q : Q)
          (other : option (ITag JS.number)),
      value t = VNumber (JS.Num q) -> q == 0 ->
      adjustToWindow pixelData (Some (castTag asNumber t)) other
      = adjustToWindow pixelData None other
      /\ adjustToWindow pixelData other (Some (castTag asNumber t))
         = adjustToWindow pixelData other None)
  /\
  (forall (pixels : list Z) (windowCenter windowWidth : option (ITag JS.number)),
      unset windowCenter -> unset windowWidth ->
      adjustToWindow (map JS.ofZ pixels) windowCenter windowWidth
      = map (fun z => JS.ofZ (defaultWindowLevel z)) pixels)
  /\
  (forall (ds : Dataset) (key : string) (l : log),
      key = "windowCenter" \/ key = "windowWidth" ->
      match find (windowElement key) (rev (values ds)) with
      | Some t => isZero (value t) = true
      | None => True
      end ->
      Forall (fun t => windowElement key t = true ->
                       getMatchedTag (ByString "Pixel Data") t = false)
        (values ds) ->
      getPixelData (without key ds) l = getPixelData ds l)
  /\
  (forall (ds : Dataset) (l : log),
      getPixelData (mapValues defaultZeroWindow ds) l = getPixelData ds l)
  /\
  (forall b : byte,
      getPixelData (Samples.eightBitDataset 0 0 [b]) []
      = (Return
           (Some [grey (Z.to_N (defaultWindowLevel (Z.of_N (Byte.to_N b))))]),
         [])).
Proof.
  split; [|split; [|split; [|split]]].
  - intros pixelData t q other Hv Hq.
    destruct (adjustToWindow_zero_is_default pixelData t q other Hv Hq)
      as [[Hc _] [Hw _]].
    split; [exact Hc|exact Hw].
  - intros pixels windowCenter windowWidth Hc Hw.
    rewrite adjustToWindow_level, map_map.
    rewrite (safeWindowCenterOf_unset _ Hc), (safeWindowWidthOf_unset _ Hw).
    apply map_ext. intro z. apply level_default.
  - exact getPixelData_without.
  - exact getPixelData_defaultZeroWindow.
  - intro b. destruct b; vm_compute; reflexivity.
Qed.

(** A stored centre and a stored width of zero, on the pixels 0, 128
    and 255: the colours are those of the default window, and those
    of the dataset without its WindowCenter. *)
Lemma zero_window_is_default_witness :
  let ds := Samples.eightBitDataset 0 0 (Samples.raw [0; 128; 255]%N) in
  let centre :=
    snd (Samples.numeric "1050" "DS" "Window Center" "WindowCenter" 0) in
  (value centre = VNumber (JS.Num 0) /\ 0 == 0)
  /\ adjustToWindow [JS.ofZ 0; JS.ofZ 128; JS.ofZ 255]
       (Some (castTag asNumber centre)) None
     = [JS.ofZ 0; JS.ofZ 26; JS.ofZ 53]
  /\ getPixelData (without "windowCenter" ds) [] = getPixelData ds []
  /\ getPixelData ds [] = (Return (Some ["#000000"; "#1A1A1A"; "#353535"]), []).
Proof.
  intros ds centre.
  assert (Hzero : value centre = VNumber (JS.Num 0) /\ 0 == 0)
    by (split; reflexivity).
  split; [exact Hzero|]. split; [|split].
  - assert (Hunset : unset (Some (castTag asNumber centre)))
      by (exists 0%Q; split; reflexivity).
    exact (proj1 (proj2 zero_window_is_default) [0; 128; 255]%Z
             (Some (castTag asNumber centre)) None Hunset I).
  - refine (proj1 (proj2 (proj2 zero_window_is_default)) ds "windowCenter" []
              (or_introl eq_refl) _ _).
    + vm_compute. reflexivity.
    + repeat constructor; intro H; vm_compute in H |- *;
        first [reflexivity | discriminate H].
  - vm_compute. reflexivity.
Defined.

End WindowDefaults.

(** ** Hexadecimal strings and pixels *)

Section PixelProperties.

Lemma parseDigits_two (c1 c2 : ascii) (d1 d2 : N) (rest : string)
  (acc : option N) :
  JS.digitValue c1 = Some d1 -> (d1 < 16)%N ->
  JS.digitValue c2 = Some d2 -> (d2 < 16)%N ->
  JS.parseDigits 16 (String c1 (String c2 rest)) acc
  = JS.parseDigits 16 rest
      (Some (match acc with Some a => a | None => 0 end * 256
             + (d1 * 16 + d2))%N).
Proof.
  intros H1 Hd1 H2 Hd2. cbn [JS.parseDigits]. rewrite H1, H2.
  apply N.ltb_lt in Hd1, Hd2. rewrite Hd1, Hd2.
  f_equal. f_equal. destruct acc as [a|]; lia.
Qed.

(** [numberToHex] gives the two hexadecimal digits of the byte. *)
Lemma numberToHex_digits (b : byte) :
  exists c1 c2 d1 d2,
    numberToHex b = String c1 (String c2 "")
    /\ JS.digitValue c1 = Some d1 /\ JS.digitValue c2 = Some d2
    /\ (d1 < 16)%N /\ (d2 < 16)%N /\ (d1 * 16 + d2)%N = Byte.to_N b.
Proof.
  destruct b; do 4 eexists; repeat split; reflexivity.
Qed.

Lemma hexOf_concat (raw : JS.Uint8Array) :
  hexOf raw = JS.concatStrings (map numberToHex raw).
Proof.
  unfold hexOf.
  assert (H : forall acc,
             fold_left (fun a i => (a ++ numberToHex i)%string) raw acc
             = (acc ++ JS.concatStrings (map numberToHex raw))%string).
  { induction raw as [|b raw IH]; intro acc; simpl.
    - clear. induction acc as [|c acc IH]; simpl; [reflexivity|now rewrite <- IH].
    - rewrite IH. clear.
      induction acc as [|c acc IH]; simpl; [reflexivity|now rewrite IH]. }
  apply (H "").
Qed.

Lemma parseDigits_hex (raw : JS.Uint8Array) (acc : option N) :
  JS.parseDigits 16 (JS.concatStrings (map numberToHex raw)) acc
  = match raw with
    | [] => acc
    | _ => Some (fold_left (fun a b => (a * 256 + Byte.to_N b)%N) raw
                   (match acc with Some a => a | None => 0%N end))
    end.
Proof.
  revert acc; induction raw as [|b raw IH]; intro acc; [reflexivity|].
  cbn [map JS.concatStrings].
  destruct (numberToHex_digits b)
    as [c1 [c2 [d1 [d2 [-> [H1 [H2 [Hd1 [Hd2 Hb]]]]]]]]].
  cbn [append].
  rewrite (parseDigits_two c1 c2 d1 d2) by assumption.
  rewrite IH, Hb. cbn [fold_left]. now destruct raw.
Qed.

(** *** Chunks *)

Lemma list_ascii_append (a b : string) :
  list_ascii_of_string (a ++ b)
  = list_ascii_of_string a ++ list_ascii_of_string b.
Proof. induction a as [|c a IH]; simpl; [reflexivity|now rewrite IH]. Qed.

Lemma length_list_ascii (a : string) :
  List.length (list_ascii_of_string a) = String.length a.
Proof. induction a as [|c a IH]; simpl; [reflexivity|now rewrite IH]. Qed.

Lemma chunkFuel_concat (size : nat) (l : list string) :
  0 < size ->
  Forall (fun piece => String.length piece = size) l ->
  forall fuel,
    List.length l <= fuel ->
    JS.chunkFuel fuel size (list_ascii_of_string (JS.concatStrings l)) = l.
Proof.
  intros Hsize Hall. induction Hall as [|piece l Hpiece Hall IH];
    intros fuel Hfuel.
  - destruct fuel; reflexivity.
  - destruct fuel as [|fuel]; [simpl in Hfuel; lia|].
    cbn [JS.concatStrings]. rewrite list_ascii_append. cbn [JS.chunkFuel].
    destruct (list_ascii_of_string piece ++ _) eqn:E.
    + apply (f_equal (@List.length ascii)) in E.
      rewrite length_app, length_list_ascii in E. simpl in E. lia.
    + rewrite <- E. clear E.
      set (pa := list_ascii_of_string piece).
      set (t := list_ascii_of_string (JS.concatStrings l)).
      assert (Ha : List.length pa = size)
        by (subst pa; now rewrite length_list_ascii).
      assert (Hfirst : firstn size (pa ++ t) = pa).
      { rewrite <- Ha, firstn_app, Nat.sub_diag, firstn_all, firstn_0.
        apply app_nil_r. }
      assert (Hskip : skipn size (pa ++ t) = t).
      { rewrite <- Ha, skipn_app, Nat.sub_diag, skipn_all, skipn_0.
        reflexivity. }
      rewrite Hfirst, Hskip. subst pa t.
      rewrite string_of_list_ascii_of_string.
      f_equal. apply IH. simpl in Hfuel. lia.
Qed.

Lemma length_concatStrings (size : nat) (l : list string) :
  Forall (fun piece => String.length piece = size) l ->
  String.length (JS.concatStrings l) = size * List.length l.
Proof.
  induction 1 as [|piece l Hpiece Hall IH]; simpl; [lia|].
  rewrite length_append, IH, Hpiece. lia.
Qed.

(** Chunking the concatenation of pieces of one size gives the pieces
    back. *)
Lemma chunk_concat (size : nat) (l : list string) :
  0 < size ->
  Forall (fun piece => String.length piece = size) l ->
  JS.chunk (JS.concatStrings l) size = l.
Proof.
  intros Hsize Hall. unfold JS.chunk.
  destruct size as [|size]; [lia|].
  apply chunkFuel_concat; [lia|exact Hall|].
  rewrite (length_concatStrings (S size) l Hall). nia.
Qed.

Lemma numberToHex_length (b : byte) : String.length (numberToHex b) = 2.
Proof.
  destruct (numberToHex_digits b) as [c1 [c2 [d1 [d2 [-> _]]]]]. reflexivity.
Qed.

Lemma Forall_numberToHex (raw : JS.Uint8Array) :
  Forall (fun piece => String.length piece = 2) (map numberToHex raw).
Proof.
  apply Forall_forall. intros piece Hin.
  apply in_map_iff in Hin as [b [<- _]]. apply numberToHex_length.
Qed.

(** In the integers of the model: the hexadecimal string of a
    non-empty run of bytes has two digits for each byte and, turned
    around, parses to the little-endian value of the bytes. *)
Lemma littleEndian_hexOf (raw : JS.Uint8Array) :
  raw <> [] ->
  String.length (hexOf raw) = 2 * List.length raw
  /\ JS.parseInt (littleEndianToBigEndian (hexOf raw)) 16
     = JS.ofN (Bufferpack.decodeInt true raw).
Proof.
  intro Hne.
  assert (Hlen : String.length (hexOf raw) = 2 * List.length raw).
  { rewrite hexOf_concat, (length_concatStrings 2 _ (Forall_numberToHex raw)).
    now rewrite length_map. }
  split; [exact Hlen|].
  unfold littleEndianToBigEndian, JS.parseInt, Bufferpack.decodeInt,
    Bufferpack.bigEndian.
  rewrite Hlen.
  destruct (Nat.ltb_spec 2 (2 * List.length raw)) as [Hlong|Hshort].
  - rewrite hexOf_concat.
    rewrite chunk_concat by (auto using Forall_numberToHex).
    rewrite <- map_rev, parseDigits_hex.
    destruct (rev raw) eqn:E; [|reflexivity].
    apply (f_equal (@rev byte)) in E. rewrite rev_involutive in E.
    contradiction.
  - destruct raw as [|b [|b' raw]]; [contradiction| |simpl in Hshort; lia].
    rewrite hexOf_concat. rewrite parseDigits_hex. reflexivity.
Qed.

Lemma bigEndian_bound (a : JS.Uint8Array) :
  forall acc : N,
    (fold_left (fun acc b => acc * 256 + Byte.to_N b) a acc
     < (acc + 1) * 256 ^ N.of_nat (List.length a))%N.
Proof.
  induction a as [|b a IH]; intro acc.
  - cbn [fold_left List.length N.of_nat]. rewrite N.pow_0_r. lia.
  - cbn [fold_left List.length]. rewrite Nat2N.inj_succ, N.pow_succ_r'.
    specialize (IH (acc * 256 + Byte.to_N b)%N).
    pose proof (Byte.to_N_bounded b) as Hb.
    assert (Hpos : (0 < 256 ^ N.of_nat (List.length a))%N)
      by (apply N.neq_0_lt_0, N.pow_nonzero; discriminate).
    nia.
Qed.

(** X18.  A pixel of one to six bytes (a value below 2^48, which
    [parseInt] reads exactly), written as [getPixelData] writes it in
    hexadecimal and turned around by [littleEndianToBigEndian], parses
    to the little-endian integer of its bytes, the one that bufferpack
    decodes with ['<']; the hexadecimal string has two digits for each
    byte. *)
Theorem littleEndian_pixel_value (raw : JS.Uint8Array) :
  1 <= List.length raw <= 6 ->
  String.length (hexOf raw) = 2 * List.length raw
  /\ JS.parseInt (littleEndianToBigEndian (hexOf raw)) 16
     = JS.ofN (Bufferpack.decodeInt true raw)
  /\ (Bufferpack.decodeInt true raw < 2 ^ 48)%N.
Proof.
  intros [Hone Hsix].
  assert (Hne : raw <> []) by (destruct raw; [simpl in Hone; lia|discriminate]).
  destruct (littleEndian_hexOf raw Hne) as [Hlen Hvalue].
  split; [exact Hlen|]. split; [exact Hvalue|].
  unfold Bufferpack.decodeInt, Bufferpack.bigEndian.
  pose proof (bigEndian_bound (rev raw) 0) as Hb.
  rewrite length_rev in Hb.
  eapply N.lt_le_trans; [exact Hb|].
  change (2 ^ 48)%N with ((0 + 1) * 256 ^ N.of_nat 6)%N.
  apply N.mul_le_mono_l. apply N.pow_le_mono_r; [discriminate|lia].
Qed.

(** *** The number of pixels *)

Lemma chunkFuel_length (size : nat) :
  0 < size ->
  forall (fuel : nat) (l : list ascii),
    List.length l <= fuel ->
    List.length (JS.chunkFuel fuel size l)
    = (List.length l + size - 1) / size.
Proof.
  intros Hsize. induction fuel as [|fuel IH]; intros l Hfuel.
  - destruct l; [|simpl in Hfuel; lia]. simpl.
    symmetry. apply Nat.div_small. lia.
  - destruct l as [|c l].
    + simpl. symmetry. apply Nat.div_small. lia.
    + cbn [JS.chunkFuel]. cbn [List.length] in Hfuel.
      set (n := List.length (c :: l)).
      assert (Hn : n = S (List.length l)) by reflexivity.
      change (List.length (string_of_list_ascii (firstn size (c :: l))
                             :: JS.chunkFuel fuel size (skipn size (c :: l))))
        with (S (List.length (JS.chunkFuel fuel size (skipn size (c :: l))))).
      rewrite IH by (rewrite length_skipn; fold n; lia).
      rewrite length_skipn. fold n.
      destruct (Nat.le_gt_cases size n) as [Hge|Hlt].
      * replace (n + size - 1) with ((n - size + size - 1) + 1 * size) by lia.
        rewrite Nat.div_add by lia. lia.
      * replace (n - size) with 0 by lia.
        rewrite (Nat.div_small (0 + size - 1)) by lia.
        apply (Nat.div_unique _ _ 1 (n - 1)); lia.
Qed.

(** The number of chunks that lodash's [chunk] cuts a string into. *)
Lemma chunk_length (text : string) (size : nat) :
  0 < size ->
  List.length (JS.chunk text size) = (String.length text + size - 1) / size.
Proof.
  intro Hsize. unfold JS.chunk. destruct size as [|size]; [lia|].
  rewrite chunkFuel_length by (rewrite ?length_list_ascii; lia).
  now rewrite length_list_ascii.
Qed.

Lemma Qceiling_eighth (bits : Z) :
  Qceiling (Qred (inject_Z bits / inject_Z 8)) = ((bits + 7) / 8)%Z.
Proof.
  rewrite (Qceiling_comp _ _ (Qred_correct _)).
  unfold Qceiling, Qfloor, Qopp, Qdiv, Qmult, Qinv, inject_Z. simpl.
  Z.to_euclidean_division_equations. lia.
Qed.

Lemma hexAllocatedOf_bits (bitsAllocated : ITag jsvalue) (bits : Z) :
  value bitsAllocated = VNumber (JS.ofZ bits) ->
  hexAllocatedOf bitsAllocated = 2 * Z.to_nat ((bits + 7) / 8).
Proof.
  intro Hv. unfold hexAllocatedOf. rewrite Hv. cbn [asNumber].
  unfold JS.div, JS.ofZ at 1 2.
  change (Qeq_bool (inject_Z 8) 0) with false. cbv iota.
  unfold JS.ceil. rewrite Qceiling_eighth, mul_ofZ.
  unfold JS.toLength, JS.ofZ, inject_Z. simpl Qnum. simpl Qden.
  rewrite Z.div_1_r. lia.
Qed.

Lemma length_hexOf (raw : JS.Uint8Array) :
  String.length (hexOf raw) = 2 * List.length raw.
Proof.
  rewrite hexOf_concat, (length_concatStrings 2 _ (Forall_numberToHex raw)).
  now rewrite length_map.
Qed.

Lemma ceil_div_double (n k : nat) :
  0 < k -> (2 * n + 2 * k - 1) / (2 * k) = (n + k - 1) / k.
Proof.
  intro Hk. symmetry.
  apply (Nat.div_unique _ _ _ (2 * ((n + k - 1) mod k) + 1)).
  - pose proof (Nat.mod_upper_bound (n + k - 1) k). lia.
  - pose proof (Nat.div_mod_eq (n + k - 1) k). nia.
Qed.

(** X19.  When BitsAllocated holds a positive integer, every run of
    [getPixelData] that returns colours returns one colour for each
    group of ceil(BitsAllocated / 8) bytes of the pixel data, the last
    group being allowed to be short. *)
Theorem getPixelData_pixel_count (ds : Dataset) (l l' : log)
  (group0028 : Dataset) (pixelData bitsAllocated : ITag jsvalue) (bits : Z)
  (colours : list string) :
  getTagsGroup ds "0028" l = (Return group0028, l) ->
  find (getMatchedTag (ByString "Pixel Data")) (values ds) = Some pixelData ->
  get group0028 "bitsAllocated" = Some bitsAllocated ->
  value bitsAllocated = VNumber (JS.ofZ bits) ->
  (0 < bits)%Z ->
  getPixelData ds l = (Return (Some colours), l') ->
  let bytesPerPixel := Z.to_nat ((bits + 7) / 8) in
  List.length colours
  = (List.length (rawValue pixelData) + bytesPerPixel - 1) / bytesPerPixel.
Proof.
  intros Hgroup Hfind Hbits Hvalue Hpos Hrun bytesPerPixel.
  pose proof (getPixelData_cases ds l group0028 Hgroup) as Hcases.
  rewrite Hfind, Hbits in Hcases.
  destruct (get group0028 "highBit"); [|congruence].
  destruct (get group0028 "bitsStored"); [|congruence].
  destruct (get group0028 "pixelRepresentation"); [|congruence].
  destruct Hcases as [colours' [Hrun' Hlen]].
  rewrite Hrun in Hrun'. injection Hrun' as <-.
  rewrite Hlen, (hexAllocatedOf_bits _ bits Hvalue).
  fold bytesPerPixel.
  assert (Hk : 0 < bytesPerPixel).
  { subst bytesPerPixel.
    assert (1 <= (bits + 7) / 8)%Z
      by (Z.to_euclidean_division_equations; lia).
    lia. }
  rewrite chunk_length by lia.
  rewrite length_hexOf. now apply ceil_div_double.
Qed.

(** *** Tag strings *)

Fixpoint allFrom (fuel : nat) (n : N) (P : N -> bool) : bool :=
  match fuel with
  | O => true
  | S fuel' => (P n && allFrom fuel' (N.succ n) P)%bool
  end.

Lemma allFrom_spec (P : N -> bool) (fuel : nat) :
  forall n, allFrom fuel n P = true ->
            forall m, (n <= m < n + N.of_nat fuel)%N -> P m = true.
Proof.
  induction fuel as [|fuel IH]; intros n H m Hm; [lia|].
  simpl in H. apply andb_prop in H as [Hn Hrest].
  destruct (N.eq_dec m n) as [->|Hne]; [exact Hn|].
  apply (IH _ Hrest). lia.
Qed.

(** Four digits that parse back to the number. *)
Definition fourDigits (n : N) : bool :=
  let hex := fst (getHexRepresentation n 0) in
  ((String.length hex =? 4)
   && match JS.parseDigits 16 hex None with
      | Some m => (m =? n)%N
      | None => false
      end)%bool.

Lemma fourDigits_u16 : allFrom (N.to_nat 65536) 0 fourDigits = true.
Proof. vm_compute. reflexivity. Qed.

Lemma fourDigits_spec (n : N) :
  (n < 65536)%N ->
  String.length (fst (getHexRepresentation n 0)) = 4
  /\ JS.parseInt (fst (getHexRepresentation n 0)) 16 = JS.ofN n.
Proof.
  intro Hn.
  assert (H : fourDigits n = true).
  { apply (allFrom_spec fourDigits _ _ fourDigits_u16).
    rewrite N2Nat.id. lia. }
  unfold fourDigits in H. cbv zeta in H. apply andb_prop in H as [Hlen Hparse].
  apply Nat.eqb_eq in Hlen. split; [exact Hlen|].
  unfold JS.parseInt.
  destruct (JS.parseDigits 16 _ None) as [m|]; [|discriminate].
  apply N.eqb_eq in Hparse. now subst m.
Qed.

(** X20.  For the 16-bit group and element numbers that a header holds,
    [getHexRepresentation] gives two strings of exactly four
    hexadecimal digits that [parseInt] reads back as the numbers, so
    two different tags never share a tag string. *)
Theorem getHexRepresentation_roundtrip (g e : N) :
  (g < 65536)%N -> (e < 65536)%N ->
  String.length (fst (getHexRepresentation g e)) = 4
  /\ String.length (snd (getHexRepresentation g e)) = 4
  /\ JS.parseInt (fst (getHexRepresentation g e)) 16 = JS.ofN g
  /\ JS.parseInt (snd (getHexRepresentation g e)) 16 = JS.ofN e
  /\ forall g' e',
      (g' < 65536)%N -> (e' < 65536)%N ->
      getHexRepresentation g e = getHexRepresentation g' e' ->
      g = g' /\ e = e'.
Proof.
  intros Hg He.
  change (fst (getHexRepresentation g e)) with (fst (getHexRepresentation g 0)).
  change (snd (getHexRepresentation g e)) with (fst (getHexRepresentation e 0)).
  destruct (fourDigits_spec g Hg) as [Hlg Hpg].
  destruct (fourDigits_spec e He) as [Hle Hpe].
  split; [exact Hlg|]. split; [exact Hle|].
  split; [exact Hpg|]. split; [exact Hpe|].
  intros g' e' Hg' He' Heq.
  assert (Hfst : fst (getHexRepresentation g 0) = fst (getHexRepresentation g' 0))
    by exact (f_equal fst Heq).
  assert (Hsnd : fst (getHexRepresentation e 0) = fst (getHexRepresentation e' 0))
    by exact (f_equal snd Heq).
  destruct (fourDigits_spec g' Hg') as [_ Hpg'].
  destruct (fourDigits_spec e' He') as [_ Hpe'].
  rewrite Hfst, Hpg' in Hpg. rewrite Hsnd, Hpe' in Hpe.
  unfold JS.ofN, JS.ofZ in Hpg, Hpe.
  injection Hpg as Hpg. injection Hpe as Hpe. lia.
Qed.

End PixelProperties.

(** * Further worked examples, over the dictionary and converter of
    [SpecModel] *)

Section MoreExamples.

Existing Instance SpecModel.environment.

(** Three bytes hold no header. *)
Lemma readDataset_short_buffer_witness :
  (size (Samples.raw [0x10; 0x00; 0x10]%N) < 0 + 8)%N
  /\ readDataset (Samples.raw [0x10; 0x00; 0x10]%N) 0 false true None []
     = (Return ([], 0%N), []).
Proof.
  split; [reflexivity|].
  apply readDataset_short_buffer. reflexivity.
Defined.

(** Without a stop predicate the three names are read to the end of
    the buffer. *)
Lemma readDataset_end_witness :
  exists ds,
    readDataset Samples.threeNames 0 false true None [] = (Return (ds, 36%N), [])
    /\ (size Samples.threeNames < 36 + 8)%N.
Proof.
  eexists. split; [vm_compute; reflexivity|].
  refine (proj2 (proj2 (readDataset_end Samples.threeNames 0 false true None
                          [] [] _ 36 _)) eq_refl).
  vm_compute. reflexivity.
Defined.

(** The File Meta Information of [Samples.bigEndianFile]: one element
    of group 0002, and the read stops at the dataset. *)
Lemma readDataset_one_group_witness :
  exists t,
    readFileMetaInfo Samples.bigEndianFile 132 []
    = (Return ([("TransferSyntaxUID-1", t)], 160%N), [])
    /\ Forall (fun t => group (representations t) = 2%N)
         (values [("TransferSyntaxUID-1", t)]).
Proof.
  eexists. split; [vm_compute; reflexivity|].
  refine (readDataset_one_group 2 Samples.bigEndianFile 132 false true
            [] [] _ 160 _).
  vm_compute. reflexivity.
Defined.

(** The three names are all in the dataset, in the order of the
    buffer. *)
Lemma readDataset_keys_distinct_witness :
  exists ds,
    readDataset Samples.threeNames 0 false true None [] = (Return (ds, 36%N), [])
    /\ map (fun t => value t) (values ds)
       = [VString "DOE1"; VString "DOE2"; VString "DOE3"]
    /\ NoDup (keys ds).
Proof.
  let r := eval vm_compute in
             (readDataset Samples.threeNames 0 false true None []) in
  match r with
  | (Return (?ds, _), _) =>
      assert (Hread : readDataset Samples.threeNames 0 false true None []
                      = (Return (ds, 36%N), []))
        by (vm_compute; reflexivity);
      exists ds; split; [exact Hread|];
      destruct (readDataset_keys_distinct Samples.threeNames 0 false true
                  None [] [] ds 36 Hread)
        as [tags [Htags [Hvalues [Hnd _]]]];
      vm_compute in Htags; injection Htags as <-;
      split; [rewrite Hvalues; reflexivity|exact Hnd]
  end.
Defined.

(** The payload of [Samples.wholeElement] is whole, and it is the
    eight bytes behind the header. *)
Lemma readDataset_rawValue_size_witness :
  exists t,
    readDataset Samples.wholeElement 0 true true None []
    = (Return ([("PatientID-1", t)], 16%N), [])
    /\ (16 <= size Samples.wholeElement)%N
    /\ size (rawValue t) = length_ t.
Proof.
  let r := eval vm_compute in
             (readDataset Samples.wholeElement 0 true true None []) in
  match r with
  | (Return ([(_, ?t)], _), _) =>
      assert (Hread : readDataset Samples.wholeElement 0 true true None []
                      = (Return ([("PatientID-1", t)], 16%N), []))
        by (vm_compute; reflexivity);
      assert (Hsize : (16 <= size Samples.wholeElement)%N)
        by (vm_compute; discriminate);
      exists t; split; [exact Hread|]; split; [exact Hsize|];
      destruct (readDataset_rawValue_size Samples.wholeElement 0 true true
                  None [] [] _ 16 Hread) as [implicit [_ [_ [_ Hwhole]]]];
      exact (Forall_inv (Hwhole Hsize))
  end.
Defined.

(** The third element of a keyword. *)
Lemma getSafeKey_first_free_witness :
  let object := [("PatientName-1", 1); ("PatientName-2", 2)] in
  hasPathSyntax "PatientName" = false
  /\ exists n,
       1 <= n <= 3
       /\ getSafeKey object "PatientName" []
          = (Return (suffixed "PatientName" n), []).
Proof.
  intro object. split; [reflexivity|].
  destruct (getSafeKey_first_free object "PatientName" [] eq_refl)
    as [n [Hn [H _]]].
  exists n. split; [exact Hn|exact H].
Defined.

(** (0009,0010), a private tag. *)
Lemma createTag_private_witness :
  let v := {| valuesVR := Some "LO"; valuesLength := 2;
              valuesRawValue := Samples.ascii "AB";
              valuesValue := VString "AB" |} in
  (9 mod 2 = 1)%N
  /\ exists tag,
       createTag 9 16 v [] = (Return tag, [])
       /\ VR tag = "Unknown-PrivateTag".
Proof.
  intro v. split; [reflexivity|].
  destruct (createTag_private 9 16 v [] eq_refl) as [tag [H [HVR _]]].
  exists tag. split; assumption.
Defined.

(** (0010,0010) with the VR of its header. *)
Lemma createTag_public_witness :
  let v := {| valuesVR := Some "PN"; valuesLength := 4;
              valuesRawValue := Samples.ascii "DOE1";
              valuesValue := VString "DOE1" |} in
  (16 mod 2 = 0)%N
  /\ truthyVR (valuesVR v) = true
  /\ exists tag,
       createTag 16 16 v [] = (Return tag, [])
       /\ representation tag = "00100010".
Proof.
  intro v. split; [reflexivity|]. split; [reflexivity|].
  destruct (proj2 (createTag_public 16 16 v [] eq_refl) (or_introl eq_refl))
    as [tag [H [_ [_ [Hrep _]]]]].
  exists tag. split; [exact H|exact Hrep].
Defined.

(** The header of (0010,0010) PN takes 8 bytes. *)
Lemma unpack_header_size_witness :
  let data := Samples.patientName "DOE1" in
  unpack data (getArrayRange data 0 8) (getEndianPattern true false)
    false true 0 []
  = (Return (16%N, 16%N, Some "PN", 4%N, 8%N), [])
  /\ 8%N = 8%N.
Proof.
  intro data. split; [vm_compute; reflexivity|].
  refine (proj1 (proj2 (unpack_header_size data (getArrayRange data 0 8)
                          (getEndianPattern true false) false true 0 [] []
                          16 16 4 8 (Some "PN") _))).
  vm_compute. reflexivity.
Defined.

(** Without a transfer syntax, an explicit VR header is guessed as
    explicit VR little endian. *)
Lemma readOrGuess_never_implicit_big_endian_witness :
  readOrGuessIsImplicitVrAndIsLittleEndian (Samples.patientName "DOE1") 0
    None []
  = (Return (false, true), [])
  /\ (false = true -> true = true).
Proof.
  split; [vm_compute; reflexivity|].
  refine (proj1 (readOrGuess_never_implicit_big_endian
                   (Samples.patientName "DOE1") 0 None [] [] false true _)).
  vm_compute. reflexivity.
Defined.

(** A file whose main dataset names a transfer syntax of its own,
    behind the patient name. *)
Definition twoTransferSyntaxes : JS.Uint8Array :=
  Samples.preambleAndMagic
  ++ Samples.transferSyntaxElement "1.2.840.10008.1.2.1"
  ++ Samples.patientName "DOE1"
  ++ Samples.transferSyntaxElement "1.2.840.10008.1.2".

(** Both the File Meta Information and the main dataset of
    [twoTransferSyntaxes] hold a key [TransferSyntaxUID-1]; the object
    holds the element of the File Meta Information. *)
Lemma readFile_entries_witness :
  exists full fileMetaInfo c1 dataset c3 m t,
    readFile twoTransferSyntaxes [] = (Return full, [])
    /\ readFileMetaInfo twoTransferSyntaxes 132 []
       = (Return (fileMetaInfo, c1), [])
    /\ readDataset twoTransferSyntaxes c1 false true None []
       = (Return (dataset, c3), [])
    /\ get fileMetaInfo "TransferSyntaxUID-1" = Some m
    /\ get dataset "TransferSyntaxUID-1" = Some t
    /\ value m = VString "1.2.840.10008.1.2.1"
    /\ value t = VString "1.2.840.10008.1.2"
    /\ get (entries full) "TransferSyntaxUID-1" = Some m.
Proof.
  let r := eval vm_compute in (readFile twoTransferSyntaxes []) in
  match r with
  | (Return ?full, _) =>
      assert (Hread : readFile twoTransferSyntaxes [] = (Return full, []))
        by (vm_compute; reflexivity);
      destruct (readFile_entries twoTransferSyntaxes [] [] full Hread)
        as [preamble [c0 [l0 [meta [c1 [l1 [cmd [c2 [l2 [l3 [ds [c3
           [Hpre [Hmeta [Hcmd [Hguess [Hds Hget]]]]]]]]]]]]]]]]];
      vm_compute in Hpre; injection Hpre as <- <- <-;
      vm_compute in Hmeta; injection Hmeta as <- <- <-;
      vm_compute in Hcmd; injection Hcmd as <- <- <-;
      vm_compute in Hguess; injection Hguess as <-;
      vm_compute in Hds; injection Hds as <- <-;
      exists full; do 6 eexists;
      split; [exact Hread|];
      split; [vm_compute; reflexivity|];
      split; [vm_compute; reflexivity|];
      split; [vm_compute; reflexivity|];
      split; [vm_compute; reflexivity|];
      split; [reflexivity|];
      split; [reflexivity|];
      exact (Hget "TransferSyntaxUID-1")
  end.
Defined.

Lemma getPixelData_outcome_witness :
  let ds := Samples.eightBitDataset 128 256 (Samples.raw [0; 128; 255]%N) in
  exists group0028,
    getTagsGroup ds "0028" [] = (Return group0028, [])
    /\ exists colours, getPixelData ds [] = (Return (Some colours), []).
Proof.
  intro ds.
  let r := eval vm_compute in (getTagsGroup ds "0028" []) in
  match r with
  | (Return ?g, _) =>
      exists g; split;
      [vm_compute; reflexivity
      |exact (getPixelData_outcome ds [] g eq_refl)]
  end.
Defined.

(** The bytes 34 12 are the pixel 0x1234. *)
Lemma littleEndian_pixel_value_witness :
  1 <= List.length (Samples.raw [0x34; 0x12]%N) <= 6
  /\ JS.parseInt (littleEndianToBigEndian (hexOf (Samples.raw [0x34; 0x12]%N))) 16
     = JS.ofN 0x1234.
Proof.
  assert (H : 1 <= List.length (Samples.raw [0x34; 0x12]%N) <= 6)
    by (vm_compute; lia).
  split; [exact H|].
  exact (proj1 (proj2 (littleEndian_pixel_value (Samples.raw [0x34; 0x12]%N)
                         H))).
Defined.

(** Three bytes at 8 bits per pixel are three pixels. *)
Lemma getPixelData_pixel_count_witness :
  let ds := Samples.eightBitDataset 128 256 (Samples.raw [0; 128; 255]%N) in
  exists group0028 pixelData bitsAllocated colours,
    getTagsGroup ds "0028" [] = (Return group0028, [])
    /\ find (getMatchedTag (ByString "Pixel Data")) (values ds) = Some pixelData
    /\ get group0028 "bitsAllocated" = Some bitsAllocated
    /\ value bitsAllocated = VNumber (JS.ofZ 8)
    /\ (0 < 8)%Z
    /\ getPixelData ds [] = (Return (Some colours), [])
    /\ List.length colours = 3.
Proof.
  intro ds.
  let g := eval vm_compute in (getTagsGroup ds "0028" []) in
  let p := eval vm_compute in
             (find (getMatchedTag (ByString "Pixel Data")) (values ds)) in
  let c := eval vm_compute in (getPixelData ds []) in
  match constr:((g, p, c)) with
  | ((Return ?g0, _), Some ?p0, (Return (Some ?c0), _)) =>
      let b := eval vm_compute in (get g0 "bitsAllocated") in
      match b with
      | Some ?b0 =>
          exists g0, p0, b0, c0;
          repeat (split; [vm_compute; reflexivity|]);
          exact (getPixelData_pixel_count ds [] [] g0 p0 b0 8 c0
                   eq_refl eq_refl eq_refl eq_refl eq_refl eq_refl)
      end
  end.
Defined.

(** (7fe0,0010), the pixel data. *)
Lemma getHexRepresentation_roundtrip_witness :
  (0x7fe0 < 65536)%N /\ (0x0010 < 65536)%N
  /\ JS.parseInt (fst (getHexRepresentation 0x7fe0 0x0010)) 16 = JS.ofN 0x7fe0.
Proof.
  split; [reflexivity|]. split; [reflexivity|].
  exact (proj1 (proj2 (proj2 (getHexRepresentation_roundtrip 0x7fe0 0x0010
                                eq_refl eq_refl)))).
Defined.

(** The header of length zero of [Samples.undefinedThenZeroLength]
    leaves no element. *)
Lemma readDataset_no_empty_element_witness :
  exists t,
    readDataset Samples.undefinedThenZeroLength 0 true true None []
    = (Return ([("PatientID-1", t)], 28%N),
       [Text "Unhandled null VR, filereader.py:247";
        Text "Unhandled undefined length value, filereader.py:274"])
    /\ Forall (fun t => (0 < length_ t)%N) (values [("PatientID-1", t)]).
Proof.
  eexists. split; [vm_compute; reflexivity|].
  refine (readDataset_no_empty_element Samples.undefinedThenZeroLength 0 true
            true None [] _ _ 28 _).
  vm_compute. reflexivity.
Defined.

End MoreExamples.
